(** * hypocrite: a shallow embedding of the directive parser and the
      template realization engine

    The development follows the layout of the Python package:
    - [location]   : [hypocrite/location.py]  (Coordinate, CoordinateRange)
    - [linelist]   : [hypocrite/linelist.py]  (LineList and its output)
    - [perfile]    : [hypocrite/perfile.py]   (tokenizer, line assembly,
                                               directive dispatch, parser)
    - [hypofile]   : [hypocrite/hypofile.py]  (the test-definition grammar)
    - [template]   : [hypocrite/template.py]  (Section / Template rendering)

    Python integers are [Z].  Python [str] is [string]: a character is
    a code point below 256, and [str.isspace], [str.isalpha] and
    [str.isalnum] classify it as Python 3 does, from the Unicode
    database; texts with code points from 256 on are outside the model.
    [dict] is [gmap], [set] is [gset], [OrderedDict] is an association
    list.  Exceptions are values of [exn]; code that raises returns a
    [res]; code that mutates parser state threads that state. *)

From Stdlib Require Import ZArith String Ascii List Lia Bool.
From stdpp Require Import base option strings list gmap pretty.

Open Scope string_scope.
Open Scope list_scope.
Open Scope Z_scope.

(** ** Exceptions and results *)

(** The exceptions the modelled code can raise.  [Continue] and
    [ParseException] are the two classes of [perfile.py]; [KeyError],
    [IndexError], [TypeError] and [AttributeError] are Python built-ins
    raised by indexing, dictionary lookup and operators; [JinjaError]
    stands for the exceptions of the [jinja2] library, which the package
    calls and does not catch. *)
Inductive exn : Type :=
| Continue
| ParseException (msg : string)
| KeyError (key : string)
| IndexError
| TypeError
| AttributeError
| JinjaError (msg : string).

Inductive res (A : Type) : Type :=
| Ok (a : A)
| Raise (e : exn).
Arguments Ok {A} a.
Arguments Raise {A} e.

Definition rbind {A B} (m : res A) (f : A -> res B) : res B :=
  match m with
  | Ok a => f a
  | Raise e => Raise e
  end.

Notation "x <-r m ;; k" := (rbind m (fun x => k))
  (at level 100, m at next level, right associativity).

(** ** Python sequence primitives *)

Module py.

(** [lo <= n <= hi] *)
Definition between (lo hi n : nat) : bool := (lo <=? n)%nat && (n <=? hi)%nat.

(** [str.isspace] on a code point below 256: TAB, LF, VT, FF, CR, FS,
    GS, RS, US and SPACE, and the two spaces above the 7-bit range,
    NEXT LINE (U+0085) and NO-BREAK SPACE (U+00A0).  [str.strip],
    [str.lstrip], [str.split] and the whitespace class of [re] take the
    same characters for whitespace. *)
Definition isspace (c : ascii) : bool :=
  let n := nat_of_ascii c in
  between 9 13 n || between 28 32 n || (n =? 133)%nat || (n =? 160)%nat.

(** [str.isalpha] on a code point below 256: the letters of the 7-bit
    range, the ordinal indicators (U+00AA, U+00BA), MICRO SIGN (U+00B5)
    and the letters from U+00C0 on, which leaves out the multiplication
    sign (U+00D7) and the division sign (U+00F7). *)
Definition isalpha (c : ascii) : bool :=
  let n := nat_of_ascii c in
  between 65 90 n || between 97 122 n
  || (n =? 170)%nat || (n =? 181)%nat || (n =? 186)%nat
  || between 192 214 n || between 216 246 n || between 248 255 n.

(** [str.isalnum] on a code point below 256: what [str.isalpha],
    [str.isdecimal], [str.isdigit] or [str.isnumeric] accept, that is
    the letters, the digits, the superscript digits (U+00B2, U+00B3,
    U+00B9) and the vulgar fractions (U+00BC to U+00BE). *)
Definition isalnum (c : ascii) : bool :=
  let n := nat_of_ascii c in
  isalpha c || between 48 57 n
  || between 178 179 n || (n =? 185)%nat || between 188 190 n.

(** Normalisation of a slice bound against a sequence of length [n]:
    a negative bound counts from the end, and the result is clamped to
    [0..n]. *)
Definition clamp (n : nat) (i : Z) : nat :=
  let i' := if i <? 0 then i + Z.of_nat n else i in
  if i' <? 0 then 0%nat
  else if Z.of_nat n <? i' then n
  else Z.to_nat i'.

Definition bound_lo (n : nat) (lo : option Z) : nat :=
  match lo with Some i => clamp n i | None => 0%nat end.
Definition bound_hi (n : nat) (hi : option Z) : nat :=
  match hi with Some i => clamp n i | None => n end.

(** [l[lo:hi]] on a list. *)
Definition slice {A} (l : list A) (lo hi : option Z) : list A :=
  let n := length l in
  take (bound_hi n hi - bound_lo n lo) (drop (bound_lo n lo) l).

(** [l[i]] on a list; out of range raises [IndexError]. *)
Definition index {A} (l : list A) (i : Z) : res A :=
  let i' := if i <? 0 then i + Z.of_nat (length l) else i in
  if i' <? 0 then Raise IndexError
  else match l !! Z.to_nat i' with
       | Some x => Ok x
       | None => Raise IndexError
       end.

Fixpoint str_take (n : nat) (s : string) : string :=
  match n, s with
  | S n', String c s' => String c (str_take n' s')
  | _, _ => ""
  end.

Fixpoint str_drop (n : nat) (s : string) : string :=
  match n, s with
  | S n', String _ s' => str_drop n' s'
  | _, _ => s
  end.

(** [s[lo:hi]] on a string. *)
Definition str_slice (s : string) (lo hi : option Z) : string :=
  let n := String.length s in
  str_take (bound_hi n hi - bound_lo n lo) (str_drop (bound_lo n lo) s).

(** [s.startswith(p)] *)
Fixpoint startswith (s p : string) {struct p} : bool :=
  match p, s with
  | "", _ => true
  | String a p', String b s' => Ascii.eqb a b && startswith s' p'
  | String _ _, "" => false
  end.

(** First offset at which [sub] occurs in [s], if any. *)
Fixpoint find_offset (sub s : string) : option nat :=
  if startswith s sub then Some 0%nat
  else match s with
       | "" => None
       | String _ s' => S <$> find_offset sub s'
       end.

(** [s.find(sub, start)]: the lowest index at or after [start] where
    [sub] occurs, or [-1]; nothing is found from a [start] beyond the
    end of [s], not even the empty string. *)
Definition find (s sub : string) (start : nat) : Z :=
  if (String.length s <? start)%nat then -1
  else match find_offset sub (str_drop start s) with
       | Some i => Z.of_nat (start + i)
       | None => -1
       end.

(** [s.lstrip()], [s.rstrip()], [s.strip()] *)
Fixpoint lstrip (s : string) : string :=
  match s with
  | String c s' => if isspace c then lstrip s' else s
  | "" => ""
  end.

Fixpoint rstrip (s : string) : string :=
  match s with
  | String c s' =>
      match rstrip s' with
      | "" => if isspace c then "" else String c ""
      | r => String c r
      end
  | "" => ""
  end.

Definition strip (s : string) : string := rstrip (lstrip s).

(** The last character of a string, [s[-1]]. *)
Fixpoint last_char (s : string) : option ascii :=
  match s with
  | "" => None
  | String c "" => Some c
  | String _ s' => last_char s'
  end.

(** [s.endswith(p)] for a one-character [p]. *)
Definition endswith_char (s : string) (c : ascii) : bool :=
  match last_char s with
  | Some d => Ascii.eqb d c
  | None => false
  end.

(** [s.split()]: the maximal runs of non-whitespace characters.
    [word] is the run being accumulated, if one has been started. *)
Fixpoint split_go (word : option string) (s : string) : list string :=
  match s with
  | "" => match word with Some w => [w] | None => [] end
  | String c s' =>
      if isspace c then
        match word with
        | Some w => w :: split_go None s'
        | None => split_go None s'
        end
      else
        match word with
        | Some w => split_go (Some (w +:+ String c "")) s'
        | None => split_go (Some (String c "")) s'
        end
  end.

Definition split (s : string) : list string := split_go None s.

(** [os.path.basename(path)]: what follows the last slash.  [acc] is
    the component read so far. *)
Fixpoint basename_go (acc s : string) : string :=
  match s with
  | "" => acc
  | String c s' =>
      if Ascii.eqb c "/"%char then basename_go "" s'
      else basename_go (acc +:+ String c "") s'
  end.

Definition basename (path : string) : string := basename_go "" path.

(** [s.split(sep)] for a one-character separator; [acc] is the piece
    read so far. *)
Fixpoint split_on_go (sep : ascii) (acc s : string) : list string :=
  match s with
  | "" => [acc]
  | String c s' =>
      if Ascii.eqb c sep then acc :: split_on_go sep "" s'
      else split_on_go sep (acc +:+ String c "") s'
  end.

Definition split_on (sep : ascii) (s : string) : list string :=
  split_on_go sep "" s.

(** [c in s] for a character [c]. *)
Fixpoint contains_char (c : ascii) (s : string) : bool :=
  match s with
  | "" => false
  | String d s' => Ascii.eqb d c || contains_char c s'
  end.

(** [sep.join(parts)] *)
Fixpoint join (sep : string) (parts : list string) : string :=
  match parts with
  | [] => ""
  | [p] => p
  | p :: rest => p +:+ sep +:+ join sep rest
  end.

(** ['%d' % n] *)
Definition fmt_d (n : Z) : string := pretty n.

(** The double-quote character, and the one-character string of it. *)
Definition dquote_char : ascii := ascii_of_nat 34.
Definition dquote : string := String dquote_char EmptyString.

End py.

(** ** hypocrite/location.py *)

Module location.

Module CoordinateRange.

Record t : Type := mk { path : string; start : Z; end_ : Z }.

Definition __str__ (self : t) : string :=
  if start self =? end_ self then
    path self +:+ ":" +:+ py.fmt_d (start self)
  else
    path self +:+ ":" +:+ py.fmt_d (start self) +:+ "-"
      +:+ py.fmt_d (end_ self).

Definition __eq__ (self other : t) : bool :=
  String.eqb (path self) (path other) && (start self =? start other)
  && (end_ self =? end_ other).

End CoordinateRange.

Module Coordinate.

Record t : Type := mk { path : string; lno : Z }.

(** The right operand of [+], [-], [==] and [!=]: an integer, another
    coordinate, or an object of any other type. *)
Inductive operand : Type :=
| Int (n : Z)
| Coord (c : t)
| Other.

(** What [__add__] and [__sub__] return. *)
Inductive value : Type :=
| NewCoordinate (c : t)
| NewRange (r : CoordinateRange.t)
| NotImplemented.

Definition __str__ (self : t) : string :=
  path self +:+ ":" +:+ py.fmt_d (lno self).

Definition __eq__ (self : t) (other : operand) : bool :=
  match other with
  | Coord o => String.eqb (path self) (path o) && (lno self =? lno o)
  | _ => false
  end.

Definition __ne__ (self : t) (other : operand) : bool :=
  match other with
  | Coord o =>
      negb (String.eqb (path self) (path o)) || negb (lno self =? lno o)
  | _ => true
  end.

Definition __add__ (self : t) (other : operand) : value :=
  match other with
  | Int n => NewCoordinate (mk (path self) (lno self + n))
  | _ => NotImplemented
  end.

(** [self + n] for an integer [n]: the branch of [__add__] taken for
    [six.integer_types]. *)
Definition plus (self : t) (n : Z) : t := mk (path self) (lno self + n).

Definition __sub__ (self : t) (other : operand) : value :=
  match other with
  | Int n => NewCoordinate (mk (path self) (lno self - n))
  | Coord o =>
      if negb (String.eqb (path self) (path o)) then NotImplemented
      else
        let start := lno o in
        let end_ := lno self in
        let '(start, end_) :=
          if end_ <? start then (end_, start) else (start, end_) in
        NewRange (CoordinateRange.mk (path self) start end_)
  | Other => NotImplemented
  end.

(** The [line] property: a C preprocessor [#line] directive. *)
Definition line (self : t) : string :=
  "#line " +:+ py.fmt_d (lno self) +:+ " " +:+ py.dquote +:+ path self
    +:+ py.dquote.

End Coordinate.

(** [a - b] for two coordinates, as the interpreter evaluates it:
    [Coordinate] defines no reflected operator, so [NotImplemented] ends
    in [TypeError]. *)
Definition sub_coord (a b : Coordinate.t) : res CoordinateRange.t :=
  match Coordinate.__sub__ a (Coordinate.Coord b) with
  | Coordinate.NewRange r => Ok r
  | _ => Raise TypeError
  end.

End location.


(** ** hypocrite/linelist.py *)

Module linelist.

Import location.

(** [_Entry]: the binding of a coordinate to a line. *)
Record _Entry : Type := mk_Entry { coord : option Coordinate.t; text : string }.

(** [_Entry(coord + i if coord is not None else None, line)
     for i, line in enumerate(lines)] *)
Definition enumerate_entries (lines : list string)
    (coord : option Coordinate.t) : list _Entry :=
  imap (fun i line =>
          mk_Entry (match coord with
                    | Some c => Some (Coordinate.plus c (Z.of_nat i))
                    | None => None
                    end) line) lines.

(** One call of [print(..., file=stream)].  The stream receives
    [content]; the constructor records which of the two kinds of [print]
    of [LineList.output] wrote it. *)
Inductive printed : Type :=
| Directive (content : string)
| Text (content : string).

Definition content (p : printed) : string :=
  match p with Directive s => s | Text s => s end.

Definition is_directive (p : printed) : bool :=
  match p with Directive _ => true | Text _ => false end.

Module LineList.

Record t : Type := mk { _entries : list _Entry }.

(** The right operand of [+] and [+=]. *)
Inductive operand : Type :=
| OfLineList (other : t)
| OfList (other : list string)
| OfOther.

Definition __init__ (lines : option (list string))
    (coord : option Coordinate.t) : t :=
  mk (enumerate_entries (default [] lines) coord).

Definition __len__ (self : t) : Z := Z.of_nat (length (_entries self)).

(** [self[idx]] for an integer index. *)
Definition __getitem__ (self : t) (idx : Z) : res string :=
  e <-r py.index (_entries self) idx ;; Ok (text e).

(** [self[lo:hi]] for a slice. *)
Definition __getitem__slice (self : t) (lo hi : option Z) : list string :=
  text <$> py.slice (_entries self) lo hi.

Definition __iter__ (self : t) : list string := text <$> _entries self.

Definition append (self : t) (line : string) (coord : option Coordinate.t) : t :=
  mk (_entries self ++ [mk_Entry coord line]).

Definition extend (self : t) (lines : list string)
    (coord : option Coordinate.t) : t :=
  mk (_entries self ++ enumerate_entries lines coord).

(** [self + other]: a new instance, or [None] for [NotImplemented]. *)
Definition __add__ (self : t) (other : operand) : option t :=
  match other with
  | OfLineList o => Some (mk (_entries self ++ _entries o))
  | OfList l => Some (extend (mk (_entries self)) l None)
  | OfOther => None
  end.

(** [self += other]: the receiver after the update, or [None] for
    [NotImplemented]. *)
Definition __iadd__ (self : t) (other : operand) : option t :=
  match other with
  | OfLineList o => Some (mk (_entries self ++ _entries o))
  | OfList l => Some (extend self l None)
  | OfOther => None
  end.

Definition iter_coord (self : t) : list _Entry := _entries self.

(** The loop of [output]: [line] is the number of the next line of the
    stream, [last] the coordinate of the previous entry. *)
Fixpoint output_loop (fname : string) (line : Z) (last : option Coordinate.t)
    (entries : list _Entry) : list printed :=
  match entries with
  | [] => []
  | mk_Entry coord text :: rest =>
      match coord with
      | None =>
          match last with
          | Some _ =>
              let line := line + 1 in
              Directive ("#line " +:+ py.fmt_d line +:+ " " +:+ py.dquote
                           +:+ fname +:+ py.dquote)
              :: Text text :: output_loop fname (line + 1) coord rest
          | None => Text text :: output_loop fname (line + 1) coord rest
          end
      | Some c =>
          if match last with
             | None => true
             | Some l => Coordinate.__ne__ (Coordinate.plus l 1) (Coordinate.Coord c)
             end
          then
            Directive (Coordinate.line c)
            :: Text text :: output_loop fname (line + 1 + 1) coord rest
          else Text text :: output_loop fname (line + 1) coord rest
      end
  end.

(** [output(stream, path)]: the calls of [print] in order.  [stream_name]
    is [stream.name] when the stream has that attribute. *)
Definition output (self : t) (stream_name : option string)
    (path : option string) : res (list printed) :=
  path <-r match path with
           | Some p => if String.eqb p "" then
                         match stream_name with
                         | Some n => Ok n
                         | None => Raise AttributeError
                         end
                       else Ok p
           | None => match stream_name with
                     | Some n => Ok n
                     | None => Raise AttributeError
                     end
           end ;;
  let fname := py.basename path in
  Ok (output_loop fname 1 None (_entries self)).

End LineList.

(** What the stream holds after the given calls of [print]. *)
Definition written (ps : list printed) : string :=
  foldr (fun p acc => content p +:+ String (ascii_of_nat 10) acc) "" ps.

End linelist.

(** ** Ordered dictionaries

    [collections.OrderedDict], and any [dict] whose iteration order the
    code depends on: an association list in insertion order.  Assigning
    to a key that is present keeps its position. *)

Module odict.

Definition t (V : Type) : Type := list (string * V).

Fixpoint get {V} (d : t V) (k : string) : option V :=
  match d with
  | [] => None
  | (k', v) :: rest => if String.eqb k' k then Some v else get rest k
  end.

(** [d[k] = v] *)
Fixpoint set {V} (d : t V) (k : string) (v : V) : t V :=
  match d with
  | [] => [(k, v)]
  | (k', v') :: rest =>
      if String.eqb k' k then (k, v) :: rest else (k', v') :: set rest k v
  end.

Definition values {V} (d : t V) : list V := snd <$> d.

End odict.

(** ** hypocrite/perfile.py *)

Module perfile.

Import location linelist.

(** The known token types, ['word'], ['char'] and ['str']. *)
Inductive tok_type : Type := TOK_WORD | TOK_CHAR | TOK_STR.

(** [Token = collections.namedtuple('Token', ['type_', 'value'])] *)
Record Token : Type := mk_Token { type_ : tok_type; value : string }.

#[export] Instance tok_type_eq_dec : EqDecision tok_type.
Proof. solve_decision. Defined.

#[export] Instance Token_eq_dec : EqDecision Token.
Proof. solve_decision. Defined.

#[export] Instance tok_type_countable : Countable tok_type.
Proof.
  refine (inj_countable'
            (fun t => match t with TOK_WORD => 0%nat | TOK_CHAR => 1%nat
                              | TOK_STR => 2%nat end)
            (fun n => match n with 0%nat => TOK_WORD | 1%nat => TOK_CHAR
                              | _ => TOK_STR end) _).
  intros []; reflexivity.
Defined.

#[export] Instance Token_countable : Countable Token.
Proof.
  refine (inj_countable' (fun t => (type_ t, value t))
            (fun p => mk_Token (fst p) (snd p)) _).
  intros []; reflexivity.
Defined.

(** [tok == (type, value)] *)
Definition tok_is (tok : Token) (ty : tok_type) (v : string) : bool :=
  bool_decide (tok = mk_Token ty v).

(** The generator of [split_toks] run with [include_delim=True]:
    [stack] is the stack of tokens seen since the last delimiter. *)
Fixpoint split_loop {A} `{Countable A} (delims : gset A) (stack toks : list A)
    : list (list A * option A) :=
  match toks with
  | [] => [(stack, None)]
  | current :: rest =>
      if decide (current ∈ delims) then
        (stack, Some current) :: split_loop delims [] rest
      else split_loop delims (stack ++ [current]) rest
  end.

(** [split_toks(toks, delims, True)] *)
Definition split_toks_delim {A} `{Countable A} (toks : list A)
    (delims : gset A) : list (list A * option A) :=
  split_loop delims [] toks.

(** [split_toks(toks, delims)] *)
Definition split_toks {A} `{Countable A} (toks : list A) (delims : gset A)
    : list (list A) :=
  fst <$> split_toks_delim toks delims.

(** *** The tokenizer *)

(** The [state] variable of [_tokenize]: [None], [TOK_STR] or
    [TOK_WORD]. *)
Inductive scan_state : Type := Idle | InStr | InWord.

Definition char_str (c : ascii) : string := String c "".

(** One turn of the loop of [_tokenize] on the character [c]: the
    tokens yielded and the next [state] and [buf]. *)
Definition tokenize_step (state : scan_state) (buf : string) (c : ascii)
    : list Token * scan_state * string :=
  match state with
  | Idle =>
      if py.isspace c then ([], Idle, buf)
      else if Ascii.eqb c py.dquote_char then ([], InStr, "")
      else if Ascii.eqb c "_"%char || py.isalpha c then ([], InWord, char_str c)
      else ([mk_Token TOK_CHAR (char_str c)], Idle, buf)
  | InStr =>
      if Ascii.eqb c py.dquote_char then ([mk_Token TOK_STR buf], Idle, buf)
      else ([], InStr, buf +:+ char_str c)
  | InWord =>
      if py.isspace c then ([mk_Token TOK_WORD buf], Idle, buf)
      else if Ascii.eqb c "_"%char || py.isalnum c then
        ([], InWord, buf +:+ char_str c)
      else if Ascii.eqb c py.dquote_char then
        ([mk_Token TOK_WORD buf], InStr, "")
      else ([mk_Token TOK_WORD buf; mk_Token TOK_CHAR (char_str c)], Idle, buf)
  end.

Fixpoint tokenize_loop (state : scan_state) (buf : string) (text : string)
    : list Token * scan_state * string :=
  match text with
  | "" => ([], state, buf)
  | String c rest =>
      let '(ys, state', buf') := tokenize_step state buf c in
      let '(zs, state'', buf'') := tokenize_loop state' buf' rest in
      (ys ++ zs, state'', buf'')
  end.

(** [list(PerFileParser._tokenize(text, coord))] *)
Definition _tokenize (text : string) (coord : Coordinate.t)
    : res (list Token) :=
  let '(toks, state, buf) := tokenize_loop Idle "" text in
  match state with
  | InStr =>
      Raise (ParseException ("Unclosed string encountered at "
                               +:+ Coordinate.__str__ coord))
  | InWord => Ok (toks ++ [mk_Token TOK_WORD buf])
  | Idle => Ok toks
  end.

(** *** Directives *)

(** The [init] argument of a directive: the sentinel [_unset], a value
    used verbatim, or a callable of no argument. *)
Inductive init_value (V : Type) : Type :=
| Unset
| Static (v : V)
| Callable (f : unit -> V).
Arguments Unset {V}.
Arguments Static {V} v.
Arguments Callable {V} f.

(** The values dictionary of a parse: a [dict] whose keys are strings
    or [None], holding objects of type [V]. *)
Abbreviation values_dict V := (gmap (option string) V) (only parsing).

Section PerFileParser.

(** [V] is the type of the objects held in the values dictionary and
    [D] the type of the deferred callables a directive can return. *)
Context {V D : Type}.

(** What a directive implementation or a deferred callable does: it
    raises, or it returns [None] or another callable, having updated the
    values dictionary. *)
Definition outcome : Type := res (option D * values_dict V).

Record Directive : Type := mk_Directive {
  directive : string;
  dvalue : option string;
  init : init_value V;
  impl : values_dict V -> Coordinate.t -> list Token -> outcome
}.

(** [Directive.__call__] *)
Definition Directive__call__ (self : Directive) (values : values_dict V)
    (start_coord : Coordinate.t) (toks : list Token) : outcome :=
  impl self values start_coord toks.

(** [Directive.initial]: [self.init() if callable(self.init) else
    self.init].  The sentinel is no object of the dictionary: [None]. *)
Definition initial (self : Directive) : option V :=
  match init self with
  | Callable f => Some (f tt)
  | Static v => Some v
  | Unset => None
  end.

(** The class-level [DIRECTIVES] dictionary, in registration order. *)
Definition registry : Type := odict.t Directive.

(** The decorator [PerFileParser.directive(init, name, key)] applied to
    an implementation whose [__name__] is [func_name].  [key] is [None]
    when left [_unset]. *)
Definition register (DIRECTIVES : registry) (init : init_value V)
    (name : option string) (key : option (option string))
    (func_name : string)
    (func : values_dict V -> Coordinate.t -> list Token -> outcome)
    : registry :=
  let directive :=
    match name with
    | Some n => if String.eqb n "" then func_name else n
    | None => func_name
    end in
  let value := match key with Some k => k | None => Some directive end in
  odict.set DIRECTIVES directive (mk_Directive directive value init func).

(** [PerFileParser._values] *)
Definition _values (DIRECTIVES : registry) : values_dict V :=
  foldl (fun acc d =>
           match init d with
           | Unset => acc
           | _ => match initial d with
                  | Some v => <[dvalue d := v]> acc
                  | None => acc
                  end
           end) ∅ (odict.values DIRECTIVES).

(** *** The objects of the initial values

    A call [self.init()] creates a new object, where an [init] that is
    no callable is one object, the same in every dictionary.  The heap
    is the list of the objects created so far: the address of an object
    is its position, and an object that is created takes the next
    address.  [static] is the address of the object [self.init] of a
    directive whose [init] is no callable. *)
Definition heap : Type := list V.

(** [Directive.initial], on objects: the address of the initial value,
    and the heap once the method has returned. *)
Definition initial_object (self : Directive) (static : nat) (h : heap)
    : option (nat * heap) :=
  match init self with
  | Callable f => Some (length h, h ++ [f tt])
  | Static _ => Some (static, h)
  | Unset => None
  end.

(** [PerFileParser._values], on objects: the dictionary binds the keys
    to addresses.  [static] gives the address of the [init] of the
    directive of each name. *)
Definition _values_objects (DIRECTIVES : registry) (static : string -> nat)
    (h : heap) : gmap (option string) nat * heap :=
  foldl (fun (acc : gmap (option string) nat * heap) d =>
           match init d with
           | Unset => acc
           | _ => match initial_object d (static (directive d)) acc.2 with
                  | Some (a, h') => (<[dvalue d := a]> acc.1, h')
                  | None => acc
                  end
           end) (∅, h) (odict.values DIRECTIVES).

(** The attributes of a [PerFileParser] instance. *)
Record parser : Type := mk_parser {
  _deferred : option D;
  _buf : option LineList.t;
  _comment_pfx : option string;
  _continued : option string;
  _start_coord : option Coordinate.t;
  _lines : Z
}.

(** [PerFileParser.__init__] *)
Definition __init__ : parser := mk_parser None None None None None 0.

Definition set_deferred (v : option D) (s : parser) : parser :=
  mk_parser v (_buf s) (_comment_pfx s) (_continued s) (_start_coord s)
    (_lines s).
Definition set_buf (v : option LineList.t) (s : parser) : parser :=
  mk_parser (_deferred s) v (_comment_pfx s) (_continued s) (_start_coord s)
    (_lines s).
Definition set_comment_pfx (v : option string) (s : parser) : parser :=
  mk_parser (_deferred s) (_buf s) v (_continued s) (_start_coord s)
    (_lines s).
Definition set_continued (v : option string) (s : parser) : parser :=
  mk_parser (_deferred s) (_buf s) (_comment_pfx s) v (_start_coord s)
    (_lines s).
Definition set_start_coord (v : option Coordinate.t) (s : parser) : parser :=
  mk_parser (_deferred s) (_buf s) (_comment_pfx s) (_continued s) v
    (_lines s).
Definition set_lines (v : Z) (s : parser) : parser :=
  mk_parser (_deferred s) (_buf s) (_comment_pfx s) (_continued s)
    (_start_coord s) v.

(** A method of the parser: it reads and updates the attributes of
    [self], and returns or raises.  The attributes written before a
    [raise] stay written. *)
Definition M (A : Type) : Type := parser -> res A * parser.

Definition M_ret {A} (a : A) : M A := fun s => (Ok a, s).
Definition raise {A} (e : exn) : M A := fun s => (Raise e, s).
Definition M_bind {A B} (m : M A) (f : A -> M B) : M B :=
  fun s => match m s with
           | (Ok a, s') => f a s'
           | (Raise e, s') => (Raise e, s')
           end.
Definition gets {A} (f : parser -> A) : M A := fun s => (Ok (f s), s).
Definition modify (f : parser -> parser) : M unit := fun s => (Ok tt, f s).
Definition lift {A} (r : res A) : M A := fun s => (r, s).

(** [if self._start_coord is None: self._start_coord = coord] *)
Definition note_start_coord (coord : Coordinate.t) : M unit :=
  modify (fun s => match _start_coord s with
                   | None => set_start_coord (Some coord) s
                   | Some _ => s
                   end).

End PerFileParser.

Arguments Directive : clear implicits.
Arguments registry : clear implicits.
Arguments parser : clear implicits.
Arguments M : clear implicits.
Arguments outcome : clear implicits.

Notation "x <- m ;; k" := (M_bind m (fun x => k))
  (at level 100, m at next level, right associativity).
Notation "m ;;; k" := (M_bind m (fun _ => k))
  (at level 100, right associativity).

(** *** Line assembly, dispatch and the parser *)

Section Parsing.

Context {V D : Type}.

(** The [DIRECTIVES] of the parser class. *)
Variable DIRECTIVES : registry V D.

(** Calling a deferred callable: [deferred(end_coord, buf, toks)], with
    [toks] being [None] at the end of the file.  The values dictionary
    the callable keeps a reference to is passed along. *)
Variable call : D -> values_dict V -> Coordinate.t -> LineList.t ->
                option (list Token) -> outcome V D.

Definition newline : ascii := ascii_of_nat 10.

(** The [while True] loop of [_parse_directive] that strips the comments
    of a line.  Every turn that loops around shortens the line, so
    [fuel] above the length of the line is never used up. *)
Fixpoint strip_comments (fuel : nat) (coord : Coordinate.t) (line : string)
    : M D string :=
  match fuel with
  | O => M_ret line
  | S fuel' =>
      let pos := filter (fun x => 0 <= x)
                   [py.find line "/*" 0; py.find line "//" 0] in
      match pos with
      | [] => M_ret line
      | p :: ps =>
          let comment := foldl Z.min p ps in
          if String.eqb (py.str_slice line (Some comment) (Some (comment + 2)))
               "//"
          then M_ret (py.str_slice line None (Some comment))
          else
            let end_ := py.find line "*/" (Z.to_nat (comment + 2)) in
            if end_ <? 0 then
              modify (set_comment_pfx
                        (Some (py.str_slice line None (Some comment)))) ;;;
              note_start_coord coord ;;;
              raise Continue
            else
              strip_comments fuel' coord
                (py.str_slice line None (Some comment) +:+ " "
                   +:+ py.str_slice line (Some (end_ + 2)) None)
      end
  end.

(** [PerFileParser._parse_directive] *)
Definition _parse_directive (coord : Coordinate.t) (line : string)
    : M D (Coordinate.t * list Token) :=
  (* Handle any continuation *)
  continued <- gets _continued ;;
  line <- match continued with
          | Some c => modify (set_continued None) ;;; M_ret (c +:+ " " +:+ line)
          | None => M_ret line
          end ;;
  (* Handle any hanging comment *)
  comment_pfx <- gets _comment_pfx ;;
  line <- match comment_pfx with
          | Some pfx =>
              let end_ := py.find line "*/" 0 in
              if end_ <? 0 then raise Continue
              else
                modify (set_comment_pfx None) ;;;
                M_ret (pfx +:+ " " +:+ py.str_slice line (Some (end_ + 2)) None)
          | None => M_ret line
          end ;;
  (* Strip out any other comments on the line *)
  line <- strip_comments (S (String.length line)) coord line ;;
  (* Strip off remaining whitespace and skip empty lines *)
  let line := py.strip line in
  match line with
  | "" => raise Continue
  | String first rest =>
      (* If it has a continuation, process that *)
      if bool_decide (py.last_char line = Some "\"%char) then
        modify (set_continued (Some (py.str_slice line None (Some (-1))))) ;;;
        note_start_coord coord ;;;
        raise Continue
      else
        (* Now we have a line; pick the correct line number *)
        start_coord <- gets _start_coord ;;
        coord <- match start_coord with
                 | Some c => modify (set_start_coord None) ;;; M_ret c
                 | None => M_ret coord
                 end ;;
        (* It's supposed to be a directive, so check that it is *)
        if negb (Ascii.eqb first "%"%char) then
          raise (ParseException ("Invalid directive at "
                                   +:+ Coordinate.__str__ coord))
        else
          toks <- lift (_tokenize rest coord) ;;
          M_ret (coord, toks)
  end.

(** [self._deferred = k; self._buf = LineList() if self._deferred else
    None] *)
Definition set_deferred_and_buf (k : option D) : M D unit :=
  modify (set_deferred k) ;;;
  modify (set_buf (match k with
                   | Some _ => Some (LineList.__init__ None None)
                   | None => None
                   end)).

Definition invalid_directive {A} (dir_coord : Coordinate.t)
    : M D A :=
  raise (ParseException ("Invalid directive at "
                           +:+ Coordinate.__str__ dir_coord)).

(** [PerFileParser._parse_line].  The values dictionary is updated in
    place by the directives; its state after the call is returned.
    [self._buf] is a [LineList] whenever [self._deferred] is set; a
    parser whose [_buf] is [None] at that point fails on the attribute
    access. *)
Definition _parse_line (coord : Coordinate.t) (line : string)
    (values : values_dict V) : M D (values_dict V) :=
  (* Keep track of how many lines have been processed *)
  modify (fun s => set_lines (_lines s + 1) s) ;;;
  deferred <- gets _deferred ;;
  comment_pfx <- gets _comment_pfx ;;
  continued <- gets _continued ;;
  match deferred with
  | None =>
      (* Parse out a directive *)
      p <- _parse_directive coord line ;;
      let '(dir_coord, tokens) := p in
      (* Is it a valid directive? *)
      match tokens with
      | [] => invalid_directive dir_coord
      | tok :: rest =>
          if negb (bool_decide (type_ tok = TOK_WORD)) then
            invalid_directive dir_coord
          else
            match odict.get DIRECTIVES (value tok) with
            | None => invalid_directive dir_coord
            | Some d =>
                (* Process the directive *)
                r <- lift (Directive__call__ d values dir_coord rest) ;;
                let '(k, values) := r in
                set_deferred_and_buf k ;;;
                M_ret values
            end
      end
  | Some deferred =>
      if bool_decide (is_Some comment_pfx) || bool_decide (is_Some continued)
         || py.startswith (py.lstrip line) "%"
      then
        (* Parse out a directive *)
        p <- _parse_directive coord line ;;
        let '(dir_coord, tokens) := p in
        (* Is it a close directive? *)
        match tokens with
        | [] => invalid_directive dir_coord
        | tok :: rest =>
            if negb (tok_is tok TOK_CHAR "}") then invalid_directive dir_coord
            else
              (* Run the deferred callable *)
              buf <- gets _buf ;;
              match buf with
              | None => raise AttributeError
              | Some buf =>
                  r <- lift (call deferred values dir_coord buf (Some rest)) ;;
                  let '(k, values) := r in
                  set_deferred_and_buf k ;;;
                  M_ret values
              end
        end
      else
        (* Just accumulate another line *)
        buf <- gets _buf ;;
        match buf with
        | None => raise AttributeError
        | Some buf =>
            modify (set_buf
                      (Some (LineList.append buf
                               (if py.endswith_char line newline
                                then py.str_slice line None (Some (-1))
                                else line)
                               (Some coord)))) ;;;
            M_ret values
        end
  end.

(** [try: m  except Continue: continue] *)
Definition except_Continue {A} (m : M D A) (otherwise : A)
    : M D A :=
  fun s => match m s with
           | (Raise Continue, s') => (Ok otherwise, s')
           | r => r
           end.

(** The [for lno, line in enumerate(stream)] loop of [parse]; [lno] is
    the index of the first line of [stream]. *)
Fixpoint parse_loop (path : string) (lno : Z) (stream : list string)
    (values : values_dict V) : M D (values_dict V) :=
  match stream with
  | [] => M_ret values
  | line :: rest =>
      values <- except_Continue
                  (_parse_line (Coordinate.mk path (lno + 1)) line values)
                  values ;;
      parse_loop path (lno + 1) rest values
  end.

(** ['... %s' % self._start_coord] *)
Definition str_of_start_coord (c : option Coordinate.t) : string :=
  match c with
  | Some c => Coordinate.__str__ c
  | None => "None"
  end.

(** [PerFileParser.parse(stream, path)].  [stream] is the sequence of
    lines the stream iterates over, each with its line terminator, and
    [stream_name] is [stream.name] when the stream has that attribute. *)
Definition parse (stream : list string) (stream_name : option string)
    (path : option string) : M D (values_dict V) :=
  (* Figure out the path *)
  path <- lift (match path with
                | Some p => Ok p
                | None => match stream_name with
                          | Some n => Ok n
                          | None => Raise AttributeError
                          end
                end) ;;
  (* Start with the initialized values *)
  let values := _values DIRECTIVES in
  (* Parse the stream *)
  values <- parse_loop path 0 stream values ;;
  (* Was there a line continuation? *)
  continued <- gets _continued ;;
  start_coord <- gets _start_coord ;;
  if bool_decide (is_Some continued) then
    raise (ParseException
             ("Trailing directive continuation at end of file; starts at "
                +:+ str_of_start_coord start_coord))
  else
    (* Were we in the middle of a comment? *)
    comment_pfx <- gets _comment_pfx ;;
    if bool_decide (is_Some comment_pfx) then
      raise (ParseException
               ("Unclosed comment at end of file; starts at "
                  +:+ str_of_start_coord start_coord))
    else
      (* How about the middle of a directive? *)
      deferred <- gets _deferred ;;
      match deferred with
      | Some deferred =>
          (* Give the deferred routine a chance to complain *)
          lines <- gets _lines ;;
          buf <- gets _buf ;;
          match buf with
          | None => raise AttributeError
          | Some buf =>
              lift (call deferred values (Coordinate.mk path lines) buf None) ;;;
              (* But complain anyway if it doesn't *)
              raise (ParseException "Unclosed directive at end of file")
          end
      | None => M_ret values
      end.

End Parsing.

End perfile.

(** ** hypocrite/hypofile.py *)

Module hypofile.

Import location linelist perfile.

(** [HypoMockArg = namedtuple('HypoMockArg', ['type_', 'name'])] *)
Record HypoMockArg : Type := mk_HypoMockArg { arg_type_ : string; arg_name : string }.

(** [HypoFixtureInjection = namedtuple(..., ['fixture', 'inject'])] *)
Record HypoFixtureInjection : Type :=
  mk_HypoFixtureInjection { fixture : string; inject : bool }.

(** [_extract_type(toks, delims)] *)
Definition _extract_type (toks : list Token) (delims : gset Token)
    : list (list Token * option Token * option Token) :=
  (fun p : list Token * option Token =>
     let '(stack, delim) := p in
     (py.slice stack None (Some (-1)), last stack, delim))
  <$> split_toks_delim toks delims.

(** [type_[-1] += v] *)
Fixpoint add_to_last (type_ : list string) (v : string) : res (list string) :=
  match type_ with
  | [] => Raise IndexError
  | [s] => Ok [s +:+ v]
  | s :: rest => rest' <-r add_to_last rest v ;; Ok (s :: rest')
  end.

(** The loop of [_make_type]. *)
Fixpoint make_type_loop (directive : string) (coord : Coordinate.t)
    (type_ : list string) (last_tok : option Token) (toks : list Token)
    : res (list string) :=
  match toks with
  | [] => Ok type_
  | tok :: rest =>
      (* Watch out for bogus token types *)
      if negb (bool_decide (perfile.type_ tok = TOK_WORD))
         && negb (tok_is tok TOK_CHAR "*")
      then
        Raise (ParseException ("Invalid %" +:+ directive +:+ " directive at "
                                 +:+ Coordinate.__str__ coord))
      else
        type_ <-r
          (if bool_decide (is_Some last_tok)
              && bool_decide (perfile.type_ tok = TOK_CHAR)
              && bool_decide (perfile.type_ <$> last_tok = Some TOK_CHAR)
           then
             (* Avoid spaces between subsequent '*' tokens *)
             add_to_last type_ (value tok)
           else Ok (type_ ++ [value tok])) ;;
        make_type_loop directive coord type_ (Some tok) rest
  end.

(** [_make_type(toks, directive, coord)] *)
Definition _make_type (toks : list Token) (directive : string)
    (coord : Coordinate.t) : res string :=
  type_ <-r make_type_loop directive coord [] None toks ;;
  Ok (py.join " " type_).

Module Preamble.
Record t : Type := mk { coord_range : CoordinateRange.t; code : LineList.t }.
End Preamble.

Module HypocriteTest.
Record t : Type := mk {
  coord_range : CoordinateRange.t;
  name : string;
  code : LineList.t;
  fixtures : list HypoFixtureInjection
}.
End HypocriteTest.

Module HypocriteMock.
Record t : Type := mk {
  coord_range : CoordinateRange.t;
  name : string;
  return_type : string;
  args : list HypoMockArg
}.
End HypocriteMock.

Module Fixture.
Record t : Type := mk {
  coord_range : CoordinateRange.t;
  name : string;
  return_type : option string;
  code : LineList.t;
  teardown : option LineList.t
}.
End Fixture.

(** The objects the directives store. *)
Inductive object : Type :=
| OPreamble (p : Preamble.t)
| OTest (t : HypocriteTest.t)
| OMock (m : HypocriteMock.t)
| OFixture (f : Fixture.t).

(** What the values dictionary of the parser holds under a key: [None],
    a string, a list, a [dict] or an [OrderedDict]. *)
Inductive dict_value : Type :=
| VNone
| VStr (s : string)
| VList (l : list object)
| VDict (d : gmap string object)
| VOrderedDict (d : odict.t object).

(** [values[key].append(x)] *)
Definition values_append (values : values_dict dict_value) (key : string)
    (x : object) : res (values_dict dict_value) :=
  match values !! Some key with
  | None => Raise (KeyError key)
  | Some (VList l) => Ok (<[Some key := VList (l ++ [x])]> values)
  | Some _ => Raise AttributeError
  end.

(** [values[key][name] = x] *)
Definition values_setitem (values : values_dict dict_value) (key name : string)
    (x : object) : res (values_dict dict_value) :=
  match values !! Some key with
  | None => Raise (KeyError key)
  | Some (VDict d) => Ok (<[Some key := VDict (<[name := x]> d)]> values)
  | Some (VOrderedDict d) =>
      Ok (<[Some key := VOrderedDict (odict.set d name x)]> values)
  | Some _ => Raise TypeError
  end.

(** The state of a [FixtureDirective] instance. *)
Module FixtureDirective.
Record t : Type := mk {
  name : string;
  type_ : option string;
  start_coord : Coordinate.t;
  block_start : Coordinate.t;
  code : option LineList.t
}.
End FixtureDirective.

(** The callables the multi-line directives leave with the parser: an
    instance of a directive class (called through [__call__]) or the
    bound method [FixtureDirective.teardown]. *)
Inductive deferred : Type :=
| PreambleDirective (start_coord : Coordinate.t)
| TestDirective (name : string) (fixtures : list HypoFixtureInjection)
    (start_coord : Coordinate.t)
| FixtureDirective__call__ (self : FixtureDirective.t)
| FixtureDirective_teardown (self : FixtureDirective.t).

Definition parse_error {A} (pre : string) (coord : Coordinate.t) : res A :=
  Raise (ParseException (pre +:+ Coordinate.__str__ coord)).

Definition tok (ty : tok_type) (v : string) : Token := mk_Token ty v.

(** [target_directive]: the [%target] directive. *)
Definition target_directive (values : values_dict dict_value)
    (start_coord : Coordinate.t) (toks : list Token) : outcome dict_value deferred :=
  match toks with
  | [t] =>
      if negb (bool_decide (perfile.type_ t = TOK_STR))
         || String.eqb (value t) ""
      then parse_error "Invalid %file directive at " start_coord
      else Ok (None, <[Some "target" := VStr (value t)]> values)
  | _ => parse_error "Invalid %file directive at " start_coord
  end.

(** [PreambleDirective.__init__] *)
Definition PreambleDirective__init__ (values : values_dict dict_value)
    (start_coord : Coordinate.t) (toks : list Token) : outcome dict_value deferred :=
  match toks with
  | [t] =>
      if negb (tok_is t TOK_CHAR "{") then
        parse_error "Invalid %preamble directive at " start_coord
      else Ok (Some (PreambleDirective start_coord), values)
  | _ => parse_error "Invalid %preamble directive at " start_coord
  end.

(** [PreambleDirective.__call__] *)
Definition PreambleDirective__call__ (start_coord : Coordinate.t)
    (values : values_dict dict_value) (end_coord : Coordinate.t) (buf : LineList.t)
    (toks : option (list Token)) : outcome dict_value deferred :=
  match toks with
  | None =>
      parse_error "Unclosed %preamble directive at end of file; starts at "
        start_coord
  | Some (_ :: _) =>
      parse_error "Invalid end of %preamble directive at " end_coord
  | Some [] =>
      range <-r sub_coord start_coord end_coord ;;
      values <-r values_append values "preamble"
                   (OPreamble (Preamble.mk range buf)) ;;
      Ok (None, values)
  end.

(** Delimiters for type extraction for mocks. *)
Definition _mock_type_delims : gset Token :=
  {[ tok TOK_CHAR "("; tok TOK_CHAR ","; tok TOK_CHAR ")" ]}.

(** The [for type_, name, delim in type_iter] loop of [mock]. *)
Fixpoint mock_args_loop (start_coord : Coordinate.t) (end_expected : bool)
    (args : list HypoMockArg)
    (type_iter : list (list Token * option Token * option Token))
    : res (list HypoMockArg) :=
  match type_iter with
  | [] => Ok args
  | (type_, name, delim) :: rest =>
      (* Were we expecting the end of the directive? *)
      if end_expected then
        if negb (bool_decide (type_ = [])) || bool_decide (is_Some name)
           || bool_decide (is_Some delim)
        then parse_error "Unexpected tokens after %mock directive at "
               start_coord
        else mock_args_loop start_coord end_expected args rest
      (* OK, was it the end of the directive? *)
      else if bool_decide (delim = None) then
        parse_error "Premature end of arguments in %mock directive at "
          start_coord
      else
        (* Found the closing parenthesis *)
        let end_expected :=
          if bool_decide (delim = Some (tok TOK_CHAR ")")) then true
          else end_expected in
        (* Handles the case of 'void foo()' and 'void foo(void)' *)
        if bool_decide (delim = Some (tok TOK_CHAR ")"))
           && bool_decide (args = [])
           && ((bool_decide (type_ = []) && bool_decide (name = None))
               || (bool_decide (type_ = [])
                   && bool_decide (name = Some (tok TOK_WORD "void"))))
        then mock_args_loop start_coord end_expected args rest
        else
          (* Sanity-check the argument *)
          match type_, name with
          | [], _ | _, None =>
              parse_error "Invalid %mock directive at " start_coord
          | _ :: _, Some name =>
              if negb (bool_decide (perfile.type_ name = TOK_WORD))
                 || String.eqb (value name) ""
                 || bool_decide (delim = Some (tok TOK_CHAR "("))
              then parse_error "Invalid %mock directive at " start_coord
              else
                (* Save the argument *)
                ty <-r _make_type type_ "mock" start_coord ;;
                mock_args_loop start_coord end_expected
                  (args ++ [mk_HypoMockArg ty (value name)]) rest
          end
  end.

(** [mock]: the [%mock] directive. *)
Definition mock (values : values_dict dict_value) (start_coord : Coordinate.t)
    (toks : list Token) : outcome dict_value deferred :=
  (* Initialize the type iterator *)
  let type_iter := _extract_type toks _mock_type_delims in
  (* First, have to collect the return type and function name *)
  match type_iter with
  | [] => parse_error "Invalid %mock directive at " start_coord
  | (type_, name, delim) :: type_iter =>
      (* Make sure the tokens make sense *)
      match type_, name with
      | [], _ => parse_error "Invalid %mock directive at " start_coord
      | _ :: _, None => Raise AttributeError
      | _ :: _, Some name =>
          if negb (bool_decide (perfile.type_ name = TOK_WORD))
             || String.eqb (value name) ""
             || negb (bool_decide (delim = Some (tok TOK_CHAR "(")))
          then parse_error "Invalid %mock directive at " start_coord
          else
            (* Initialize the mock information *)
            let func_name := value name in
            return_type <-r _make_type type_ "mock" start_coord ;;
            (* Extract argument information *)
            args <-r mock_args_loop start_coord false [] type_iter ;;
            (* Construct and save the mock *)
            range <-r sub_coord start_coord start_coord ;;
            values <-r values_setitem values "mocks" func_name
                         (OMock (HypocriteMock.mk range func_name
                                   return_type args)) ;;
            Ok (None, values)
      end
  end.

(** The [for fix_toks in split_toks(...)] loop of
    [TestDirective.__init__]. *)
Fixpoint test_fixtures_loop (start_coord : Coordinate.t)
    (fixtures : list HypoFixtureInjection) (stacks : list (list Token))
    : res (list HypoFixtureInjection) :=
  match stacks with
  | [] => Ok fixtures
  | fix_toks :: rest =>
      (* Sanity-check the tokens *)
      if bool_decide (length fix_toks < 1)%nat
         || bool_decide (2 < length fix_toks)%nat
      then
        parse_error "Invalid fixture specification in %test directive at "
          start_coord
      else
        first <-r py.index fix_toks 0 ;;
        (* Determine if it's an injectable *)
        let '(inject, fix_toks) :=
          if tok_is first TOK_CHAR "!" then (false, drop 1 fix_toks)
          else (true, fix_toks) in
        (* Determine the fixture name *)
        match fix_toks with
        | [name] =>
            if negb (bool_decide (perfile.type_ name = TOK_WORD))
               || String.eqb (value name) ""
            then
              parse_error
                "Invalid fixture specification in %test directive at "
                start_coord
            else
              (* Add the fixture injection *)
              test_fixtures_loop start_coord
                (fixtures ++ [mk_HypoFixtureInjection (value name) inject])
                rest
        | _ =>
            parse_error "Invalid fixture specification in %test directive at "
              start_coord
        end
  end.

(** [TestDirective.__init__] *)
Definition TestDirective__init__ (values : values_dict dict_value)
    (start_coord : Coordinate.t) (toks : list Token)
    : outcome dict_value deferred :=
  (* Make sure the token list is correct *)
  if bool_decide (length toks < 2)%nat then
    parse_error "Invalid %test directive at " start_coord
  else
    first <-r py.index toks 0 ;;
    last <-r py.index toks (-1) ;;
    if negb (bool_decide (perfile.type_ first = TOK_WORD))
       || String.eqb (value first) ""
       || negb (tok_is last TOK_CHAR "{")
    then parse_error "Invalid %test directive at " start_coord
    else
      let name := value first in
      (* Extract the optional fixtures *)
      fixtures <-r
        (if bool_decide (2 < length toks)%nat then
           second <-r py.index toks 1 ;;
           before_last <-r py.index toks (-2) ;;
           if negb (tok_is second TOK_CHAR "(")
              || negb (tok_is before_last TOK_CHAR ")")
           then parse_error "Invalid %test directive at " start_coord
           else
             test_fixtures_loop start_coord []
               (split_toks (py.slice toks (Some 2) (Some (-2)))
                  {[ tok TOK_CHAR "," ]})
         else Ok []) ;;
      Ok (Some (TestDirective name fixtures start_coord), values).

(** [TestDirective.__call__] *)
Definition TestDirective__call__ (name : string)
    (fixtures : list HypoFixtureInjection) (start_coord : Coordinate.t)
    (values : values_dict dict_value) (end_coord : Coordinate.t)
    (buf : LineList.t) (toks : option (list Token))
    : outcome dict_value deferred :=
  match toks with
  | None =>
      parse_error "Unclosed %test directive at end of file; starts at "
        start_coord
  | Some (_ :: _) => parse_error "Invalid end of %test directive at " end_coord
  | Some [] =>
      range <-r sub_coord start_coord end_coord ;;
      values <-r values_setitem values "tests" name
                   (OTest (HypocriteTest.mk range name buf fixtures)) ;;
      Ok (None, values)
  end.

(** The loop of [FixtureDirective.__init__]; [self] holds the attributes
    once they have been saved. *)
Fixpoint fixture_init_loop (start_coord : Coordinate.t) (end_expected : bool)
    (self : option FixtureDirective.t)
    (type_iter : list (list Token * option Token * option Token))
    : res (option FixtureDirective.t) :=
  match type_iter with
  | [] => Ok self
  | (type_, name, delim) :: rest =>
      (* Were we expecting the end of the directive? *)
      if end_expected then
        if negb (bool_decide (type_ = [])) || bool_decide (is_Some name)
           || bool_decide (is_Some delim)
        then parse_error "Unexpected tokens after %fixture directive at "
               start_coord
        else fixture_init_loop start_coord end_expected self rest
      (* OK, was it the end of the directive? *)
      else if bool_decide (delim = None) then
        parse_error "Premature end of arguments in %fixture directive at "
          start_coord
      else
        (* Found the open brace; sanity-check the name token *)
        match name with
        | None => parse_error "Invalid %fixture directive at " start_coord
        | Some name =>
            if negb (bool_decide (perfile.type_ name = TOK_WORD))
               || String.eqb (value name) ""
            then parse_error "Invalid %fixture directive at " start_coord
            else
              (* Save the fixture's type and name *)
              ty <-r
                (if bool_decide (type_ = [])
                    || bool_decide (type_ = [tok TOK_WORD "void"])
                 then Ok None
                 else
                   ty <-r _make_type type_ "fixture" start_coord ;; Ok (Some ty)) ;;
              fixture_init_loop start_coord true
                (Some (FixtureDirective.mk (value name) ty start_coord
                         start_coord None))
                rest
        end
  end.

(** [FixtureDirective.__init__] *)
Definition FixtureDirective__init__ (values : values_dict dict_value)
    (start_coord : Coordinate.t) (toks : list Token)
    : outcome dict_value deferred :=
  self <-r fixture_init_loop start_coord false None
             (_extract_type toks {[ tok TOK_CHAR "{" ]}) ;;
  match self with
  | Some self => Ok (Some (FixtureDirective__call__ self), values)
  | None => Raise AttributeError
  end.

(** [FixtureDirective.__call__], as a function of the instance. *)
Definition FixtureDirective_call (self : FixtureDirective.t)
    (values : values_dict dict_value) (end_coord : Coordinate.t)
    (buf : LineList.t) (toks : option (list Token))
    : outcome dict_value deferred :=
  match toks with
  | None =>
      parse_error "Unclosed %fixture directive at end of file; starts at "
        (FixtureDirective.block_start self)
  | Some toks =>
      if negb (bool_decide (length toks = 0%nat))
         && negb (bool_decide
                    (toks = [tok TOK_WORD "teardown"; tok TOK_CHAR "{"]))
      then parse_error "Invalid %teardown directive at " end_coord
      else
        match toks with
        | _ :: _ =>
            (* If we have a teardown clause, save the code clause and chain *)
            Ok (Some (FixtureDirective_teardown
                        (FixtureDirective.mk
                           (FixtureDirective.name self)
                           (FixtureDirective.type_ self)
                           (FixtureDirective.start_coord self)
                           end_coord
                           (Some buf))),
                values)
        | [] =>
            (* Create the fixture *)
            range <-r sub_coord (FixtureDirective.start_coord self) end_coord ;;
            values <-r values_setitem values "fixtures"
                         (FixtureDirective.name self)
                         (OFixture
                            (Fixture.mk range (FixtureDirective.name self)
                               (FixtureDirective.type_ self) buf None)) ;;
            Ok (None, values)
        end
  end.

(** [FixtureDirective.teardown], as a function of the instance. *)
Definition FixtureDirective_teardown_call (self : FixtureDirective.t)
    (values : values_dict dict_value) (end_coord : Coordinate.t)
    (buf : LineList.t) (toks : option (list Token))
    : outcome dict_value deferred :=
  match toks with
  | None =>
      parse_error "Unclosed %teardown directive at end of file; starts at "
        (FixtureDirective.block_start self)
  | Some (_ :: _) =>
      parse_error "Invalid end of %teardown directive at " end_coord
  | Some [] =>
      (* Create the fixture *)
      range <-r sub_coord (FixtureDirective.start_coord self) end_coord ;;
      match FixtureDirective.code self with
      | None => Raise AttributeError
      | Some code =>
          values <-r values_setitem values "fixtures"
                       (FixtureDirective.name self)
                       (OFixture
                          (Fixture.mk range (FixtureDirective.name self)
                             (FixtureDirective.type_ self) code (Some buf))) ;;
          Ok (None, values)
      end
  end.

(** Calling a deferred callable. *)
Definition call (k : deferred) (values : values_dict dict_value)
    (end_coord : Coordinate.t) (buf : LineList.t)
    (toks : option (list Token)) : outcome dict_value deferred :=
  match k with
  | PreambleDirective start_coord =>
      PreambleDirective__call__ start_coord values end_coord buf toks
  | TestDirective name fixtures start_coord =>
      TestDirective__call__ name fixtures start_coord values end_coord buf toks
  | FixtureDirective__call__ self =>
      FixtureDirective_call self values end_coord buf toks
  | FixtureDirective_teardown self =>
      FixtureDirective_teardown_call self values end_coord buf toks
  end.

(** [HypoParser.DIRECTIVES] after the five decorators of the module have
    run, in the order of the file. *)
Definition DIRECTIVES : registry dict_value deferred :=
  let D := [] in
  let D := register D (Static VNone) (Some "target") None
             "target_directive" target_directive in
  let D := register D (Callable (fun _ => VList [])) (Some "preamble") None
             "PreambleDirective" PreambleDirective__init__ in
  let D := register D (Callable (fun _ => VDict ∅)) None (Some (Some "mocks"))
             "mock" mock in
  let D := register D (Callable (fun _ => VOrderedDict [])) (Some "test")
             (Some (Some "tests")) "TestDirective" TestDirective__init__ in
  let D := register D (Callable (fun _ => VDict ∅)) (Some "fixture")
             (Some (Some "fixtures")) "FixtureDirective"
             FixtureDirective__init__ in
  D.

(** [HypoParser().parse(stream, path)] on a new parser instance: the
    result and the final attributes of the instance. *)
Definition HypoParser_parse (stream : list string) (path : string)
    : res (values_dict dict_value) * parser deferred :=
  parse DIRECTIVES call stream None (Some path) __init__.

(** The class [HypoFile]: the path of the file and the five values of
    its parse. *)
Module HypoFile.

Record t : Type := mk {
  path : string;
  target : dict_value;
  preamble : dict_value;
  tests : dict_value;
  mocks : dict_value;
  fixtures : dict_value
}.

(** [cls(path, **values)]: the keys of [values] are the keyword
    arguments of [__init__].  A key that is no string, a key that is no
    parameter and a parameter without key are [TypeError]s. *)
Definition __init__ (path : string) (values : values_dict dict_value)
    : res t :=
  if bool_decide (dom values ⊆ {[ Some "target"; Some "preamble";
                                   Some "tests"; Some "mocks";
                                   Some "fixtures" ]})
  then
    match values !! Some "target", values !! Some "preamble",
          values !! Some "tests", values !! Some "mocks",
          values !! Some "fixtures" with
    | Some target, Some preamble, Some tests, Some mocks, Some fixtures =>
        Ok (mk path target preamble tests mocks fixtures)
    | _, _, _, _, _ => Raise TypeError
    end
  else Raise TypeError.

(** [HypoFile.parse(path)], on the lines the file at [path] holds. *)
Definition parse (stream : list string) (path : string) : res t :=
  values <-r (HypoParser_parse stream path).1 ;;
  __init__ path values.

End HypoFile.

End hypofile.

(** ** hypocrite/template.py *)

Module template.

Import location linelist.

(** The values bound in the keyword arguments of a render: a string, a
    list of strings, a [LineList], or [None]. *)
Inductive kwvalue : Type :=
| KStr (s : string)
| KList (l : list string)
| KLineList (ll : LineList.t)
| KNone.

(** *** SUBST_RE

    The expression is two opening braces, any whitespace, an identifier
    (group 1: a letter or underscore, then letters, digits and
    underscores), any whitespace, two closing braces.  Every repetition
    of the expression is followed by a character outside the repeated
    class, so the longest repetition is the only one that can lead to a
    match. *)

(** The class [[a-zA-Z_]] of the expression. *)
Definition ident_start (c : ascii) : bool :=
  let n := nat_of_ascii c in
  py.between 65 90 n || py.between 97 122 n || Ascii.eqb c "_"%char.

(** The class [[a-zA-Z0-9_]] of the expression. *)
Definition ident_char (c : ascii) : bool :=
  ident_start c || py.between 48 57 (nat_of_ascii c).

(** The longest prefix of [s] made of [ident_char]s, and what follows. *)
Fixpoint span_ident (s : string) : string * string :=
  match s with
  | String c s' =>
      if ident_char c then
        let '(w, rest) := span_ident s' in (String c w, rest)
      else ("", s)
  | "" => ("", "")
  end.

(** Two braces of the same kind at the start of [s]: what follows
    them. *)
Definition skip_braces (brace : ascii) (s : string) : option string :=
  match s with
  | String a (String b rest) =>
      if Ascii.eqb a brace && Ascii.eqb b brace then Some rest else None
  | _ => None
  end.

(** A match of [SUBST_RE] at the start of [s]: group 1 and what follows
    the match. *)
Definition subst_match (s : string) : option (string * string) :=
  match skip_braces "{" s with
  | Some s1 =>
      match py.lstrip s1 with
      | String c s2 =>
          if ident_start c then
            let '(w, s3) := span_ident s2 in
            match skip_braces "}" (py.lstrip s3) with
            | Some s4 => Some (String c w, s4)
            | None => None
            end
          else None
      | "" => None
      end
  | None => None
  end.

(** The pieces [SUBST_RE.sub] joins: a character of the text that no
    match covers, or what the replacement function returned. *)
Inductive piece : Type :=
| Kept (c : ascii)
| Replaced (v : kwvalue).

(** The scan of [SUBST_RE.sub(lambda x: kwargs[x.group(1)], text)]: the
    matches are found from left to right and do not overlap.  Every turn
    consumes a character, so [fuel] at the length of the text is never
    used up. *)
Fixpoint sub_scan (fuel : nat) (kwargs : gmap string kwvalue) (text : string)
    : res (list piece) :=
  match fuel with
  | O => Ok []
  | S fuel' =>
      match text with
      | "" => Ok []
      | String c text' =>
          match subst_match text with
          | Some (var, rest) =>
              match kwargs !! var with
              | None => Raise (KeyError var)
              | Some v =>
                  ps <-r sub_scan fuel' kwargs rest ;; Ok (Replaced v :: ps)
              end
          | None => ps <-r sub_scan fuel' kwargs text' ;; Ok (Kept c :: ps)
          end
      end
  end.

(** The join at the end of [sub]: a replacement that is [None] is left
    out, and one that is no string is a [TypeError]. *)
Fixpoint sub_join (ps : list piece) : res string :=
  match ps with
  | [] => Ok ""
  | Kept c :: rest => s <-r sub_join rest ;; Ok (String c s)
  | Replaced (KStr v) :: rest => s <-r sub_join rest ;; Ok (v +:+ s)
  | Replaced KNone :: rest => sub_join rest
  | Replaced _ :: _ => Raise TypeError
  end.

(** [SUBST_RE.sub(lambda x: kwargs[x.group(1)], text)] *)
Definition SUBST_RE_sub (kwargs : gmap string kwvalue) (text : string)
    : res string :=
  ps <-r sub_scan (String.length text) kwargs text ;; sub_join ps.

(** [for line in v]: the items iterating over a bound value yields. *)
Definition iterate (v : kwvalue) : res (list string) :=
  match v with
  | KStr s => Ok ((fun c => String c "") <$> list_ascii_of_string s)
  | KList l => Ok l
  | KLineList ll => Ok (LineList.__iter__ ll)
  | KNone => Raise TypeError
  end.

Module InsertSection.
Record t : Type := mk { coord_range : CoordinateRange.t; section : string }.
End InsertSection.

Module Literal.
Record t : Type := mk { coord_range : CoordinateRange.t; code : LineList.t }.
End Literal.

Module Define.
Record t : Type := mk {
  coord_range : CoordinateRange.t;
  name : string;
  contents : LineList.t
}.
End Define.

(** The class [Section]. *)
Module Section_.

Record t : Type := mk {
  coord_range : CoordinateRange.t;
  name : string;
  requires : gset string;
  contents : LineList.t
}.

(** The body of the loop of [render] for one entry of the contents: the
    receiver [res] after the turn. *)
Definition render_entry (kwargs : gmap string kwvalue) (result : LineList.t)
    (e : _Entry) : res LineList.t :=
  if py.startswith (text e) "#replace" then
    (* Multi-line replacement *)
    var <-r py.index (py.split (text e)) 1 ;;
    match kwargs !! var with
    | None => Raise (KeyError var)
    | Some v =>
        lines <-r iterate v ;;
        Ok (foldl (fun r line => LineList.append r line None) result lines)
    end
  else
    (* Make any necessary substitutions *)
    line <-r SUBST_RE_sub kwargs (text e) ;;
    Ok (LineList.append result line (coord e)).

Fixpoint render_loop (kwargs : gmap string kwvalue) (result : LineList.t)
    (entries : list _Entry) : res LineList.t :=
  match entries with
  | [] => Ok result
  | e :: rest =>
      result <-r render_entry kwargs result e ;;
      render_loop kwargs result rest
  end.

(** [Section.render(kwargs)]: [None] or a [LineList]. *)
Definition render (self : t) (kwargs : gmap string kwvalue)
    : res (option LineList.t) :=
  if negb (bool_decide (requires self ∖ dom kwargs = ∅)) then
    (* Missing variables, don't render it *)
    Ok None
  else
    result <-r render_loop kwargs (LineList.__init__ None None)
                 (LineList.iter_coord (contents self)) ;;
    Ok (Some result).

End Section_.

(** The class [RenderContext]; [sections] is a [defaultdict] of
    [LineList]. *)
Module RenderContext.

Record t : Type := mk {
  output : LineList.t;
  sections : gmap string LineList.t
}.

Definition __init__ : t := mk (LineList.__init__ None None) ∅.

(** [ctxt.sections[name]]: a missing key is first bound to a new
    [LineList]. *)
Definition sections_getitem (ctxt : t) (name : string) : LineList.t * t :=
  match sections ctxt !! name with
  | Some ll => (ll, ctxt)
  | None =>
      let ll := LineList.__init__ None None in
      (ll, mk (output ctxt) (<[name := ll]> (sections ctxt)))
  end.

End RenderContext.

(** An element of the structure of a template. *)
Inductive element : Type :=
| EInsertSection (e : InsertSection.t)
| ELiteral (e : Literal.t).

(** [elem.render(ctxt)] *)
Definition element_render (elem : element) (ctxt : RenderContext.t)
    : LineList.t * RenderContext.t :=
  match elem with
  | EInsertSection e =>
      RenderContext.sections_getitem ctxt (InsertSection.section e)
  | ELiteral e => (Literal.code e, ctxt)
  end.

(** [x += y] for two [LineList]s, as the interpreter evaluates it. *)
Definition iadd (x y : LineList.t) : res LineList.t :=
  match LineList.__iadd__ x (LineList.OfLineList y) with
  | Some r => Ok r
  | None => Raise TypeError
  end.

Module Template.

Record t : Type := mk {
  name : string;
  structure : list element;
  defines : odict.t Define.t;
  sections : odict.t Section_.t
}.

Section Render.

(** [Define.render]: the rendering of the Jinja template of a define
    against the keyword arguments, by the [jinja2] library. *)
Variable Define_render : Define.t -> gmap string kwvalue -> res string.

(** The first loop of [render]: realize all the defines. *)
Fixpoint render_defines (defines : odict.t Define.t)
    (kwargs : gmap string kwvalue) : res (gmap string kwvalue) :=
  match defines with
  | [] => Ok kwargs
  | (name, define) :: rest =>
      result <-r Define_render define kwargs ;;
      (* Split multi-line defines *)
      let result :=
        if py.contains_char (ascii_of_nat 10) result then
          let parts := py.split_on (ascii_of_nat 10) result in
          (* Eliminate the trailing blank line *)
          KList (match last parts with
                 | Some "" => py.slice parts None (Some (-1))
                 | _ => parts
                 end)
        else KStr result in
      (* Add the result back to the keyword arguments *)
      render_defines rest (<[name := result]> kwargs)
  end.

(** One turn of the second loop of [render]: render a section and add
    the result to the context. *)
Definition render_section (kwargs : gmap string kwvalue) (name : string)
    (section : Section_.t) (ctxt : RenderContext.t) : res RenderContext.t :=
  result <-r Section_.render section kwargs ;;
  match result with
  | Some result =>
      if bool_decide (LineList.__len__ result = 0) then Ok ctxt
      else
        let '(ll, ctxt) := RenderContext.sections_getitem ctxt name in
        ll <-r iadd ll result ;;
        Ok (RenderContext.mk (RenderContext.output ctxt)
              (<[name := ll]> (RenderContext.sections ctxt)))
  | None => Ok ctxt
  end.

Fixpoint render_sections (kwargs : gmap string kwvalue)
    (sections : odict.t Section_.t) (ctxt : RenderContext.t)
    : res RenderContext.t :=
  match sections with
  | [] => Ok ctxt
  | (name, section) :: rest =>
      ctxt <-r render_section kwargs name section ctxt ;;
      render_sections kwargs rest ctxt
  end.

(** The third loop of [render]: render the output. *)
Fixpoint render_structure (structure : list element) (ctxt : RenderContext.t)
    : res RenderContext.t :=
  match structure with
  | [] => Ok ctxt
  | elem :: rest =>
      let '(ll, ctxt) := element_render elem ctxt in
      out <-r iadd (RenderContext.output ctxt) ll ;;
      render_structure rest
        (RenderContext.mk out (RenderContext.sections ctxt))
  end.

(** [Template.render(ctxt, **kwargs)]: the [LineList] returned and the
    context after the call. *)
Definition render (self : t) (ctxt : RenderContext.t)
    (kwargs : gmap string kwvalue) : res (LineList.t * RenderContext.t) :=
  kwargs <-r render_defines (defines self) kwargs ;;
  ctxt <-r render_sections kwargs (sections self) ctxt ;;
  ctxt <-r render_structure (structure self) ctxt ;;
  Ok (RenderContext.output ctxt, ctxt).

End Render.

End Template.

(** *** The grammar of template files *)

Import perfile.

(** The objects the directives of a template store, and the containers
    of the values dictionary: a list, an [OrderedDict] and a [dict],
    which keeps the order in which its keys were added. *)
Inductive tobject : Type :=
| OElement (e : element)
| ODefine (d : Define.t)
| OSection (s : Section_.t).

Inductive tvalue : Type :=
| TList (l : list tobject)
| TOrderedDict (d : odict.t tobject)
| TDict (d : odict.t tobject).

(** [values[key].append] *)
Definition tvalues_list (values : values_dict tvalue) (key : string)
    : res (list tobject) :=
  match values !! Some key with
  | None => Raise (KeyError key)
  | Some (TList l) => Ok l
  | Some _ => Raise AttributeError
  end.

(** [values[key][name] = x] *)
Definition tvalues_setitem (values : values_dict tvalue) (key name : string)
    (x : tobject) : res (values_dict tvalue) :=
  match values !! Some key with
  | None => Raise (KeyError key)
  | Some (TDict d) => Ok (<[Some key := TDict (odict.set d name x)]> values)
  | Some (TOrderedDict d) =>
      Ok (<[Some key := TOrderedDict (odict.set d name x)]> values)
  | Some (TList _) => Raise TypeError
  end.

(** The callables the multi-line directives leave with the parser: the
    instances of the three directive classes, with the attributes
    [__init__] saved. *)
Inductive tdeferred : Type :=
| LiteralDirective (start_coord : Coordinate.t)
| DefineDirective (name : string) (start_coord : Coordinate.t)
| SectionDirective (name : string) (requires : gset string)
    (start_coord : Coordinate.t).

Section Grammar.

(** [jinja2.Template(source)]: the message of the exception the library
    raises when it refuses the source, if it does. *)
Variable jinja_error : string -> option string.

(** [Define.__init__]: the contents, joined by line terminators, are
    parsed as a Jinja template. *)
Definition Define__init__ (coord_range : CoordinateRange.t) (name : string)
    (contents : LineList.t) : res Define.t :=
  match jinja_error (py.join (String (ascii_of_nat 10) "")
                       (LineList.__iter__ contents)) with
  | Some msg => Raise (JinjaError msg)
  | None => Ok (Define.mk coord_range name contents)
  end.

(** [insert]: the [%insert] directive. *)
Definition insert (values : values_dict tvalue) (start_coord : Coordinate.t)
    (toks : list Token) : outcome tvalue tdeferred :=
  (* Make sure the token list is correct *)
  match toks with
  | [t] =>
      if negb (bool_decide (type_ t = TOK_WORD)) || String.eqb (value t) ""
      then
        Raise (ParseException ("Invalid %insert directive at "
                                 +:+ Coordinate.__str__ start_coord))
      else
        (* Add an insert-section directive *)
        l <-r tvalues_list values "structure" ;;
        range <-r sub_coord start_coord start_coord ;;
        Ok (None,
            <[Some "structure" :=
                TList (l ++ [OElement
                               (EInsertSection
                                  (InsertSection.mk range (value t)))])]>
              values)
  | _ =>
      Raise (ParseException ("Invalid %insert directive at "
                               +:+ Coordinate.__str__ start_coord))
  end.

(** [LiteralDirective.__init__] *)
Definition LiteralDirective__init__ (values : values_dict tvalue)
    (start_coord : Coordinate.t) (toks : list Token)
    : outcome tvalue tdeferred :=
  match toks with
  | [t] =>
      if negb (tok_is t TOK_CHAR "{") then
        Raise (ParseException ("Invalid %literal directive at "
                                 +:+ Coordinate.__str__ start_coord))
      else Ok (Some (LiteralDirective start_coord), values)
  | _ =>
      Raise (ParseException ("Invalid %literal directive at "
                               +:+ Coordinate.__str__ start_coord))
  end.

(** [LiteralDirective.__call__] *)
Definition LiteralDirective__call__ (start_coord : Coordinate.t)
    (values : values_dict tvalue) (end_coord : Coordinate.t)
    (buf : LineList.t) (toks : option (list Token))
    : outcome tvalue tdeferred :=
  match toks with
  | None =>
      Raise (ParseException
               ("Unclosed %literal directive at end of file; starts at "
                  +:+ Coordinate.__str__ start_coord))
  | Some (_ :: _) =>
      Raise (ParseException ("Invalid end of %literal directive at "
                               +:+ Coordinate.__str__ end_coord))
  | Some [] =>
      (* Add a literal directive *)
      l <-r tvalues_list values "structure" ;;
      range <-r sub_coord start_coord end_coord ;;
      Ok (None,
          <[Some "structure" :=
              TList (l ++ [OElement (ELiteral (Literal.mk range buf))])]>
            values)
  end.

(** [DefineDirective.__init__] *)
Definition DefineDirective__init__ (values : values_dict tvalue)
    (start_coord : Coordinate.t) (toks : list Token)
    : outcome tvalue tdeferred :=
  match toks with
  | [t; brace] =>
      if negb (bool_decide (type_ t = TOK_WORD)) || String.eqb (value t) ""
         || negb (tok_is brace TOK_CHAR "{")
      then
        Raise (ParseException ("Invalid %define directive at "
                                 +:+ Coordinate.__str__ start_coord))
      else Ok (Some (DefineDirective (value t) start_coord), values)
  | _ =>
      Raise (ParseException ("Invalid %define directive at "
                               +:+ Coordinate.__str__ start_coord))
  end.

(** [DefineDirective.__call__] *)
Definition DefineDirective__call__ (name : string)
    (start_coord : Coordinate.t) (values : values_dict tvalue)
    (end_coord : Coordinate.t) (buf : LineList.t)
    (toks : option (list Token)) : outcome tvalue tdeferred :=
  match toks with
  | None =>
      Raise (ParseException
               ("Unclosed %define directive at end of file; starts at "
                  +:+ Coordinate.__str__ start_coord))
  | Some (_ :: _) =>
      Raise (ParseException ("Invalid end of %define directive at "
                               +:+ Coordinate.__str__ end_coord))
  | Some [] =>
      (* Save the define *)
      range <-r sub_coord start_coord end_coord ;;
      define <-r Define__init__ range name buf ;;
      values <-r tvalues_setitem values "defines" name (ODefine define) ;;
      Ok (None, values)
  end.

(** The [for requirement in split_toks(...)] loop of
    [SectionDirective.__init__]. *)
Fixpoint section_requires_loop (start_coord : Coordinate.t)
    (requires : gset string) (stacks : list (list Token))
    : res (gset string) :=
  match stacks with
  | [] => Ok requires
  | [t] :: rest =>
      if negb (bool_decide (type_ t = TOK_WORD)) || String.eqb (value t) ""
      then
        Raise (ParseException ("Invalid %section directive at "
                                 +:+ Coordinate.__str__ start_coord))
      else section_requires_loop start_coord (requires ∪ {[ value t ]}) rest
  | _ :: _ =>
      Raise (ParseException ("Invalid %section directive at "
                               +:+ Coordinate.__str__ start_coord))
  end.

(** [SectionDirective.__init__] *)
Definition SectionDirective__init__ (values : values_dict tvalue)
    (start_coord : Coordinate.t) (toks : list Token)
    : outcome tvalue tdeferred :=
  (* Make sure the token list is correct *)
  if bool_decide (length toks < 2)%nat then
    Raise (ParseException ("Invalid %section directive at "
                             +:+ Coordinate.__str__ start_coord))
  else
    first <-r py.index toks 0 ;;
    last <-r py.index toks (-1) ;;
    if negb (bool_decide (type_ first = TOK_WORD))
       || String.eqb (value first) ""
       || negb (tok_is last TOK_CHAR "{")
    then
      Raise (ParseException ("Invalid %section directive at "
                               +:+ Coordinate.__str__ start_coord))
    else
      (* Check for requirements *)
      requires <-r
        (if bool_decide (2 < length toks)%nat then
           if bool_decide (length toks < 4)%nat then
             Raise (ParseException ("Invalid %section directive at "
                                      +:+ Coordinate.__str__ start_coord))
           else
             second <-r py.index toks 1 ;;
             before_last <-r py.index toks (-2) ;;
             if negb (tok_is second TOK_CHAR "(")
                || negb (tok_is before_last TOK_CHAR ")")
             then
               Raise (ParseException ("Invalid %section directive at "
                                        +:+ Coordinate.__str__ start_coord))
             else
               section_requires_loop start_coord ∅
                 (split_toks (py.slice toks (Some 2) (Some (-2)))
                    {[ mk_Token TOK_CHAR "," ]})
         else Ok ∅) ;;
      Ok (Some (SectionDirective (value first) requires start_coord), values).

(** [SectionDirective.__call__] *)
Definition SectionDirective__call__ (name : string) (requires : gset string)
    (start_coord : Coordinate.t) (values : values_dict tvalue)
    (end_coord : Coordinate.t) (buf : LineList.t)
    (toks : option (list Token)) : outcome tvalue tdeferred :=
  match toks with
  | None =>
      Raise (ParseException
               ("Unclosed %section directive at end of file; starts at "
                  +:+ Coordinate.__str__ start_coord))
  | Some (_ :: _) =>
      Raise (ParseException ("Invalid end of %section directive at "
                               +:+ Coordinate.__str__ end_coord))
  | Some [] =>
      (* Save the section *)
      range <-r sub_coord start_coord end_coord ;;
      values <-r tvalues_setitem values "sections" name
                   (OSection (Section_.mk range name requires buf)) ;;
      Ok (None, values)
  end.

(** Calling a deferred callable. *)
Definition tcall (k : tdeferred) (values : values_dict tvalue)
    (end_coord : Coordinate.t) (buf : LineList.t)
    (toks : option (list Token)) : outcome tvalue tdeferred :=
  match k with
  | LiteralDirective start_coord =>
      LiteralDirective__call__ start_coord values end_coord buf toks
  | DefineDirective name start_coord =>
      DefineDirective__call__ name start_coord values end_coord buf toks
  | SectionDirective name requires start_coord =>
      SectionDirective__call__ name requires start_coord values end_coord buf
        toks
  end.

End Grammar.

(** [TemplateParser.DIRECTIVES] after the four decorators of the module
    have run, in the order of the file.  [%literal] has no initial
    value: it adds to the structure that [%insert] initializes. *)
Definition TDIRECTIVES : registry tvalue tdeferred :=
  let D := [] in
  let D := register D (Callable (fun _ => TList [])) None
             (Some (Some "structure")) "insert" insert in
  let D := register D Unset (Some "literal") None "LiteralDirective"
             LiteralDirective__init__ in
  let D := register D (Callable (fun _ => TOrderedDict [])) (Some "define")
             (Some (Some "defines")) "DefineDirective"
             DefineDirective__init__ in
  let D := register D (Callable (fun _ => TDict [])) (Some "section")
             (Some (Some "sections")) "SectionDirective"
             SectionDirective__init__ in
  D.

(** [TemplateParser().parse(stream, path)] on a new parser instance: the
    result and the final attributes of the instance. *)
Definition TemplateParser_parse (jinja_error : string -> option string)
    (stream : list string) (path : string)
    : res (values_dict tvalue) * parser tdeferred :=
  parse TDIRECTIVES (tcall jinja_error) stream None (Some path) __init__.

End template.

(** * Specifications

    The definitions below are not taken from the source: they state, in
    the words of the specification, what the theorems compare the code
    with. *)

Module spec.

Import location linelist perfile.

(** ** Sequences of [LineList] operations *)

(** One operation on a [LineList]: [append], [extend], [self + other]
    (the name is rebound to the new instance) and [self += other]. *)
Inductive op : Type :=
| Append (line : string) (coord : option Coordinate.t)
| Extend (lines : list string) (coord : option Coordinate.t)
| Concat (other : LineList.operand)
| ConcatInPlace (other : LineList.operand).

(** The operand of a concatenation is a [LineList] or a bare list. *)
Definition well_typed (o : op) : Prop :=
  match o with
  | Concat LineList.OfOther | ConcatInPlace LineList.OfOther => False
  | _ => True
  end.

(** The [LineList] the name is bound to after the operation, when the
    operation is defined. *)
Definition apply (self : LineList.t) (o : op) : option LineList.t :=
  match o with
  | Append line coord => Some (LineList.append self line coord)
  | Extend lines coord => Some (LineList.extend self lines coord)
  | Concat other => LineList.__add__ self other
  | ConcatInPlace other => LineList.__iadd__ self other
  end.

Fixpoint run (self : LineList.t) (ops : list op) : option LineList.t :=
  match ops with
  | [] => Some self
  | o :: rest =>
      match apply self o with
      | Some self' => run self' rest
      | None => None
      end
  end.

(** The texts an operation adds, in order: the line appended, the lines
    the list is extended by, the lines of the other operand. *)
Definition texts_added (o : op) : list string :=
  match o with
  | Append line _ => [line]
  | Extend lines _ => lines
  | Concat (LineList.OfLineList other)
  | ConcatInPlace (LineList.OfLineList other) => LineList.__iter__ other
  | Concat (LineList.OfList lines) | ConcatInPlace (LineList.OfList lines) =>
      lines
  | _ => []
  end.

(** ** Splitting and joining back *)

(** [s0 ++ d0 :: s1 ++ d1 :: ... ++ sn]: the stacks interleaved with the
    delimiters. *)
Fixpoint interleave {A} (stacks : list (list A)) (delims : list A) : list A :=
  match stacks, delims with
  | s :: stacks', d :: delims' => s ++ d :: interleave stacks' delims'
  | s :: _, [] => s
  | [], _ => []
  end.

(** The occurrences of a delimiter in [toks], in order. *)
Definition delimiters {A} `{Countable A} (toks : list A) (delims : gset A)
    : list A :=
  filter (fun t => t ∈ delims) toks.

(** ** Contiguity of coordinates *)

(** The entries carry the coordinates [path:n], [path:n+1], ...: all on
    one path, each line number one greater than the one before. *)
Fixpoint contiguous (path : string) (n : Z) (es : list _Entry) : Prop :=
  match es with
  | [] => True
  | e :: rest =>
      coord e = Some (Coordinate.mk path n) /\ contiguous path (n + 1) rest
  end.

(** Contiguity breaks at the entry [cur] that comes after [prev] ([None]
    for the first entry overall).  For a located entry: it is the first
    overall, or the first after an unlocated entry, or the path changes,
    or the line number is not one greater than that of the entry
    before.  For an unlocated entry: it follows a located one. *)
Definition breaks (prev : option _Entry) (cur : _Entry) : bool :=
  match coord cur with
  | Some c =>
      match prev with
      | None => true
      | Some p =>
          match coord p with
          | None => true
          | Some l =>
              negb (String.eqb (Coordinate.path l) (Coordinate.path c))
              || negb (Coordinate.lno c =? Coordinate.lno l + 1)
          end
      end
  | None =>
      match prev with
      | Some p => bool_decide (is_Some (coord p))
      | None => false
      end
  end.

(** Every entry paired with the entry before it. *)
Fixpoint with_prev (prev : option _Entry) (es : list _Entry)
    : list (option _Entry * _Entry) :=
  match es with
  | [] => []
  | e :: rest => (prev, e) :: with_prev (Some e) rest
  end.

(** What is written for an entry: a directive first when contiguity
    breaks, then the text; [true] stands for a directive. *)
Definition shape (pe : option _Entry * _Entry) : list bool :=
  if breaks pe.1 pe.2 then [true; false] else [false].

(** ** Quotes of a directive line *)

(** The number of double-quote characters in a text.  The tokenizer
    honors no escape, so a quote opens a string token when an even number
    of quotes comes before it, and closes one otherwise. *)
Fixpoint quotes (s : string) : nat :=
  match s with
  | "" => 0%nat
  | String c s' =>
      ((if Ascii.eqb c py.dquote_char then 1 else 0) + quotes s')%nat
  end.

(** The text of the sample line. *)
Definition sample_line : string :=
  "this is a test !  Let " +:+ py.dquote +:+ "us" +:+ py.dquote +:+ " see"
    +:+ py.dquote +:+ "what" +:+ py.dquote +:+ "happens.".

(** ** Reading a parse result *)

(** A line of an input file: the text and its line terminator. *)
Definition line_of (text : string) : string :=
  text +:+ String (ascii_of_nat 10) "".

(** The object a parse has stored under [name] in the dictionary kept
    under [key], if the parse succeeded and there is one. *)
Definition stored (r : res (gmap (option string) hypofile.dict_value))
    (key name : string) : option hypofile.object :=
  match r with
  | Ok values =>
      match values !! Some key with
      | Some (hypofile.VDict d) => d !! name
      | Some (hypofile.VOrderedDict d) => odict.get d name
      | _ => None
      end
  | Raise _ => None
  end.

(** [n] asterisks. *)
Fixpoint stars (n : nat) : string :=
  match n with
  | O => ""
  | S n' => String "*" (stars n')
  end.

(** The tokens of [struct st_name * func_name(void *arg1, int arg2)]. *)
Definition sample_mock_tokens : list Token :=
  [mk_Token TOK_WORD "struct"; mk_Token TOK_WORD "st_name";
   mk_Token TOK_CHAR "*"; mk_Token TOK_WORD "func_name";
   mk_Token TOK_CHAR "("; mk_Token TOK_WORD "void"; mk_Token TOK_CHAR "*";
   mk_Token TOK_WORD "arg1"; mk_Token TOK_CHAR ","; mk_Token TOK_WORD "int";
   mk_Token TOK_WORD "arg2"; mk_Token TOK_CHAR ")"].

(** ** The body of a multi-line directive *)

(** A line that is taken as a line of the body: it does not start, after
    leading whitespace, with the directive marker. *)
Definition plain (line : string) : Prop :=
  py.startswith (py.lstrip line) "%" = false.

(** A line without its line terminator. *)
Definition chomp (line : string) : string :=
  if py.endswith_char line newline then py.str_slice line None (Some (-1))
  else line.

(** The lines of a body whose first line is line [lno] of [path], each
    with its coordinate. *)
Definition body_entries (path : string) (lno : Z) (body : list string)
    : list _Entry :=
  imap (fun i line =>
          mk_Entry (Some (Coordinate.mk path (lno + Z.of_nat i))) (chomp line))
    body.

(** The [FixtureDirective] instance the line [%fixture int fix {] on
    the first line of [path] creates. *)
Definition fix_self (path : string) : hypofile.FixtureDirective.t :=
  hypofile.FixtureDirective.mk "fix" (Some "int") (Coordinate.mk path 1)
    (Coordinate.mk path 1) None.

(** ** Section templates *)

Import template.

(** Every character of [s] satisfies [f]. *)
Fixpoint str_forall (f : ascii -> bool) (s : string) : bool :=
  match s with
  | "" => true
  | String c s' => f c && str_forall f s'
  end.

(** A run of whitespace, possibly empty. *)
Definition whitespace (s : string) : Prop := str_forall py.isspace s = true.

(** An identifier: a letter or underscore, then letters, digits and
    underscores. *)
Definition identifier (s : string) : Prop :=
  match s with
  | String c rest => ident_start c = true /\ str_forall ident_char rest = true
  | "" => False
  end.

(** [occurrence text var rest]: [text] starts with an occurrence of
    the identifier [var] between double braces, whitespace allowed
    around it inside the braces, and [rest] follows the occurrence. *)
Inductive occurrence : string -> string -> string -> Prop :=
| occurrence_intro (ws1 var ws2 rest : string) :
    whitespace ws1 -> identifier var -> whitespace ws2 ->
    occurrence ("{{" +:+ ws1 +:+ var +:+ ws2 +:+ "}}" +:+ rest) var rest.

(** [substituted kwargs text text']: [text'] is [text] with every
    occurrence, read from left to right, replaced by the string bound to
    its identifier. *)
Inductive substituted (kwargs : gmap string kwvalue) : string -> string -> Prop :=
| substituted_end : substituted kwargs "" ""
| substituted_occurrence (text var rest v rest' : string) :
    occurrence text var rest ->
    kwargs !! var = Some (KStr v) ->
    substituted kwargs rest rest' ->
    substituted kwargs text (v +:+ rest')
| substituted_keep (c : ascii) (text text' : string) :
    (forall var rest, ~ occurrence (String c text) var rest) ->
    substituted kwargs text text' ->
    substituted kwargs (String c text) (String c text').

(** A word: a non-empty run of characters that are no whitespace. *)
Definition word (s : string) : Prop :=
  s <> "" /\ str_forall (fun c => negb (py.isspace c)) s = true.






(** A section whose body is one replace line, and a string bound to
    the name, as [Template.render] binds what a define of one line
    renders to. *)
Definition spliced_section : Section_.t :=
  Section_.mk (CoordinateRange.mk "t.c" 1 3) "body" {["decl"]}
    (LineList.__init__ (Some ["#replace decl"])
       (Some (Coordinate.mk "t.c" 2))).

Definition spliced_kwargs : gmap string kwvalue :=
  <["decl" := KStr "int x;"]> ∅.

(** ** Errors *)

(** [located path e]: [e] is a parse failure whose message ends with a
    coordinate of the file [path], printed as the path, a colon and the
    line. *)
Definition located (path : string) (e : exn) : Prop :=
  exists (pre : string) (c : Coordinate.t),
    Coordinate.path c = path
    /\ e = ParseException (pre +:+ Coordinate.__str__ c).


(** A value of the dictionary that is itself a dictionary. *)
Definition dictlike (v : option hypofile.dict_value) : Prop :=
  match v with
  | Some (hypofile.VDict _) | Some (hypofile.VOrderedDict _) => True
  | _ => False
  end.

(** The values of a parse of a test file keep the kinds the directives
    gave them at first: a list of preambles, and dictionaries of tests,
    mocks and fixtures. *)
Definition wf_values (values : gmap (option string) hypofile.dict_value)
    : Prop :=
  (exists l, values !! Some "preamble" = Some (hypofile.VList l))
  /\ dictlike (values !! Some "tests")
  /\ dictlike (values !! Some "mocks")
  /\ dictlike (values !! Some "fixtures").

(** The two coordinates a fixture directive keeps, where the directive
    and where its current block started, are of the file [path]. *)
Definition wf_fixture (path : string) (self : hypofile.FixtureDirective.t)
    : Prop :=
  Coordinate.path (hypofile.FixtureDirective.start_coord self) = path
  /\ Coordinate.path (hypofile.FixtureDirective.block_start self) = path.

(** The callables a directive of a test file leaves behind started in
    the file [path]; the one that waits for the end of a teardown holds
    the code of the fixture. *)
Definition wf_callable (path : string) (k : hypofile.deferred) : Prop :=
  match k with
  | hypofile.PreambleDirective sc => Coordinate.path sc = path
  | hypofile.TestDirective _ _ sc => Coordinate.path sc = path
  | hypofile.FixtureDirective__call__ self => wf_fixture path self
  | hypofile.FixtureDirective_teardown self =>
      wf_fixture path self
      /\ is_Some (hypofile.FixtureDirective.code self)
  end.


(** A grammar of one directive, [%block], whose callable returns
    whatever closes the block, the end of the file included. *)
Definition quiet_block (values : values_dict unit) (start_coord : Coordinate.t)
    (toks : list Token) : outcome unit unit :=
  Ok (Some tt, values).

Definition quiet_call (k : unit) (values : values_dict unit)
    (end_coord : Coordinate.t) (buf : LineList.t)
    (toks : option (list Token)) : outcome unit unit :=
  Ok (None, values).

Definition quiet_DIRECTIVES : registry unit unit :=
  register [] Unset (Some "block") None "block" quiet_block.


(** ** The initial values as objects *)

(** The directive that gives [key] its initial value: the last in the
    order of registration whose value key it is and that has an
    initial value. *)
Definition binder {V D} (DIRECTIVES : registry V D) (key : option string)
    : option (Directive V D) :=
  last (List.filter
          (fun d => match init d with
                    | Unset => false
                    | _ => bool_decide (dvalue d = key)
                    end)
          (odict.values DIRECTIVES)).

(** The objects the callables create when each is called once, in the
    order of registration. *)
Definition created {V D} (DIRECTIVES : registry V D) : list V :=
  omap (fun d => match init d with
                 | Callable f => Some (f tt)
                 | _ => None
                 end)
    (odict.values DIRECTIVES).

(** The objects given as initial values, not callables, are in the heap
    where [static] says. *)
Definition statics_at {V D} (DIRECTIVES : registry V D)
    (static : string -> nat) (h : heap (V := V)) : Prop :=
  forall d v,
    d ∈ odict.values DIRECTIVES -> init d = Static v ->
    h !! static (directive d) = Some v.

(** ** The output of a list of lines *)

(** The directive that returns to the file written: it names the base
    name of that file and the number of a line of it. *)
Definition back_to (fname : string) (n : Z) : string :=
  "#line " +:+ py.fmt_d n +:+ " " +:+ py.dquote +:+ fname +:+ py.dquote.

(** ** Tokens *)

(** The characters that start and that continue a word of the
    tokenizer. *)
Definition word_start (c : ascii) : bool :=
  Ascii.eqb c "_" || py.isalpha c.

Definition word_char (c : ascii) : bool :=
  Ascii.eqb c "_" || py.isalnum c.

(** The shape of a token: a word starts with a letter or an underscore
    and goes on with letters, digits and underscores; a character token
    holds one character that is no whitespace, no quote and starts no
    word; a string holds no quote. *)
Definition token_shape (t : Token) : bool :=
  match type_ t, value t with
  | TOK_WORD, String c rest => word_start c && str_forall word_char rest
  | TOK_WORD, "" => false
  | TOK_CHAR, String c "" =>
      negb (py.isspace c) && negb (Ascii.eqb c py.dquote_char)
      && negb (word_start c)
  | TOK_CHAR, _ => false
  | TOK_STR, v => str_forall (fun c => negb (Ascii.eqb c py.dquote_char)) v
  end.

(** A token written out: a string between quotes, a word or a character
    as it is. *)
Definition written_token (t : Token) : string :=
  match type_ t with
  | TOK_STR => py.dquote +:+ value t +:+ py.dquote
  | _ => value t
  end.

(** Tokens written out with one space between them. *)
Fixpoint written_tokens (toks : list Token) : string :=
  match toks with
  | [] => ""
  | [t] => written_token t
  | t :: rest => written_token t +:+ " " +:+ written_tokens rest
  end.

(** ** Declarations *)

(** A token a type is made of: a word or an asterisk. *)
Definition type_token (t : Token) : bool :=
  bool_decide (type_ t = TOK_WORD) || tok_is t TOK_CHAR "*".

(** The tokens of a triple of [_extract_type], in the order they were
    read. *)
Definition triple_tokens (x : list Token * option Token * option Token)
    : list Token :=
  x.1.1 ++ option_list x.1.2 ++ option_list x.2.

(** Runs of tokens with one separator token between two runs. *)
Fixpoint separated (sep : Token) (runs : list (list Token)) : list Token :=
  match runs with
  | [] => []
  | [r] => r
  | r :: rest => r ++ sep :: separated sep rest
  end.

(** The tokens of a typed name, the type first. *)
Definition typed_name (p : list Token * string) : list Token :=
  p.1 ++ [mk_Token TOK_WORD p.2].

(** The tokens of the declaration of a function: the return type, the
    name, and the typed names of the parameters between parentheses and
    separated by commas. *)
Definition declaration (return_type : list Token) (name : string)
    (params : list (list Token * string)) : list Token :=
  return_type ++ [mk_Token TOK_WORD name; mk_Token TOK_CHAR "("]
    ++ separated (mk_Token TOK_CHAR ",") (typed_name <$> params)
    ++ [mk_Token TOK_CHAR ")"].

(** The tokens that ask for a fixture: its name, after an exclamation
    mark when it is not to be injected. *)
Definition fixture_tokens (f : hypofile.HypoFixtureInjection) : list Token :=
  (if hypofile.inject f then [] else [mk_Token TOK_CHAR "!"])
    ++ [mk_Token TOK_WORD (hypofile.fixture f)].

(** The tokens of the head of a test: its name, the fixtures it asks
    for between parentheses and separated by commas when there are any,
    and the opening brace. *)
Definition test_tokens (name : string)
    (fixtures : list hypofile.HypoFixtureInjection) : list Token :=
  mk_Token TOK_WORD name
  :: match fixtures with
     | [] => []
     | _ => mk_Token TOK_CHAR "("
            :: separated (mk_Token TOK_CHAR ",") (fixture_tokens <$> fixtures)
            ++ [mk_Token TOK_CHAR ")"]
     end
  ++ [mk_Token TOK_CHAR "{"].

(** A well-formed parameter: a type of words and asterisks, not empty,
    and a name. *)
Definition parameter (p : list Token * string) : Prop :=
  p.1 <> [] /\ forallb type_token p.1 = true /\ p.2 <> "".

(** ** The structure of a template *)

(** The lines an element of the structure stands for, given the lines
    rendered for the sections: the code of a literal, the lines of the
    section inserted, none when nothing was rendered for it. *)
Definition element_lines (sections : gmap string LineList.t)
    (elem : element) : list _Entry :=
  match elem with
  | ELiteral e => LineList._entries (Literal.code e)
  | EInsertSection e =>
      LineList._entries
        (default (LineList.__init__ None None)
           (sections !! InsertSection.section e))
  end.

(** Lines, each followed by a line terminator. *)
Fixpoint terminated (lines : list string) : string :=
  match lines with
  | [] => ""
  | l :: rest => l +:+ String (ascii_of_nat 10) (terminated rest)
  end.

(** A text without line terminator. *)
Definition one_line (s : string) : Prop :=
  py.contains_char (ascii_of_nat 10) s = false.

(** ** The values of a test file *)

(** The dictionary with the five keys of the test grammar. *)
Definition file_dict (target : hypofile.dict_value)
    (preamble : list hypofile.object) (tests : odict.t hypofile.object)
    (mocks fixtures : gmap string hypofile.object)
    : gmap (option string) hypofile.dict_value :=
  <[Some "fixtures" := hypofile.VDict fixtures]>
    (<[Some "tests" := hypofile.VOrderedDict tests]>
       (<[Some "mocks" := hypofile.VDict mocks]>
          (<[Some "preamble" := hypofile.VList preamble]>
             (<[Some "target" := target]> ∅)))).

(** The target of a file: [None], or a string that is not empty. *)
Definition target_value (v : hypofile.dict_value) : Prop :=
  v = hypofile.VNone \/ exists s, s <> "" /\ v = hypofile.VStr s.

Definition preamble_object (o : hypofile.object) : Prop :=
  exists p, o = hypofile.OPreamble p.

(** A test, a mock, a fixture stored under its own name. *)
Definition test_entry (name : string) (o : hypofile.object) : Prop :=
  exists t, o = hypofile.OTest t /\ hypofile.HypocriteTest.name t = name.

Definition mock_entry (name : string) (o : hypofile.object) : Prop :=
  exists m, o = hypofile.OMock m /\ hypofile.HypocriteMock.name m = name.

Definition fixture_entry (name : string) (o : hypofile.object) : Prop :=
  exists f, o = hypofile.OFixture f /\ hypofile.Fixture.name f = name.

(** The values a parse of a test file holds at any time: the five keys
    and no other, each with a value of its kind. *)
Definition file_values (values : gmap (option string) hypofile.dict_value)
    : Prop :=
  exists target preamble tests mocks fixtures,
    values = file_dict target preamble tests mocks fixtures
    /\ target_value target
    /\ Forall preamble_object preamble
    /\ Forall (fun kv => test_entry kv.1 kv.2) tests
    /\ map_Forall mock_entry mocks
    /\ map_Forall fixture_entry fixtures.

(** ** The lines of a file *)

(** A text without slash: it holds no comment marker. *)
Definition no_slash (s : string) : Prop :=
  str_forall (fun c => negb (Ascii.eqb c "/")) s = true.


(** A line that holds nothing: whitespace, then possibly a comment up
    to the end of the line. *)
Definition empty_line (line : string) : Prop :=
  exists ws, whitespace ws
             /\ (line = ws \/ exists rest, line = ws +:+ "//" +:+ rest).

(** A text that neither starts nor ends with whitespace, and is not
    empty. *)
Definition trimmed (s : string) : Prop :=
  match s with
  | "" => False
  | String c _ =>
      py.isspace c = false
      /\ exists d, py.last_char s = Some d /\ py.isspace d = false
  end.

(** ** Rendering a template *)

(** The lines the sections of a template render for the section called
    [name], in the order of the sections: a section that is not
    rendered gives none. *)
Definition section_lines (kwargs : gmap string kwvalue) (name : string)
    (sections : odict.t Section_.t) : list _Entry :=
  flat_map (fun ns : string * Section_.t =>
              if String.eqb ns.1 name then
                match Section_.render ns.2 kwargs with
                | Ok (Some r) => LineList._entries r
                | _ => []
                end
              else [])
    sections.

(** The lines of the section called [name] in a context. *)
Definition context_lines (sections : gmap string LineList.t) (name : string)
    : list _Entry :=
  LineList._entries (default (LineList.__init__ None None) (sections !! name)).

(** The lines an element of the structure gives to the output of a
    template with these sections, rendered in a context that holds
    [before]. *)
Definition rendered_lines (kwargs : gmap string kwvalue)
    (sections : odict.t Section_.t) (before : gmap string LineList.t)
    (elem : element) : list _Entry :=
  match elem with
  | ELiteral e => LineList._entries (Literal.code e)
  | EInsertSection e =>
      context_lines before (InsertSection.section e)
        ++ section_lines kwargs (InsertSection.section e) sections
  end.

End spec.

(** * Theorems *)

Module string_facts.

Lemma str_app_cons (c : ascii) (s t : string) :
  String c s +:+ t = String c (s +:+ t).
Proof. reflexivity. Qed.

Lemma str_app_nil_r (s : string) : s +:+ "" = s.
Proof.
  induction s as [|c s IH]; [reflexivity|]. rewrite str_app_cons, IH. reflexivity.
Qed.

Lemma str_app_assoc (a b c : string) : (a +:+ b) +:+ c = a +:+ (b +:+ c).
Proof.
  induction a as [|x a IH]; [reflexivity|].
  rewrite !str_app_cons, IH. reflexivity.
Qed.

Lemma str_length_app (a b : string) :
  String.length (a +:+ b) = (String.length a + String.length b)%nat.
Proof.
  induction a as [|x a IH]; [reflexivity|].
  rewrite str_app_cons. cbn [String.length]. rewrite IH. reflexivity.
Qed.

End string_facts.

Module location_facts.

Import location.

(** [a - b] for two coordinates: the range from the smaller to the
    larger line number when the paths are equal, [NotImplemented]
    otherwise. *)
Lemma coordinate_sub_spec (x y : Coordinate.t) :
  Coordinate.__sub__ x (Coordinate.Coord y)
  = if decide (Coordinate.path x = Coordinate.path y)
    then Coordinate.NewRange
           (CoordinateRange.mk (Coordinate.path x)
              (Z.min (Coordinate.lno x) (Coordinate.lno y))
              (Z.max (Coordinate.lno x) (Coordinate.lno y)))
    else Coordinate.NotImplemented.
Proof.
  destruct x as [px lx], y as [py ly]; cbn.
  destruct (decide (px = py)) as [->|Hne].
  - rewrite String.eqb_refl; cbn.
    destruct (Z.ltb_spec lx ly).
    + rewrite Z.min_l, Z.max_r by lia. reflexivity.
    + rewrite Z.min_r, Z.max_l by lia. reflexivity.
  - apply String.eqb_neq in Hne. rewrite Hne. reflexivity.
Qed.

Lemma sub_coord_same_path (x y : Coordinate.t) :
  Coordinate.path x = Coordinate.path y ->
  sub_coord x y
  = Ok (CoordinateRange.mk (Coordinate.path x)
          (Z.min (Coordinate.lno x) (Coordinate.lno y))
          (Z.max (Coordinate.lno x) (Coordinate.lno y))).
Proof.
  intros Hp. unfold sub_coord.
  rewrite coordinate_sub_spec, decide_True by exact Hp. reflexivity.
Qed.

(** C7. For two coordinates [a] and [b], [a - b] is the range on their
    common path from the smaller to the larger of the two line numbers
    when the paths are equal, and [NotImplemented] (no range, and a
    [TypeError] for the operator) when they differ; the result does not
    depend on the order of the operands, and [a - a] is the range whose
    start and end are both the line number of [a]. *)
Theorem coordinate_sub_range (a b : Coordinate.t) :
  Coordinate.__sub__ a (Coordinate.Coord b)
  = (if decide (Coordinate.path a = Coordinate.path b)
     then Coordinate.NewRange
            (CoordinateRange.mk (Coordinate.path a)
               (Z.min (Coordinate.lno a) (Coordinate.lno b))
               (Z.max (Coordinate.lno a) (Coordinate.lno b)))
     else Coordinate.NotImplemented)
  /\ Coordinate.__sub__ a (Coordinate.Coord b)
     = Coordinate.__sub__ b (Coordinate.Coord a)
  /\ Coordinate.__sub__ a (Coordinate.Coord a)
     = Coordinate.NewRange
         (CoordinateRange.mk (Coordinate.path a) (Coordinate.lno a)
            (Coordinate.lno a))
  /\ sub_coord a b
     = (if decide (Coordinate.path a = Coordinate.path b)
        then Ok (CoordinateRange.mk (Coordinate.path a)
                   (Z.min (Coordinate.lno a) (Coordinate.lno b))
                   (Z.max (Coordinate.lno a) (Coordinate.lno b)))
        else Raise TypeError).
Proof.
  split; [apply coordinate_sub_spec|].
  split.
  { rewrite !coordinate_sub_spec.
    destruct (decide (Coordinate.path a = Coordinate.path b)) as [e|n].
    - rewrite decide_True by done. rewrite e.
      rewrite Z.min_comm, Z.max_comm. reflexivity.
    - rewrite decide_False by (intros e; apply n; done). reflexivity. }
  split.
  { rewrite coordinate_sub_spec, decide_True by done.
    rewrite Z.min_id, Z.max_id. reflexivity. }
  unfold sub_coord. rewrite coordinate_sub_spec.
  destruct (decide (Coordinate.path a = Coordinate.path b)); reflexivity.
Qed.

End location_facts.

Module linelist_facts.

Import location linelist spec.

Lemma enumerate_entries_texts (lines : list string) (coord : option Coordinate.t) :
  text <$> enumerate_entries lines coord = lines.
Proof.
  unfold enumerate_entries. rewrite fmap_imap.
  induction lines as [|l ls IH] using rev_ind; [reflexivity|].
  rewrite imap_app, IH. reflexivity.
Qed.

(** What one operation does to the entries: it keeps them and puts new
    entries behind them, whose texts are the texts the operation adds. *)
Lemma apply_entries (self : LineList.t) (o : op) :
  well_typed o ->
  exists added,
    apply self o = Some (LineList.mk (LineList._entries self ++ added))
    /\ text <$> added = texts_added o.
Proof.
  destruct o as [line coord|lines coord|other|other]; cbn; intros Hwt.
  - eexists; split; [reflexivity|reflexivity].
  - eexists; split; [reflexivity|apply enumerate_entries_texts].
  - destruct other as [o|l|]; [| |destruct Hwt]; cbn.
    + eexists; split; reflexivity.
    + eexists; split; [reflexivity|apply enumerate_entries_texts].
  - destruct other as [o|l|]; [| |destruct Hwt]; cbn.
    + eexists; split; reflexivity.
    + eexists; split; [reflexivity|apply enumerate_entries_texts].
Qed.

Lemma run_app (self : LineList.t) (ops1 ops2 : list op) :
  run self (ops1 ++ ops2)
  = match run self ops1 with
    | Some mid => run mid ops2
    | None => None
    end.
Proof.
  revert self. induction ops1 as [|o ops1 IH]; intros self; cbn; [reflexivity|].
  destruct (apply self o); [apply IH|reflexivity].
Qed.

Lemma run_entries (self : LineList.t) (ops : list op) :
  Forall well_typed ops ->
  exists added,
    run self ops = Some (LineList.mk (LineList._entries self ++ added))
    /\ text <$> added = flat_map texts_added ops.
Proof.
  intros Hwt. revert self.
  induction Hwt as [|o ops Ho _ IH]; intros self; cbn.
  - exists []. rewrite app_nil_r. destruct self; split; reflexivity.
  - destruct (apply_entries self o Ho) as (a1 & -> & Ha1).
    destruct (IH (LineList.mk (LineList._entries self ++ a1))) as (a2 & -> & Ha2).
    exists (a1 ++ a2). cbn. rewrite <- app_assoc. split; [reflexivity|].
    rewrite fmap_app, Ha1, Ha2. reflexivity.
Qed.

(** C8. A sequence of [append], [extend], [+] and [+=] operations on a
    [LineList] (with [LineList] or list operands) is defined; after it
    the length is the length before plus the number of entries added,
    iteration yields the texts in the order they were added, and at
    every point of the sequence the entries present are a prefix of the
    final entries: each keeps its index, coordinate and text. *)
Theorem linelist_append_only (self : LineList.t) (ops : list op) :
  Forall well_typed ops ->
  exists final,
    run self ops = Some final
    /\ LineList.__len__ final
       = LineList.__len__ self
         + Z.of_nat (length (flat_map texts_added ops))
    /\ LineList.__iter__ final
       = LineList.__iter__ self ++ flat_map texts_added ops
    /\ (forall ops1 ops2, ops = ops1 ++ ops2 ->
        exists mid,
          run self ops1 = Some mid
          /\ run mid ops2 = Some final
          /\ LineList._entries mid `prefix_of` LineList._entries final
          /\ forall (i : nat) (e : _Entry),
               LineList._entries mid !! i = Some e ->
               LineList._entries final !! i = Some e).
Proof.
  intros Hwt.
  destruct (run_entries self ops Hwt) as (added & Hrun & Htexts).
  eexists. split; [exact Hrun|].
  split.
  { unfold LineList.__len__; cbn.
    rewrite length_app, <- Htexts, length_fmap. lia. }
  split.
  { unfold LineList.__iter__; cbn. rewrite fmap_app, Htexts. reflexivity. }
  intros ops1 ops2 ->.
  apply Forall_app in Hwt as [Hwt1 Hwt2].
  destruct (run_entries self ops1 Hwt1) as (a1 & Hrun1 & _).
  rewrite run_app, Hrun1 in Hrun.
  eexists. split; [exact Hrun1|]. split; [exact Hrun|].
  destruct (run_entries (LineList.mk (LineList._entries self ++ a1)) ops2 Hwt2)
    as (a2 & Hrun2 & _).
  rewrite Hrun2 in Hrun. injection Hrun as Hfinal.
  cbn in Hfinal |- *.
  assert (Hpre : (LineList._entries self ++ a1)
                   `prefix_of` (LineList._entries self ++ added)).
  { rewrite <- Hfinal. exists a2. reflexivity. }
  split; [exact Hpre|].
  intros i e Hi. destruct Hpre as [k ->].
  apply lookup_app_l_Some. exact Hi.
Qed.

(** A sequence of two operations on an empty list: two lines extended
    at a coordinate, then a bare list of one line concatenated in
    place. *)
Lemma linelist_append_only_witness :
  Forall well_typed
    [Extend ["a"; "b"] (Some (Coordinate.mk "f" 7));
     ConcatInPlace (LineList.OfList ["c"])]
  /\ exists final,
      run (LineList.__init__ None None)
        [Extend ["a"; "b"] (Some (Coordinate.mk "f" 7));
         ConcatInPlace (LineList.OfList ["c"])] = Some final
      /\ LineList.__iter__ final = ["a"; "b"; "c"].
Proof.
  assert (Hwt : Forall well_typed
                  [Extend ["a"; "b"] (Some (Coordinate.mk "f" 7));
                   ConcatInPlace (LineList.OfList ["c"])]).
  { repeat constructor. }
  split; [exact Hwt|].
  destruct (linelist_append_only (LineList.__init__ None None) _ Hwt)
    as (final & Hrun & _ & Hiter & _).
  exists final. split; [exact Hrun|exact Hiter].
Defined.

End linelist_facts.

Module split_facts.

Import perfile spec.

Section Split.

Context {A : Type} `{Countable A}.

(** The stack the loop starts with goes in front of the first stack it
    yields. *)
Lemma split_loop_stack (delims : gset A) (stack toks : list A) :
  split_loop delims stack toks
  = match split_loop delims [] toks with
    | (s, d) :: rest => (stack ++ s, d) :: rest
    | [] => []
    end.
Proof.
  revert stack. induction toks as [|t toks IH]; intros stack; cbn.
  - rewrite app_nil_r. reflexivity.
  - destruct (decide (t ∈ delims)).
    + rewrite app_nil_r. reflexivity.
    + rewrite (IH (stack ++ [t])), (IH [t]).
      destruct (split_loop delims [] toks) as [|[s d] rest]; [reflexivity|].
      rewrite <- app_assoc. reflexivity.
Qed.

Lemma split_toks_delim_cons (delims : gset A) (t : A) (toks : list A) :
  split_toks_delim (t :: toks) delims
  = if decide (t ∈ delims) then ([], Some t) :: split_toks_delim toks delims
    else match split_toks_delim toks delims with
         | (s, d) :: rest => (t :: s, d) :: rest
         | [] => []
         end.
Proof.
  unfold split_toks_delim; cbn.
  destruct (decide (t ∈ delims)); [reflexivity|].
  apply split_loop_stack.
Qed.

Lemma split_toks_delim_nonempty (delims : gset A) (toks : list A) :
  split_toks_delim toks delims <> [].
Proof.
  destruct toks as [|t toks]; [discriminate|].
  rewrite split_toks_delim_cons.
  destruct (decide (t ∈ delims)); [discriminate|].
  revert t n. induction toks as [|u toks IH]; intros t Ht; [discriminate|].
  rewrite split_toks_delim_cons.
  destruct (decide (u ∈ delims)); [discriminate|].
  specialize (IH u n).
  destruct (match split_toks_delim toks delims with
            | [] => []
            | (s, d) :: rest => (u :: s, d) :: rest
            end) as [|[s d] rest]; [contradiction|discriminate].
Qed.

(** C9. [split_toks] yields one more stack than there are occurrences of
    a delimiter in the tokens, no stack holds a delimiter, the delimiters
    yielded along are those occurrences in order (followed by [None]),
    and the stacks interleaved with the occurrences are the tokens. *)
Theorem split_toks_round_trip (toks : list A) (delims : gset A) :
  length (split_toks toks delims) = S (length (delimiters toks delims))
  /\ interleave (split_toks toks delims) (delimiters toks delims) = toks
  /\ snd <$> split_toks_delim toks delims
     = (Some <$> delimiters toks delims) ++ [None]
  /\ Forall (Forall (fun t => t ∉ delims)) (split_toks toks delims).
Proof.
  unfold split_toks, delimiters.
  induction toks as [|t toks (IHlen & IHjoin & IHdel & IHfree)].
  { cbn. repeat split; repeat constructor. }
  rewrite split_toks_delim_cons.
  pose proof (split_toks_delim_nonempty delims toks) as Hne.
  destruct (decide (t ∈ delims)) as [Hin|Hout].
  - rewrite filter_cons_True by exact Hin. cbn.
    destruct (split_toks_delim toks delims) as [|[s d] rest] eqn:E;
      [contradiction|].
    repeat split.
    + cbn in IHlen |- *. lia.
    + cbn in IHjoin |- *. f_equal. exact IHjoin.
    + cbn in IHdel |- *. f_equal. exact IHdel.
    + constructor; [constructor|exact IHfree].
  - rewrite filter_cons_False by exact Hout.
    destruct (split_toks_delim toks delims) as [|[s d] rest] eqn:E;
      [contradiction|].
    cbn in IHlen, IHjoin, IHdel, IHfree |- *.
    repeat split.
    + exact IHlen.
    + destruct (filter (fun t0 => t0 ∈ delims) toks) as [|d0 ds], rest;
        cbn in IHjoin |- *; f_equal; exact IHjoin.
    + exact IHdel.
    + inversion IHfree; subst. constructor; [|assumption].
      constructor; assumption.
Qed.

End Split.

End split_facts.

Module output_facts.

Import location linelist spec.

Lemma contiguous_no_directive (fname path : string) (es : list _Entry) :
  forall (n line : Z),
    contiguous path n es ->
    LineList.output_loop fname line (Some (Coordinate.mk path (n - 1))) es
    = (fun e => Text (text e)) <$> es.
Proof.
  induction es as [|[c t] es IH]; intros n line Hc; [reflexivity|].
  destruct Hc as [Hcoord Hrest]. cbn in Hcoord. subst c. cbn.
  rewrite String.eqb_refl. cbn.
  replace (n - 1 + 1 =? n) with true by (symmetry; apply Z.eqb_eq; lia).
  cbn. f_equal.
  replace n with (n + 1 - 1) at 1 by lia.
  apply IH. exact Hrest.
Qed.

(** The test of the loop on a located entry is the break of contiguity. *)
Lemma loop_shape (fname : string) (es : list _Entry) :
  forall (prev : option _Entry) (line : Z),
    is_directive <$> LineList.output_loop fname line (prev ≫= coord) es
    = flat_map shape (with_prev prev es).
Proof.
  induction es as [|[c t] es IH]; intros prev line; [reflexivity|].
  cbn [with_prev flat_map LineList.output_loop].
  unfold shape at 1, breaks. cbn [fst snd coord].
  destruct c as [c|].
  - destruct prev as [[[l|] tp]|]; cbn [mbind option_bind coord].
    + unfold Coordinate.__ne__, Coordinate.plus; cbn [Coordinate.path Coordinate.lno].
      rewrite (Z.eqb_sym (Coordinate.lno c)).
      destruct (negb (String.eqb (Coordinate.path l) (Coordinate.path c))
                || negb (Coordinate.lno l + 1 =? Coordinate.lno c)).
      * cbn. do 2 f_equal.
        apply (IH (Some (mk_Entry (Some c) t))).
      * cbn. f_equal. apply (IH (Some (mk_Entry (Some c) t))).
    + cbn. do 2 f_equal. apply (IH (Some (mk_Entry (Some c) t))).
    + cbn. do 2 f_equal. apply (IH (Some (mk_Entry (Some c) t))).
  - destruct prev as [[[l|] tp]|]; cbn [mbind option_bind coord].
    + rewrite bool_decide_eq_true_2 by eauto.
      cbn. do 2 f_equal. apply (IH (Some (mk_Entry None t))).
    + rewrite bool_decide_eq_false_2 by (intros [? ?]; discriminate).
      cbn. f_equal. apply (IH (Some (mk_Entry None t))).
    + cbn. f_equal. apply (IH (Some (mk_Entry None t))).
Qed.

Lemma loop_texts (fname : string) (es : list _Entry) :
  forall (last : option Coordinate.t) (line : Z),
    content <$> filter (fun p => is_directive p = false)
                  (LineList.output_loop fname line last es)
    = text <$> es.
Proof.
  induction es as [|[c t] es IH]; intros last line; [reflexivity|].
  cbn [LineList.output_loop].
  destruct c as [c|].
  - destruct (match last with
              | Some l => Coordinate.__ne__ (Coordinate.plus l 1) (Coordinate.Coord c)
              | None => true
              end).
    + rewrite filter_cons_False by (cbn; discriminate).
      rewrite filter_cons_True by reflexivity.
      cbn. f_equal. apply IH.
    + rewrite filter_cons_True by reflexivity. cbn. f_equal. apply IH.
  - destruct last.
    + rewrite filter_cons_False by (cbn; discriminate).
      rewrite filter_cons_True by reflexivity.
      cbn. f_equal. apply IH.
    + rewrite filter_cons_True by reflexivity. cbn. f_equal. apply IH.
Qed.

(** C1. [output] writes, for a non-empty list whose entries are
    contiguous on one path from [path:n] on, the directive of [path:n]
    and then the texts in order, and nothing else.  For any list it
    writes every text, in order, and before the text of an entry a
    directive exactly when contiguity breaks at that entry. *)
Theorem output_line_directives (self : LineList.t) (stream_name : string) :
  exists out,
    LineList.output self (Some stream_name) None = Ok out
    /\ (forall path n,
          LineList._entries self <> [] ->
          contiguous path n (LineList._entries self) ->
          out = Directive (Coordinate.line (Coordinate.mk path n))
                :: ((fun e => Text (text e)) <$> LineList._entries self))
    /\ is_directive <$> out
       = flat_map shape (with_prev None (LineList._entries self))
    /\ content <$> filter (fun p => is_directive p = false) out
       = LineList.__iter__ self
    /\ length (filter (fun p => is_directive p = true) out)
       = length (filter (fun pe => breaks pe.1 pe.2 = true)
                   (with_prev None (LineList._entries self))).
Proof.
  eexists. split; [reflexivity|].
  set (fname := py.basename stream_name).
  destruct self as [es]. cbn [LineList._entries].
  split.
  { intros path n Hne Hc.
    destruct es as [|[c t] es]; [contradiction|].
    destruct Hc as [Hcoord Hrest]. cbn in Hcoord. subst c.
    cbn [LineList.output_loop]. f_equal. cbn [fmap list_fmap text]. f_equal.
    replace n with (n + 1 - 1) at 1 by lia.
    apply contiguous_no_directive. exact Hrest. }
  split; [apply (loop_shape fname es None)|].
  split; [apply loop_texts|].
  pose proof (loop_shape fname es None 1) as Hshape.
  cbn [mbind option_bind] in Hshape.
  rewrite <- (length_fmap is_directive).
  assert (Hf : forall l : list printed,
             is_directive <$> filter (fun p => is_directive p = true) l
             = filter (fun b => b = true) (is_directive <$> l)).
  { induction l as [|p l IHl]; [reflexivity|].
    cbn [fmap list_fmap].
    destruct (is_directive p) eqn:E.
    - rewrite !filter_cons_True by done. cbn. rewrite E. f_equal. exact IHl.
    - rewrite !filter_cons_False by (rewrite ?E; discriminate). exact IHl. }
  rewrite Hf, Hshape.
  generalize (with_prev None es). intros l.
  induction l as [|pe l IHl]; [reflexivity|].
  cbn [flat_map]. rewrite filter_app, length_app, IHl.
  unfold shape at 1.
  destruct (breaks pe.1 pe.2) eqn:E.
  - rewrite (filter_cons_True _ pe) by exact E. reflexivity.
  - rewrite (filter_cons_False _ pe) by (rewrite E; discriminate). reflexivity.
Qed.

(** Three lines taken from [some.c], from its line 10 on. *)
Lemma output_line_directives_witness :
  exists out,
    LineList.output
      (LineList.__init__ (Some ["l4"; "l5"; "l6"])
         (Some (Coordinate.mk "some.c" 10)))
      (Some "out.c") None = Ok out
    /\ content <$> out
       = ["#line 10 " +:+ py.dquote +:+ "some.c" +:+ py.dquote;
          "l4"; "l5"; "l6"].
Proof.
  destruct (output_line_directives
              (LineList.__init__ (Some ["l4"; "l5"; "l6"])
                 (Some (Coordinate.mk "some.c" 10))) "out.c")
    as (out & Hout & Hcontig & _).
  exists out. split; [exact Hout|].
  rewrite (Hcontig "some.c" 10).
  - reflexivity.
  - discriminate.
  - cbn. repeat split; reflexivity.
Defined.

End output_facts.

Module tokenize_facts.

Import location perfile spec.

Definition in_str (st : scan_state) : bool :=
  match st with InStr => true | _ => false end.

Lemma quotes_app (s1 s2 : string) :
  quotes (s1 +:+ s2) = (quotes s1 + quotes s2)%nat.
Proof.
  induction s1 as [|c s1 IH]; [reflexivity|].
  rewrite string_facts.str_app_cons. cbn [quotes]. rewrite IH. lia.
Qed.

(** A quote, and nothing else, takes the scanner into or out of a
    string. *)
Lemma tokenize_step_in_str (st : scan_state) (buf : string) (c : ascii) :
  in_str (tokenize_step st buf c).1.2
  = xorb (in_str st) (Ascii.eqb c py.dquote_char).
Proof.
  destruct (Ascii.eqb_spec c py.dquote_char) as [->|Hne].
  - destruct st; reflexivity.
  - apply Ascii.eqb_neq in Hne. unfold tokenize_step. rewrite Hne.
    destruct st; cbn;
      repeat match goal with
             | |- context [if ?b then _ else _] => destruct b
             end; reflexivity.
Qed.

Lemma tokenize_loop_in_str (text : string) :
  forall (st : scan_state) (buf : string),
    in_str (tokenize_loop st buf text).1.2
    = xorb (in_str st) (Nat.odd (quotes text)).
Proof.
  induction text as [|c text IH]; intros st buf.
  - cbn. destruct (in_str st); reflexivity.
  - cbn [tokenize_loop quotes].
    pose proof (tokenize_step_in_str st buf c) as Hstep.
    destruct (tokenize_step st buf c) as [[ys st'] buf'].
    specialize (IH st' buf').
    destruct (tokenize_loop st' buf' text) as [[zs st''] buf''].
    cbn in Hstep, IH |- *. rewrite IH, Hstep.
    destruct (Ascii.eqb c py.dquote_char).
    + replace (1 + quotes text)%nat with (S (quotes text)) by lia.
      rewrite Nat.odd_succ, <- Nat.negb_odd.
      destruct (in_str st), (Nat.odd (quotes text)); reflexivity.
    + cbn. destruct (in_str st), (Nat.odd (quotes text)); reflexivity.
Qed.

(** The tokenizer raises exactly on the texts with an odd number of
    quotes, and what it raises is the parse failure that names the
    coordinate. *)
Lemma tokenize_raises_iff (text : string) (coord : Coordinate.t) :
  (Nat.odd (quotes text) = true ->
   _tokenize text coord
   = Raise (ParseException ("Unclosed string encountered at "
                              +:+ Coordinate.__str__ coord)))
  /\ (Nat.odd (quotes text) = false ->
      exists toks, _tokenize text coord = Ok toks).
Proof.
  unfold _tokenize.
  pose proof (tokenize_loop_in_str text Idle "") as H.
  destruct (tokenize_loop Idle "" text) as [[toks st] buf].
  cbn in H. split; intros Hodd; rewrite Hodd in H.
  - destruct st; try discriminate. reflexivity.
  - destruct st; try discriminate; eauto.
Qed.

(** C3. The sample line tokenizes to the eleven tokens of the
    specification; and a text in which a quote opens a string (an even
    number of quotes comes before it) that no later quote closes raises
    the parse failure. *)
Theorem tokenize_sample_and_unclosed (coord : Coordinate.t) :
  _tokenize sample_line coord
  = Ok [mk_Token TOK_WORD "this"; mk_Token TOK_WORD "is";
        mk_Token TOK_WORD "a"; mk_Token TOK_WORD "test";
        mk_Token TOK_CHAR "!"; mk_Token TOK_WORD "Let";
        mk_Token TOK_STR "us"; mk_Token TOK_WORD "see";
        mk_Token TOK_STR "what"; mk_Token TOK_WORD "happens";
        mk_Token TOK_CHAR "."]
  /\ (forall before unclosed : string,
        Nat.even (quotes before) = true ->
        quotes unclosed = 0%nat ->
        _tokenize (before +:+ py.dquote +:+ unclosed) coord
        = Raise (ParseException ("Unclosed string encountered at "
                                   +:+ Coordinate.__str__ coord)))
  /\ _tokenize (py.dquote +:+ "abc") coord
     = Raise (ParseException ("Unclosed string encountered at "
                                +:+ Coordinate.__str__ coord)).
Proof.
  split; [reflexivity|].
  split; [|reflexivity].
  intros before unclosed Heven Hnone.
  apply tokenize_raises_iff.
  rewrite !quotes_app, Hnone.
  change (quotes py.dquote) with 1%nat.
  replace (quotes before + (1 + 0))%nat with (S (quotes before)) by lia.
  rewrite Nat.odd_succ. exact Heven.
Qed.

(** A word, then a string that is opened and never closed. *)
Lemma tokenize_sample_and_unclosed_witness :
  Nat.even (quotes "name ") = true
  /\ quotes "abc def" = 0%nat
  /\ _tokenize ("name " +:+ py.dquote +:+ "abc def") (Coordinate.mk "t.hypo" 3)
     = Raise (ParseException "Unclosed string encountered at t.hypo:3").
Proof.
  split; [reflexivity|]. split; [reflexivity|].
  apply (proj1 (proj2 (tokenize_sample_and_unclosed (Coordinate.mk "t.hypo" 3)))
           "name " "abc def"); reflexivity.
Defined.

End tokenize_facts.

Module values_facts.

Import location linelist perfile spec.

Lemma odict_set_fresh {V} (d : odict.t V) (k : string) (v : V) :
  odict.get d k = None -> odict.set d k v = d ++ [(k, v)].
Proof.
  induction d as [|[k' v'] d IH]; cbn; [reflexivity|].
  destruct (String.eqb k' k); [discriminate|].
  intros Hget. rewrite IH by exact Hget. reflexivity.
Qed.

(** What the directive registered last contributes to the values
    dictionary. *)
Lemma _values_snoc {V D} (DIRECTIVES : registry V D) (name : string)
    (d : Directive V D) :
  _values (DIRECTIVES ++ [(name, d)])
  = match init d with
    | Unset => _values DIRECTIVES
    | Static v => <[dvalue d := v]> (_values DIRECTIVES)
    | Callable f => <[dvalue d := f tt]> (_values DIRECTIVES)
    end.
Proof.
  unfold _values, odict.values. rewrite fmap_app, foldl_app. cbn.
  unfold initial. destruct (init d); reflexivity.
Qed.

(** What the directive registered last contributes, on objects. *)
Lemma values_objects_snoc {V D} (DIRECTIVES : registry V D) (name : string)
    (d : Directive V D) (static : string -> nat) (h : heap) :
  _values_objects (DIRECTIVES ++ [(name, d)]) static h
  = let acc := _values_objects DIRECTIVES static h in
    match init d with
    | Unset => acc
    | Static _ => (<[dvalue d := static (directive d)]> acc.1, acc.2)
    | Callable f => (<[dvalue d := length acc.2]> acc.1, acc.2 ++ [f tt])
    end.
Proof.
  unfold _values_objects, odict.values. rewrite fmap_app, foldl_app. cbn.
  unfold initial_object. destruct (init d); reflexivity.
Qed.

Lemma binder_snoc {V D} (DIRECTIVES : registry V D) (name : string)
    (d : Directive V D) (key : option string) :
  binder (DIRECTIVES ++ [(name, d)]) key
  = match init d with
    | Unset => binder DIRECTIVES key
    | _ => if bool_decide (dvalue d = key) then Some d
           else binder DIRECTIVES key
    end.
Proof.
  unfold binder, odict.values. rewrite fmap_app, List.filter_app. cbn.
  destruct (init d); [rewrite app_nil_r; reflexivity| |];
    (destruct (bool_decide (dvalue d = key));
     [apply last_snoc|rewrite app_nil_r; reflexivity]).
Qed.

(** The dictionary binds a key to the initial value of its binder. *)
Lemma values_binder {V D} (DIRECTIVES : registry V D) (key : option string) :
  _values DIRECTIVES !! key = binder DIRECTIVES key ≫= initial.
Proof.
  induction DIRECTIVES as [|[name d] DIRECTIVES IH] using rev_ind;
    [reflexivity|].
  rewrite _values_snoc, binder_snoc.
  destruct (init d) as [|v|f] eqn:Hinit; [exact IH| |].
  - destruct (bool_decide_reflect (dvalue d = key)) as [->|Hne].
    + rewrite lookup_insert_eq. cbn. unfold initial. rewrite Hinit.
      reflexivity.
    + rewrite lookup_insert_ne by exact Hne. exact IH.
  - destruct (bool_decide_reflect (dvalue d = key)) as [->|Hne].
    + rewrite lookup_insert_eq. cbn. unfold initial. rewrite Hinit.
      reflexivity.
    + rewrite lookup_insert_ne by exact Hne. exact IH.
Qed.

Lemma statics_at_init {V D} (DIRECTIVES : registry V D) (name : string)
    (d : Directive V D) (static : string -> nat) (h : heap) :
  statics_at (DIRECTIVES ++ [(name, d)]) static h ->
  statics_at DIRECTIVES static h.
Proof.
  intros H d' v Hin. apply H. unfold odict.values. rewrite fmap_app.
  apply elem_of_app. left. exact Hin.
Qed.

Lemma created_snoc {V D} (DIRECTIVES : registry V D) (name : string)
    (d : Directive V D) :
  created (DIRECTIVES ++ [(name, d)])
  = created DIRECTIVES
    ++ match init d with Callable f => [f tt] | _ => [] end.
Proof.
  unfold created, odict.values. rewrite fmap_app, omap_app. cbn.
  destruct (init d); reflexivity.
Qed.

(** What [_values] does on objects: it modifies no object; the objects
    at the addresses it binds are the values of the dictionary; and a
    key is bound to the address of the object given at registration,
    or to the address of an object that did not exist before. *)
Lemma values_objects_spec {V D} (DIRECTIVES : registry V D)
    (static : string -> nat) (h : heap) :
  statics_at DIRECTIVES static h ->
  (_values_objects DIRECTIVES static h).2 = h ++ created DIRECTIVES
  /\ (forall key,
        match (_values_objects DIRECTIVES static h).1 !! key,
              _values DIRECTIVES !! key with
        | Some a, Some v => (_values_objects DIRECTIVES static h).2 !! a = Some v
        | None, None => True
        | _, _ => False
        end)
  /\ (forall key,
        match binder DIRECTIVES key with
        | None => (_values_objects DIRECTIVES static h).1 !! key = None
        | Some d =>
            match init d with
            | Callable _ =>
                exists a,
                  (_values_objects DIRECTIVES static h).1 !! key = Some a
                  /\ (length h <= a)%nat
            | Static _ =>
                (_values_objects DIRECTIVES static h).1 !! key
                = Some (static (directive d))
            | Unset => False
            end
        end).
Proof.
  induction DIRECTIVES as [|[name d] DIRECTIVES IH] using rev_ind;
    intros Hstatic.
  - split; [cbn; rewrite app_nil_r; reflexivity|].
    split; intros key; cbn; rewrite ?lookup_empty; exact I || reflexivity.
  - destruct (IH (statics_at_init _ _ _ _ _ Hstatic))
      as (Hnew & Hderef & Hbind).
    rewrite values_objects_snoc, created_snoc. cbn zeta.
    set (acc := _values_objects DIRECTIVES static h) in *.
    destruct (init d) as [|v|f] eqn:Hinit.
    + split; [rewrite app_nil_r; exact Hnew|]. split; intros key.
      * rewrite _values_snoc, Hinit. apply Hderef.
      * rewrite binder_snoc, Hinit. apply Hbind.
    + assert (Hv : h !! static (directive d) = Some v).
      { apply (Hstatic d v); [|exact Hinit].
        unfold odict.values. rewrite fmap_app. apply elem_of_app. right.
        apply list_elem_of_singleton. reflexivity. }
      split; [rewrite app_nil_r; exact Hnew|]. cbn [fst snd].
      split; intros key.
      * rewrite _values_snoc, Hinit.
        destruct (decide (dvalue d = key)) as [->|Hne].
        -- rewrite !lookup_insert_eq, Hnew.
           apply lookup_app_l_Some. exact Hv.
        -- rewrite !lookup_insert_ne by exact Hne. apply Hderef.
      * rewrite binder_snoc, Hinit.
        destruct (bool_decide_reflect (dvalue d = key)) as [->|Hne].
        -- rewrite Hinit, lookup_insert_eq. reflexivity.
        -- rewrite lookup_insert_ne by exact Hne. apply Hbind.
    + split; [cbn [snd]; rewrite Hnew, app_assoc; reflexivity|].
      cbn [fst snd]. split; intros key.
      * rewrite _values_snoc, Hinit.
        destruct (decide (dvalue d = key)) as [->|Hne].
        -- rewrite !lookup_insert_eq.
           rewrite lookup_app_r by lia. rewrite Nat.sub_diag. reflexivity.
        -- rewrite !lookup_insert_ne by exact Hne.
           specialize (Hderef key).
           destruct (acc.1 !! key) as [a|], (_values DIRECTIVES !! key) as [w|];
             try exact Hderef.
           apply lookup_app_l_Some. exact Hderef.
      * rewrite binder_snoc, Hinit.
        destruct (bool_decide_reflect (dvalue d = key)) as [->|Hne].
        -- rewrite Hinit, lookup_insert_eq. eexists. split; [reflexivity|].
           rewrite Hnew, length_app. lia.
        -- rewrite lookup_insert_ne by exact Hne. apply Hbind.
Qed.

(** Two dictionaries made one after the other: a key whose initial
    value is a callable gets a new object each time, a key whose
    initial value is an object gets that object both times. *)
Lemma values_objects_twice {V D} (DIRECTIVES : registry V D)
    (static : string -> nat) (h : heap) (key : option string)
    (d : Directive V D) :
  statics_at DIRECTIVES static h ->
  binder DIRECTIVES key = Some d ->
  match init d with
  | Callable f =>
      exists a1 a2,
        (_values_objects DIRECTIVES static h).1 !! key = Some a1
        /\ (_values_objects DIRECTIVES static
              (_values_objects DIRECTIVES static h).2).1 !! key = Some a2
        /\ (length h <= a1 < a2)%nat
        /\ (_values_objects DIRECTIVES static
              (_values_objects DIRECTIVES static h).2).2 !! a1 = Some (f tt)
        /\ (_values_objects DIRECTIVES static
              (_values_objects DIRECTIVES static h).2).2 !! a2 = Some (f tt)
  | Static v =>
      (_values_objects DIRECTIVES static h).1 !! key
      = Some (static (directive d))
      /\ (_values_objects DIRECTIVES static
            (_values_objects DIRECTIVES static h).2).1 !! key
         = Some (static (directive d))
      /\ (_values_objects DIRECTIVES static
            (_values_objects DIRECTIVES static h).2).2 !! static (directive d)
         = Some v
  | Unset => False
  end.
Proof.
  intros Hstatic Hbinder.
  destruct (values_objects_spec DIRECTIVES static h Hstatic)
    as (Hnew1 & Hderef1 & Hbind1).
  set (first := _values_objects DIRECTIVES static h) in *.
  assert (Hstatic1 : statics_at DIRECTIVES static first.2).
  { intros d' v Hin Hinit. rewrite Hnew1.
    apply lookup_app_l_Some. exact (Hstatic d' v Hin Hinit). }
  destruct (values_objects_spec DIRECTIVES static first.2 Hstatic1)
    as (Hnew2 & Hderef2 & Hbind2).
  set (second := _values_objects DIRECTIVES static first.2) in *.
  specialize (Hbind1 key). specialize (Hbind2 key).
  specialize (Hderef1 key). specialize (Hderef2 key).
  pose proof (values_binder DIRECTIVES key) as Hvalue.
  rewrite Hbinder in Hbind1, Hbind2, Hvalue. cbn in Hvalue.
  unfold initial in Hvalue.
  destruct (init d) as [|v|f] eqn:Hinit; [exact Hbind1| |].
  - split; [exact Hbind1|]. split; [exact Hbind2|].
    rewrite Hbind2, Hvalue in Hderef2. exact Hderef2.
  - destruct Hbind1 as (a1 & Ha1 & Hfresh1).
    destruct Hbind2 as (a2 & Ha2 & Hfresh2).
    rewrite Ha1, Hvalue in Hderef1. rewrite Ha2, Hvalue in Hderef2.
    exists a1, a2. split; [exact Ha1|]. split; [exact Ha2|].
    pose proof (lookup_lt_Some _ _ _ Hderef1) as Hlt.
    split; [lia|]. split; [|exact Hderef2].
    rewrite Hnew2. apply lookup_app_l_Some. exact Hderef1.
Qed.

(** C10. Parsing an empty stream with a new parser raises nothing and
    returns the values dictionary [_values] builds, whatever the
    directives are, and leaves the parser as it was created.  [_values]
    binds the key of a newly registered directive to its initial value:
    the value itself, or what the callable returns when it is called for
    this dictionary; a directive without initial value adds no key.  For
    the test grammar the dictionary binds [target] to [None], [preamble]
    to an empty list, [mocks] and [fixtures] to empty dictionaries and
    [tests] to an empty ordered dictionary.  Every key is bound to the
    initial value of the directive registered last for it.  On objects,
    a callable is called afresh for each dictionary: of two
    dictionaries made one after the other, the second binds the key of
    a callable to an object that did not exist when the first was made,
    so that the two do not share it and an update of the first's leaves
    the second's as it is; an initial value that is no callable is one
    object, bound in both.  Making a dictionary calls every callable
    once, in the order of registration, and modifies no object that
    existed before. *)
Theorem parse_empty_stream :
  (forall (V D : Type) (DIRECTIVES : registry V D)
          (call : D -> values_dict V -> Coordinate.t -> LineList.t ->
                  option (list Token) -> outcome V D)
          (name : string),
      parse DIRECTIVES call [] None (Some name) __init__
      = (Ok (_values DIRECTIVES), __init__)
      /\ parse DIRECTIVES call [] (Some name) None __init__
         = (Ok (_values DIRECTIVES), __init__))
  /\ (forall (V D : Type) (DIRECTIVES : registry V D) (init : init_value V)
             (name : string) (key : option (option string))
             (func_name : string)
             (func : values_dict V -> Coordinate.t -> list Token -> outcome V D),
        name <> "" ->
        odict.get DIRECTIVES name = None ->
        _values (register DIRECTIVES init (Some name) key func_name func)
        = match init with
          | Unset => _values DIRECTIVES
          | Static v =>
              <[default (Some name) key := v]> (_values DIRECTIVES)
          | Callable f =>
              <[default (Some name) key := f tt]> (_values DIRECTIVES)
          end)
  /\ (forall path : string,
        hypofile.HypoParser_parse [] path
        = (Ok (<[Some "fixtures" := hypofile.VDict ∅]>
                 (<[Some "tests" := hypofile.VOrderedDict []]>
                    (<[Some "mocks" := hypofile.VDict ∅]>
                       (<[Some "preamble" := hypofile.VList []]>
                          (<[Some "target" := hypofile.VNone]> ∅))))),
           __init__))
  /\ (forall (V D : Type) (DIRECTIVES : registry V D) (key : option string),
        _values DIRECTIVES !! key = binder DIRECTIVES key ≫= initial)
  /\ (forall (V D : Type) (DIRECTIVES : registry V D)
             (static : string -> nat) (h : heap),
        statics_at DIRECTIVES static h ->
        ((_values_objects DIRECTIVES static h).2 = h ++ created DIRECTIVES
         /\ (_values_objects DIRECTIVES static
               (_values_objects DIRECTIVES static h).2).2
            = (h ++ created DIRECTIVES) ++ created DIRECTIVES)
        /\ (forall key,
              match (_values_objects DIRECTIVES static h).1 !! key,
                    _values DIRECTIVES !! key with
              | Some a, Some v =>
                  (_values_objects DIRECTIVES static h).2 !! a = Some v
              | None, None => True
              | _, _ => False
              end)
        /\ forall (key : option string) (d : Directive V D),
             binder DIRECTIVES key = Some d ->
             match init d with
             | Callable f =>
                 exists a1 a2,
                   (_values_objects DIRECTIVES static h).1 !! key = Some a1
                   /\ (_values_objects DIRECTIVES static
                         (_values_objects DIRECTIVES static h).2).1 !! key
                      = Some a2
                   /\ (length h <= a1 < a2)%nat
                   /\ (_values_objects DIRECTIVES static
                         (_values_objects DIRECTIVES static h).2).2 !! a2
                      = Some (f tt)
                   /\ forall v : V,
                        <[a1 := v]>
                          (_values_objects DIRECTIVES static
                             (_values_objects DIRECTIVES static h).2).2 !! a2
                        = Some (f tt)
             | Static v =>
                 (_values_objects DIRECTIVES static h).1 !! key
                 = Some (static (directive d))
                 /\ (_values_objects DIRECTIVES static
                       (_values_objects DIRECTIVES static h).2).1 !! key
                    = Some (static (directive d))
                 /\ (_values_objects DIRECTIVES static
                       (_values_objects DIRECTIVES static h).2).2
                    !! static (directive d)
                    = Some v
             | Unset => False
             end).
Proof.
  split; [intros; split; reflexivity|].
  split.
  { intros V D DIRECTIVES init name key func_name func Hname Hfresh.
    unfold register.
    apply String.eqb_neq in Hname. rewrite Hname.
    rewrite odict_set_fresh by exact Hfresh.
    rewrite _values_snoc. cbn.
    destruct key; reflexivity. }
  split.
  { intros path. unfold hypofile.HypoParser_parse.
    change (parse hypofile.DIRECTIVES hypofile.call [] None (Some path) __init__)
      with (Ok (_values hypofile.DIRECTIVES), @__init__ hypofile.deferred).
    reflexivity. }
  split; [intros V D DIRECTIVES key; apply values_binder|].
  intros V D DIRECTIVES static h Hstatic.
  destruct (values_objects_spec DIRECTIVES static h Hstatic)
    as (Hnew1 & Hderef1 & _).
  assert (Hstatic1 : statics_at DIRECTIVES static
                       (_values_objects DIRECTIVES static h).2).
  { intros d' v Hin Hinit. rewrite Hnew1.
    apply lookup_app_l_Some. exact (Hstatic d' v Hin Hinit). }
  destruct (values_objects_spec DIRECTIVES static _ Hstatic1)
    as (Hnew2 & _ & _).
  split; [split; [exact Hnew1|rewrite Hnew2, Hnew1; reflexivity]|].
  split; [exact Hderef1|].
  intros key d Hbinder.
  pose proof (values_objects_twice DIRECTIVES static h key d Hstatic Hbinder)
    as Htwice.
  destruct (init d) as [|v|f]; [exact Htwice|exact Htwice|].
  destruct Htwice as (a1 & a2 & Ha1 & Ha2 & Hlt & _ & Hobj2).
  exists a1, a2. split; [exact Ha1|]. split; [exact Ha2|].
  split; [exact Hlt|]. split; [exact Hobj2|].
  intros v. rewrite list_lookup_insert_ne by lia. exact Hobj2.
Qed.

(** A registry of one directive, [%target], to which [%preamble] is
    added with a callable initial value; and the test grammar, with the
    object [None] of [%target] at the first address of the heap: two
    dictionaries made one after the other share that object, and get
    each a list of its own for the preambles. *)
Lemma parse_empty_stream_witness :
  ("preamble" <> ""
   /\ odict.get
        (register [] (Static hypofile.VNone) (Some "target") None
           "target_directive" hypofile.target_directive) "preamble" = None
   /\ _values
        (register
           (register [] (Static hypofile.VNone) (Some "target") None
              "target_directive" hypofile.target_directive)
           (Callable (fun _ => hypofile.VList [])) (Some "preamble") None
           "PreambleDirective" hypofile.PreambleDirective__init__)
      !! Some "preamble" = Some (hypofile.VList []))
  /\ (statics_at hypofile.DIRECTIVES (fun _ => 0%nat) [hypofile.VNone]
      /\ exists a1 a2,
           (_values_objects hypofile.DIRECTIVES (fun _ => 0%nat)
              [hypofile.VNone]).1 !! Some "preamble" = Some a1
           /\ (_values_objects hypofile.DIRECTIVES (fun _ => 0%nat)
                 (_values_objects hypofile.DIRECTIVES (fun _ => 0%nat)
                    [hypofile.VNone]).2).1 !! Some "preamble" = Some a2
           /\ (1 <= a1 < a2)%nat).
Proof.
  split.
  - split; [discriminate|]. split; [reflexivity|].
    rewrite (proj1 (proj2 parse_empty_stream) _ _ _ _ "preamble");
      [|discriminate|reflexivity].
    cbn [default]. apply lookup_insert_eq.
  - assert (Hstatic : statics_at hypofile.DIRECTIVES (fun _ => 0%nat)
                        [hypofile.VNone]).
    { intros d v Hin Hinit. vm_compute in Hin.
      repeat (apply elem_of_cons in Hin as [->|Hin];
              [cbn in Hinit; first [discriminate Hinit
                                   |injection Hinit as <-; reflexivity]|]).
      inversion Hin. }
    split; [exact Hstatic|].
    destruct (proj2 (proj2 (proj2 (proj2 (proj2 (proj2 parse_empty_stream)))
                              _ _ hypofile.DIRECTIVES
                              (fun _ => 0%nat) [hypofile.VNone] Hstatic))
                (Some "preamble")
                (mk_Directive "preamble" (Some "preamble")
                   (Callable (fun _ => hypofile.VList []))
                   hypofile.PreambleDirective__init__) eq_refl)
      as (a1 & a2 & Ha1 & Ha2 & Hlt & _).
    exists a1, a2. split; [exact Ha1|]. split; [exact Ha2|exact Hlt].
Defined.

End values_facts.

Module mock_facts.

Import location linelist perfile hypofile spec.

Lemma sub_coord_self (c : Coordinate.t) :
  sub_coord c c
  = Ok (CoordinateRange.mk (Coordinate.path c) (Coordinate.lno c)
          (Coordinate.lno c)).
Proof.
  unfold sub_coord, Coordinate.__sub__.
  rewrite String.eqb_refl, Z.ltb_irrefl. reflexivity.
Qed.

Lemma add_to_last_snoc (type_ : list string) (s v : string) :
  add_to_last (type_ ++ [s]) v = Ok (type_ ++ [s +:+ v]).
Proof.
  induction type_ as [|t type_ IH]; [reflexivity|].
  cbn [app add_to_last]. rewrite IH.
  destruct type_; reflexivity.
Qed.

Lemma append_snoc_star (s : string) (n : nat) :
  (s +:+ "*") +:+ stars n = s +:+ stars (S n).
Proof. rewrite string_facts.str_app_assoc. reflexivity. Qed.

(** A word is always appended to the type as a new element. *)
Lemma make_type_loop_word (directive : string) (coord : Coordinate.t)
    (type_ : list string) (last_tok : option Token) (w : string)
    (rest : list Token) :
  make_type_loop directive coord type_ last_tok (mk_Token TOK_WORD w :: rest)
  = make_type_loop directive coord (type_ ++ [w])
      (Some (mk_Token TOK_WORD w)) rest.
Proof. destruct last_tok as [[[] v]|]; reflexivity. Qed.

(** An asterisk after a word is appended as a new element. *)
Lemma make_type_loop_star_after_word (directive : string)
    (coord : Coordinate.t) (type_ : list string) (w : string)
    (rest : list Token) :
  make_type_loop directive coord type_ (Some (mk_Token TOK_WORD w))
    (mk_Token TOK_CHAR "*" :: rest)
  = make_type_loop directive coord (type_ ++ ["*"])
      (Some (mk_Token TOK_CHAR "*")) rest.
Proof. reflexivity. Qed.

(** An asterisk after an asterisk goes onto the last element. *)
Lemma make_type_loop_star_after_star (directive : string)
    (coord : Coordinate.t) (type_ : list string) (s : string)
    (rest : list Token) :
  make_type_loop directive coord (type_ ++ [s]) (Some (mk_Token TOK_CHAR "*"))
    (mk_Token TOK_CHAR "*" :: rest)
  = make_type_loop directive coord (type_ ++ [s +:+ "*"])
      (Some (mk_Token TOK_CHAR "*")) rest.
Proof.
  cbn [make_type_loop].
  change (negb (bool_decide (perfile.type_ (mk_Token TOK_CHAR "*") = TOK_WORD))
          && negb (tok_is (mk_Token TOK_CHAR "*") TOK_CHAR "*")) with false.
  cbn match.
  change (bool_decide (is_Some (Some (mk_Token TOK_CHAR "*")))
          && bool_decide (perfile.type_ (mk_Token TOK_CHAR "*") = TOK_CHAR)
          && bool_decide (perfile.type_ <$> Some (mk_Token TOK_CHAR "*")
                          = Some TOK_CHAR)) with true.
  cbn match. rewrite add_to_last_snoc. reflexivity.
Qed.

(** After an asterisk, further asterisks go onto the last element of the
    type with no space in between. *)
Lemma make_type_loop_stars (directive : string) (coord : Coordinate.t)
    (n : nat) :
  forall (type_ : list string) (s : string),
    make_type_loop directive coord (type_ ++ [s])
      (Some (mk_Token TOK_CHAR "*")) (replicate n (mk_Token TOK_CHAR "*"))
    = Ok (type_ ++ [s +:+ stars n]).
Proof.
  induction n as [|n IH]; intros type_ s.
  - cbn. rewrite string_facts.str_app_nil_r. reflexivity.
  - cbn [replicate]. rewrite make_type_loop_star_after_star.
    rewrite IH, append_snoc_star. reflexivity.
Qed.

Lemma tokenize_loop_stars (n : nat) (buf : string) :
  tokenize_loop Idle buf (stars n)
  = (replicate n (mk_Token TOK_CHAR "*"), Idle, buf).
Proof.
  induction n as [|n IH]; [reflexivity|].
  cbn [stars tokenize_loop].
  change (tokenize_step Idle buf "*") with ([mk_Token TOK_CHAR "*"], Idle, buf).
  cbn match. rewrite IH. reflexivity.
Qed.

Lemma extract_sample_mock :
  _extract_type sample_mock_tokens _mock_type_delims
  = [([mk_Token TOK_WORD "struct"; mk_Token TOK_WORD "st_name";
       mk_Token TOK_CHAR "*"],
      Some (mk_Token TOK_WORD "func_name"), Some (mk_Token TOK_CHAR "("));
     ([mk_Token TOK_WORD "void"; mk_Token TOK_CHAR "*"],
      Some (mk_Token TOK_WORD "arg1"), Some (mk_Token TOK_CHAR ","));
     ([mk_Token TOK_WORD "int"],
      Some (mk_Token TOK_WORD "arg2"), Some (mk_Token TOK_CHAR ")"));
     ([], None, None)].
Proof. vm_compute. reflexivity. Qed.

Lemma sample_mock_args (start_coord : Coordinate.t) :
  mock_args_loop start_coord false []
    [([mk_Token TOK_WORD "void"; mk_Token TOK_CHAR "*"],
      Some (mk_Token TOK_WORD "arg1"), Some (mk_Token TOK_CHAR ","));
     ([mk_Token TOK_WORD "int"],
      Some (mk_Token TOK_WORD "arg2"), Some (mk_Token TOK_CHAR ")"));
     ([], None, None)]
  = Ok [mk_HypoMockArg "void *" "arg1"; mk_HypoMockArg "int" "arg2"].
Proof. vm_compute. reflexivity. Qed.

Lemma sample_mock_return_type (start_coord : Coordinate.t) :
  _make_type [mk_Token TOK_WORD "struct"; mk_Token TOK_WORD "st_name";
              mk_Token TOK_CHAR "*"] "mock" start_coord
  = Ok "struct st_name *".
Proof. vm_compute. reflexivity. Qed.

(** The [%mock] directive on the sample tokens, down to the two steps
    that depend on the coordinate and on the dictionary. *)
Lemma mock_sample_steps (values : gmap (option string) dict_value)
    (start_coord : Coordinate.t) :
  mock values start_coord sample_mock_tokens
  = (range <-r sub_coord start_coord start_coord ;;
     values <-r values_setitem values "mocks" "func_name"
                  (OMock (HypocriteMock.mk range "func_name" "struct st_name *"
                            [mk_HypoMockArg "void *" "arg1";
                             mk_HypoMockArg "int" "arg2"])) ;;
     Ok (None, values)).
Proof.
  unfold mock. rewrite extract_sample_mock.
  cbv iota beta.
  change (negb (bool_decide
                  (perfile.type_ (mk_Token TOK_WORD "func_name") = TOK_WORD))
          || String.eqb (value (mk_Token TOK_WORD "func_name")) ""
          || negb (bool_decide (Some (mk_Token TOK_CHAR "(")
                                = Some (tok TOK_CHAR "(")))) with false.
  cbv iota.
  rewrite sample_mock_return_type, sample_mock_args. reflexivity.
Qed.

(** C6. The sample [%mock] line stores, under its function name, a mock
    whose return type is the type string of the tokens before the name
    and whose arguments are the two typed names; the tokenizer yields
    one CHAR token for every asterisk, and the type string puts a space
    between a word and the asterisk after it and none between
    asterisks; a [%mock] with an empty or a [void] parameter list stores
    a mock without arguments. *)
Theorem mock_sample_directive :
  stored (HypoParser_parse
            [line_of "%mock struct st_name * func_name(void *arg1, int arg2)"]
            "test.hypo").1 "mocks" "func_name"
  = Some (OMock (HypocriteMock.mk (CoordinateRange.mk "test.hypo" 1 1)
                   "func_name" "struct st_name *"
                   [mk_HypoMockArg "void *" "arg1";
                    mk_HypoMockArg "int" "arg2"]))
  /\ (forall (values : gmap (option string) dict_value)
             (d : gmap string object) (start_coord : Coordinate.t),
        values !! Some "mocks" = Some (VDict d) ->
        _tokenize " struct st_name * func_name(void *arg1, int arg2)"
          start_coord = Ok sample_mock_tokens
        /\ mock values start_coord sample_mock_tokens
           = Ok (None,
                 <[Some "mocks" :=
                     VDict (<["func_name" :=
                                OMock (HypocriteMock.mk
                                         (CoordinateRange.mk
                                            (Coordinate.path start_coord)
                                            (Coordinate.lno start_coord)
                                            (Coordinate.lno start_coord))
                                         "func_name" "struct st_name *"
                                         [mk_HypoMockArg "void *" "arg1";
                                          mk_HypoMockArg "int" "arg2"])]> d)]>
                   values))
  /\ (forall (n : nat) (coord : Coordinate.t),
        _tokenize (stars n) coord = Ok (replicate n (mk_Token TOK_CHAR "*")))
  /\ (forall (w directive : string) (n : nat) (coord : Coordinate.t),
        _make_type (mk_Token TOK_WORD w
                      :: replicate (S n) (mk_Token TOK_CHAR "*"))
          directive coord
        = Ok (w +:+ " " +:+ stars (S n)))
  /\ stored (HypoParser_parse [line_of "%mock void foo()"] "test.hypo").1
       "mocks" "foo"
     = Some (OMock (HypocriteMock.mk (CoordinateRange.mk "test.hypo" 1 1)
                      "foo" "void" []))
  /\ stored (HypoParser_parse [line_of "%mock void foo(void)"] "test.hypo").1
       "mocks" "foo"
     = Some (OMock (HypocriteMock.mk (CoordinateRange.mk "test.hypo" 1 1)
                      "foo" "void" [])).
Proof.
  split; [vm_compute; reflexivity|].
  split.
  { intros values d start_coord Hmocks. split; [reflexivity|].
    rewrite mock_sample_steps, sub_coord_self. cbn [rbind].
    unfold values_setitem. rewrite Hmocks. reflexivity. }
  split.
  { intros n coord. unfold _tokenize. rewrite tokenize_loop_stars. reflexivity. }
  split.
  { intros w directive n coord. unfold _make_type.
    cbn [replicate].
    rewrite make_type_loop_word, make_type_loop_star_after_word.
    rewrite (make_type_loop_stars directive coord n ([] ++ [w]) "*").
    reflexivity. }
  split; vm_compute; reflexivity.
Qed.

(** The sample directive on line 12 of a file whose dictionary already
    holds a mock. *)
Lemma mock_sample_directive_witness :
  (<[Some "mocks" :=
       VDict {["old" := OMock (HypocriteMock.mk
                                 (CoordinateRange.mk "f.hypo" 3 3)
                                 "old" "void" [])]}]>
     (∅ : gmap (option string) dict_value)) !! Some "mocks"
  = Some (VDict {["old" := OMock (HypocriteMock.mk
                                    (CoordinateRange.mk "f.hypo" 3 3)
                                    "old" "void" [])]})
  /\ exists values',
      mock (<[Some "mocks" :=
                VDict {["old" := OMock (HypocriteMock.mk
                                          (CoordinateRange.mk "f.hypo" 3 3)
                                          "old" "void" [])]}]> ∅)
        (Coordinate.mk "f.hypo" 12) sample_mock_tokens
      = Ok (None, values').
Proof.
  split; [apply lookup_insert_eq|].
  eexists.
  apply (proj1 (proj2 mock_sample_directive)). apply lookup_insert_eq.
Defined.

End mock_facts.

Module parser_facts.

Import location linelist perfile spec.

Section Accumulate.
Context {V D : Type}.
Variable DIRECTIVES : registry V D.
Variable call : D -> values_dict V -> Coordinate.t -> LineList.t ->
                option (list Token) -> outcome V D.

Lemma parse_line_accumulate (coord : Coordinate.t) (line : string)
    (values : values_dict V) (k : D) (buf : LineList.t)
    (sc : option Coordinate.t) (lines : Z) :
  plain line ->
  _parse_line DIRECTIVES call coord line values
    (mk_parser (Some k) (Some buf) None None sc lines)
  = (Ok values,
     mk_parser (Some k)
       (Some (LineList.append buf (chomp line) (Some coord))) None None sc
       (lines + 1)).
Proof.
  intros Hplain. unfold _parse_line, M_bind, modify, gets, M_ret, set_lines.
  cbn [_deferred _comment_pfx _continued _buf _start_coord _lines].
  change (bool_decide (is_Some (@None string))) with false.
  cbn [orb]. rewrite Hplain. reflexivity.
Qed.

Lemma parse_loop_accumulate (path : string) (body : list string) :
  forall (lno : Z) (values : values_dict V) (k : D) (buf : LineList.t)
         (sc : option Coordinate.t) (lines : Z),
    Forall plain body ->
    parse_loop DIRECTIVES call path lno body values
      (mk_parser (Some k) (Some buf) None None sc lines)
    = (Ok values,
       mk_parser (Some k)
         (Some (LineList.mk (LineList._entries buf
                               ++ body_entries path (lno + 1) body)))
         None None sc (lines + Z.of_nat (length body))).
Proof.
  induction body as [|line body IH]; intros lno values k buf sc lines Hplain.
  - cbn. unfold M_ret, body_entries. cbn. rewrite app_nil_r, Z.add_0_r.
    destruct buf; reflexivity.
  - inversion Hplain as [|? ? Hline Hbody]; subst.
    cbn [parse_loop]. unfold M_bind at 1, except_Continue.
    rewrite parse_line_accumulate by exact Hline.
    rewrite IH by exact Hbody.
    assert (Hentries :
              LineList._entries
                (LineList.append buf (chomp line)
                   (Some (Coordinate.mk path (lno + 1))))
              ++ body_entries path (lno + 1 + 1) body
              = LineList._entries buf
                ++ body_entries path (lno + 1) (line :: body)).
    { unfold LineList.append, body_entries. cbn.
      rewrite <- app_assoc. cbn. rewrite Z.add_0_r. do 2 f_equal.
      apply imap_ext. intros i x _. cbn. do 3 f_equal. lia. }
    rewrite Hentries.
    replace (lines + 1 + Z.of_nat (length body))
      with (lines + Z.of_nat (length (line :: body)))
      by (cbn [length]; lia).
    reflexivity.
Qed.

Lemma parse_loop_app (path : string) (l1 l2 : list string) :
  forall (lno : Z) (values : values_dict V) (s : parser D),
    parse_loop DIRECTIVES call path lno (l1 ++ l2) values s
    = match parse_loop DIRECTIVES call path lno l1 values s with
      | (Ok values', s') =>
          parse_loop DIRECTIVES call path (lno + Z.of_nat (length l1)) l2
            values' s'
      | (Raise e, s') => (Raise e, s')
      end.
Proof.
  induction l1 as [|line l1 IH]; intros lno values s.
  - cbn. unfold M_ret. rewrite Z.add_0_r. reflexivity.
  - cbn [app parse_loop]. unfold M_bind.
    destruct (except_Continue _ _ s) as [[v|e] s']; [|reflexivity].
    rewrite IH. replace (lno + 1 + Z.of_nat (length l1)) with (lno + Z.of_nat (length (line :: l1))) by (cbn [length]; lia). reflexivity.
Qed.

End Accumulate.

End parser_facts.

Module fixture_facts.

Import location linelist perfile hypofile spec parser_facts.

Lemma header_line (path : string) (values : gmap (option string) dict_value) :
  _parse_line DIRECTIVES call (Coordinate.mk path 1)
    (line_of "%fixture int fix {") values __init__
  = (Ok values,
     mk_parser (Some (FixtureDirective__call__ (fix_self path)))
       (Some (LineList.mk [])) None None None 1).
Proof. vm_compute. reflexivity. Qed.

Lemma teardown_marker_line (coord : Coordinate.t)
    (values : gmap (option string) dict_value) (self : FixtureDirective.t)
    (buf : LineList.t) (lines : Z) :
  _parse_line DIRECTIVES call coord (line_of "%} teardown {") values
    (mk_parser (Some (FixtureDirective__call__ self)) (Some buf) None None
       None lines)
  = (Ok values,
     mk_parser
       (Some (FixtureDirective_teardown
                (FixtureDirective.mk (FixtureDirective.name self)
                   (FixtureDirective.type_ self)
                   (FixtureDirective.start_coord self) coord (Some buf))))
       (Some (LineList.mk [])) None None None (lines + 1)).
Proof. vm_compute. reflexivity. Qed.

Lemma parse_directive_close {D : Type} (coord : Coordinate.t)
    (d : option D) (b : option LineList.t) (lines : Z) :
  _parse_directive coord (line_of "%}") (mk_parser d b None None None lines)
  = (Ok (coord, [mk_Token TOK_CHAR "}"]), mk_parser d b None None None lines).
Proof. vm_compute. reflexivity. Qed.

Lemma close_marker_line (coord : Coordinate.t)
    (values : gmap (option string) dict_value) (k : deferred)
    (buf : LineList.t) (lines : Z) :
  _parse_line DIRECTIVES call coord (line_of "%}") values
    (mk_parser (Some k) (Some buf) None None None lines)
  = match call k values coord buf (Some []) with
    | Ok (k', values') =>
        (Ok values',
         mk_parser k'
           (match k' with Some _ => Some (LineList.mk []) | None => None end)
           None None None (lines + 1))
    | Raise e =>
        (Raise e, mk_parser (Some k) (Some buf) None None None (lines + 1))
    end.
Proof.
  unfold _parse_line, M_bind, modify, gets, M_ret, set_lines.
  cbn [_deferred _comment_pfx _continued _buf _start_coord _lines].
  change (bool_decide (@is_Some string None) || bool_decide (@is_Some string None)
          || py.startswith (py.lstrip (line_of "%}")) "%") with true.
  cbv beta iota. rewrite parse_directive_close.
  change (negb (tok_is (mk_Token TOK_CHAR "}") TOK_CHAR "}")) with false.
  cbv beta iota. cbn [_buf]. unfold lift.
  destruct (call k values coord buf (Some [])) as [[k' values']|e];
    [|reflexivity].
  destruct k'; reflexivity.
Qed.

(** The step of [FixtureDirective.teardown] on the closing marker. *)
Lemma teardown_call_close (self : FixtureDirective.t)
    (values : gmap (option string) dict_value) (d : gmap string object)
    (end_coord : Coordinate.t) (code buf : LineList.t) :
  values !! Some "fixtures" = Some (VDict d) ->
  Coordinate.path (FixtureDirective.start_coord self)
  = Coordinate.path end_coord ->
  FixtureDirective.code self = Some code ->
  call (FixtureDirective_teardown self) values end_coord buf (Some [])
  = Ok (None,
        <[Some "fixtures" :=
            VDict (<[FixtureDirective.name self :=
                       OFixture
                         (Fixture.mk
                            (CoordinateRange.mk
                               (Coordinate.path
                                  (FixtureDirective.start_coord self))
                               (Z.min
                                  (Coordinate.lno
                                     (FixtureDirective.start_coord self))
                                  (Coordinate.lno end_coord))
                               (Z.max
                                  (Coordinate.lno
                                     (FixtureDirective.start_coord self))
                                  (Coordinate.lno end_coord)))
                            (FixtureDirective.name self)
                            (FixtureDirective.type_ self) code (Some buf))]>
                     d)]> values).
Proof.
  intros Hfix Hpath Hcode.
  unfold call, FixtureDirective_teardown_call.
  rewrite (location_facts.sub_coord_same_path _ _ Hpath). cbn [rbind].
  rewrite Hcode. unfold values_setitem. rewrite Hfix. reflexivity.
Qed.

Lemma initial_fixtures :
  _values DIRECTIVES !! Some "fixtures" = Some (VDict ∅).
Proof. vm_compute. reflexivity. Qed.

Lemma parse_fixture_with_teardown (path : string) (body teardown : list string) :
  Forall plain body -> Forall plain teardown ->
  (HypoParser_parse
     ([line_of "%fixture int fix {"] ++ body ++ [line_of "%} teardown {"]
        ++ teardown ++ [line_of "%}"]) path).1
  = Ok (<[Some "fixtures" :=
            VDict (<["fix" :=
                       OFixture
                         (Fixture.mk
                            (CoordinateRange.mk path 1
                               (3 + Z.of_nat (length body)
                                + Z.of_nat (length teardown)))
                            "fix" (Some "int")
                            (LineList.mk (body_entries path 2 body))
                            (Some (LineList.mk
                                     (body_entries path
                                        (3 + Z.of_nat (length body))
                                        teardown))))]> ∅)]>
          (_values DIRECTIVES)).
Proof.
  intros Hbody Hteardown.
  unfold HypoParser_parse, parse.
  unfold M_bind at 1. unfold lift at 1. cbv iota.
  unfold M_bind at 1.
  rewrite parse_loop_app.
  cbn [parse_loop]. unfold M_bind at 1, except_Continue at 1.
  rewrite header_line. unfold M_ret at 1.
  rewrite parse_loop_app.
  rewrite parse_loop_accumulate by exact Hbody.
  rewrite parse_loop_app.
  cbn [parse_loop]. unfold M_bind at 1, except_Continue at 1.
  rewrite teardown_marker_line. unfold M_ret at 1.
  rewrite parse_loop_app.
  rewrite parse_loop_accumulate by exact Hteardown.
  cbn [parse_loop]. unfold M_bind at 1, except_Continue at 1.
  rewrite close_marker_line.
  erewrite teardown_call_close;
    [|apply initial_fixtures|reflexivity|reflexivity].
  unfold fix_self.
  cbn [FixtureDirective.name FixtureDirective.type_
       FixtureDirective.start_coord FixtureDirective.code
       Coordinate.path Coordinate.lno LineList._entries app length].
  rewrite Z.min_l, Z.max_r by lia.
  unfold M_ret, M_bind, gets, raise.
  cbn [_continued _comment_pfx _deferred _start_coord fst].
  change (bool_decide (is_Some (@None string))) with false.
  cbv beta iota. cbn [_comment_pfx].
  change (bool_decide (is_Some (@None string))) with false.
  cbv beta iota. cbn [_deferred fst].
  replace (0 + Z.of_nat 1 + Z.of_nat (length body) + Z.of_nat 1
           + Z.of_nat (length teardown) + 1)
    with (3 + Z.of_nat (length body) + Z.of_nat (length teardown)) by lia.
  replace (0 + Z.of_nat 1 + 1) with 2 by lia.
  replace (0 + Z.of_nat 1 + Z.of_nat (length body) + Z.of_nat 1 + 1)
    with (3 + Z.of_nat (length body)) by lia.
  reflexivity.
Qed.

(** C5. A [%fixture] directive whose closing marker carries the tokens
    [teardown] and brace chains: the call of the instance returns the
    bound [teardown] method and stores nothing, and the call of that
    method on the final marker stores, under the name of the fixture, a
    fixture whose code is the body handed to the first call and whose
    teardown is the body handed to the second.  Through the parser: after
    [%fixture int fix {], body lines, [%} teardown {], teardown lines and
    [%}], the fixture stored under [fix] carries the body lines as its
    code and the teardown lines as its teardown, each line with its own
    coordinate. *)
Theorem fixture_teardown_chains :
  (forall (self : FixtureDirective.t)
          (values : gmap (option string) dict_value) (d : gmap string object)
          (marker_coord end_coord : Coordinate.t) (body teardown : LineList.t),
      values !! Some "fixtures" = Some (VDict d) ->
      Coordinate.path (FixtureDirective.start_coord self)
      = Coordinate.path end_coord ->
      exists (chained : FixtureDirective.t) (stored : Fixture.t),
        call (FixtureDirective__call__ self) values marker_coord body
          (Some [tok TOK_WORD "teardown"; tok TOK_CHAR "{"])
        = Ok (Some (FixtureDirective_teardown chained), values)
        /\ call (FixtureDirective_teardown chained) values end_coord teardown
             (Some [])
           = Ok (None,
                 <[Some "fixtures" :=
                     VDict (<[FixtureDirective.name self := OFixture stored]> d)]>
                   values)
        /\ Fixture.name stored = FixtureDirective.name self
        /\ Fixture.return_type stored = FixtureDirective.type_ self
        /\ Fixture.code stored = body
        /\ Fixture.teardown stored = Some teardown)
  /\ (forall (path : string) (body teardown : list string),
        Forall plain body ->
        Forall plain teardown ->
        stored (HypoParser_parse
                  ([line_of "%fixture int fix {"] ++ body
                     ++ [line_of "%} teardown {"] ++ teardown
                     ++ [line_of "%}"]) path).1 "fixtures" "fix"
        = Some (OFixture
                  (Fixture.mk
                     (CoordinateRange.mk path 1
                        (3 + Z.of_nat (length body)
                         + Z.of_nat (length teardown)))
                     "fix" (Some "int")
                     (LineList.mk (body_entries path 2 body))
                     (Some (LineList.mk
                              (body_entries path (3 + Z.of_nat (length body))
                                 teardown)))))).
Proof.
  split.
  - intros self values d marker_coord end_coord body teardown Hfix Hpath.
    exists (FixtureDirective.mk (FixtureDirective.name self)
              (FixtureDirective.type_ self)
              (FixtureDirective.start_coord self) marker_coord (Some body)).
    eexists.
    split; [reflexivity|].
    split.
    + erewrite teardown_call_close; [|exact Hfix|exact Hpath|reflexivity].
      reflexivity.
    + repeat split; reflexivity.
  - intros path body teardown Hbody Hteardown.
    rewrite (parse_fixture_with_teardown path body teardown Hbody Hteardown).
    unfold stored. rewrite lookup_insert_eq. apply lookup_insert_eq.
Qed.

(** A fixture with two body lines and one teardown line. *)
Lemma fixture_teardown_chains_witness :
  Forall plain [line_of "  int x = open_it();"; line_of "  return x;"]
  /\ Forall plain [line_of "  close_it(fix);"]
  /\ exists f,
      stored (HypoParser_parse
                ([line_of "%fixture int fix {"]
                   ++ [line_of "  int x = open_it();"; line_of "  return x;"]
                   ++ [line_of "%} teardown {"]
                   ++ [line_of "  close_it(fix);"]
                   ++ [line_of "%}"]) "t.hypo").1 "fixtures" "fix"
      = Some (OFixture f)
      /\ LineList.__iter__ (Fixture.code f)
         = ["  int x = open_it();"; "  return x;"]
      /\ (LineList.__iter__ <$> Fixture.teardown f)
         = Some ["  close_it(fix);"].
Proof.
  assert (Hbody : Forall plain [line_of "  int x = open_it();";
                                line_of "  return x;"]).
  { repeat constructor. }
  assert (Hteardown : Forall plain [line_of "  close_it(fix);"]).
  { repeat constructor. }
  split; [exact Hbody|]. split; [exact Hteardown|].
  eexists. split.
  - apply (proj2 fixture_teardown_chains "t.hypo" _ _ Hbody Hteardown).
  - split; reflexivity.
Defined.

End fixture_facts.

Module subst_facts.

Import location linelist template spec string_facts.




Lemma lstrip_whitespace (ws s : string) :
  whitespace ws ->
  match s with String c _ => py.isspace c = false | "" => True end ->
  py.lstrip (ws +:+ s) = s.
Proof.
  intros Hws Hs. induction ws as [|c ws IH].
  - change ("" +:+ s) with s.
    destruct s as [|c s']; [reflexivity|].
    cbn [py.lstrip]. rewrite Hs. reflexivity.
  - unfold whitespace in Hws. cbn [str_forall] in Hws.
    apply andb_true_iff in Hws as [Hc Hws].
    rewrite str_app_cons. cbn [py.lstrip]. rewrite Hc. apply IH. exact Hws.
Qed.

Lemma lstrip_split (s : string) :
  exists ws, whitespace ws /\ s = ws +:+ py.lstrip s.
Proof.
  induction s as [|c s (ws & Hws & Hs)].
  - exists "". split; reflexivity.
  - cbn [py.lstrip]. destruct (py.isspace c) eqn:Hc.
    + exists (String c ws). split.
      * unfold whitespace. cbn [str_forall]. rewrite Hc. exact Hws.
      * rewrite str_app_cons. f_equal. exact Hs.
    + exists "". split; reflexivity.
Qed.


Lemma span_ident_split (s w r : string) :
  span_ident s = (w, r) -> s = w +:+ r /\ str_forall ident_char w = true.
Proof.
  revert w r. induction s as [|c s IH]; intros w r H.
  - cbn in H. injection H as <- <-. split; reflexivity.
  - cbn [span_ident] in H. destruct (ident_char c) eqn:Hc.
    + destruct (span_ident s) as [w' r'] eqn:E. injection H as <- <-.
      destruct (IH w' r' eq_refl) as [-> Hw'].
      split; [reflexivity|]. cbn [str_forall]. rewrite Hc. exact Hw'.
    + injection H as <- <-. split; reflexivity.
Qed.

Lemma skip_braces_inv (brace : ascii) (s rest : string) :
  skip_braces brace s = Some rest -> s = String brace (String brace rest).
Proof.
  destruct s as [|a [|b s']]; try discriminate.
  unfold skip_braces.
  destruct (Ascii.eqb_spec a brace) as [->|_]; [|discriminate].
  destruct (Ascii.eqb_spec b brace) as [->|_]; [|discriminate].
  cbn. intros [= ->]. reflexivity.
Qed.



Lemma match_occurrence (text var rest : string) :
  subst_match text = Some (var, rest) -> occurrence text var rest.
Proof.
  unfold subst_match. intros H.
  destruct (skip_braces "{" text) as [s1|] eqn:Hopen; [|discriminate].
  apply skip_braces_inv in Hopen as ->.
  destruct (lstrip_split s1) as (ws1 & Hws1 & Hs1).
  destruct (py.lstrip s1) as [|c s2]; [discriminate|].
  destruct (ident_start c) eqn:Hc; [|discriminate].
  destruct (span_ident s2) as [w s3] eqn:Hspan.
  apply span_ident_split in Hspan as [-> Hw].
  destruct (lstrip_split s3) as (ws2 & Hws2 & Hs3).
  destruct (skip_braces "}" (py.lstrip s3)) as [s4|] eqn:Hclose; [|discriminate].
  apply skip_braces_inv in Hclose. rewrite Hclose in Hs3.
  injection H as <- <-.
  rewrite Hs1, Hs3.
  change (String "{" (String "{"
            (ws1 +:+ String c (w +:+ ws2 +:+ String "}" (String "}" s4)))))
    with ("{{" +:+ ws1 +:+ String c w +:+ ws2 +:+ "}}" +:+ s4).
  constructor; [exact Hws1| split; assumption | exact Hws2].
Qed.

Lemma occurrence_shorter (text var rest : string) :
  occurrence text var rest -> (String.length rest < String.length text)%nat.
Proof.
  intros [ws1 v ws2 r _ _ _]. rewrite !str_length_app. cbn. lia.
Qed.




End subst_facts.

Module fuel_facts.

Import location linelist perfile template spec string_facts subst_facts.









Section Fuel.

Context {D : Type}.


End Fuel.

(** The scan of a substitution never uses up a fuel at or above the
    length of the text. *)
Lemma sub_scan_fuel (kwargs : gmap string kwvalue) (fuel1 : nat) :
  forall (fuel2 : nat) (text : string),
    (String.length text <= fuel1)%nat ->
    (String.length text <= fuel2)%nat ->
    sub_scan fuel1 kwargs text = sub_scan fuel2 kwargs text.
Proof.
  induction fuel1 as [|fuel1 IH]; intros fuel2 text H1 H2.
  - destruct text; [|cbn in H1; lia]. destruct fuel2; reflexivity.
  - destruct fuel2 as [|fuel2].
    { destruct text; [reflexivity|cbn in H2; lia]. }
    cbn [sub_scan]. destruct text as [|c text']; [reflexivity|].
    destruct (subst_match (String c text')) as [[var rest]|] eqn:Hmatch.
    + apply match_occurrence, occurrence_shorter in Hmatch.
      destruct (kwargs !! var); [|reflexivity].
      rewrite (IH fuel2 rest) by (cbn [String.length] in *; lia).
      reflexivity.
    + rewrite (IH fuel2 text') by (cbn [String.length] in *; lia).
      reflexivity.
Qed.

End fuel_facts.

Module section_facts.

Import location linelist template spec string_facts subst_facts.











Lemma occurrence_starts_with_brace (c : ascii) (text var rest : string) :
  occurrence (String c text) var rest -> c = "{"%char.
Proof.
  intros H. inversion H as [ws1 v ws2 r _ _ _ Heq]. reflexivity.
Qed.

(** A text without an opening brace is left as it is. *)
Lemma substituted_no_brace (kwargs : gmap string kwvalue) (text : string) :
  str_forall (fun c => negb (Ascii.eqb c "{")) text = true ->
  substituted kwargs text text.
Proof.
  induction text as [|c text IH]; intros H; [constructor|].
  cbn [str_forall] in H. apply andb_true_iff in H as [Hc H].
  apply negb_true_iff, Ascii.eqb_neq in Hc.
  apply substituted_keep; [|apply IH, H].
  intros var rest Hocc. apply Hc.
  exact (occurrence_starts_with_brace _ _ _ _ Hocc).
Qed.



(** The line bound to the name of a replace line is not spliced as a
    line when it is bound as a string: the section whose body is
    [#replace decl], rendered with the string [int x;] bound to [decl],
    gives six lines of one character each, not the line [int x;]. *)
Lemma replace_splices_characters :
  Section_.requires spliced_section ⊆ dom spliced_kwargs
  /\ Section_.render spliced_section spliced_kwargs
     = Ok (Some (LineList.mk
                   [mk_Entry None "i"; mk_Entry None "n"; mk_Entry None "t";
                    mk_Entry None " "; mk_Entry None "x"; mk_Entry None ";"])).
Proof.
  split.
  - intros x Hx. unfold spliced_section in Hx. cbn in Hx.
    apply elem_of_singleton in Hx. subst x.
    apply elem_of_dom. eexists. reflexivity.
  - unfold Section_.render.
    rewrite bool_decide_eq_true_2.
    + reflexivity.
    + apply set_eq. intros x. split; [|intros Hx; inversion Hx].
      intros Hx. apply elem_of_difference in Hx as [Hx Hn].
      unfold spliced_section in Hx. cbn in Hx.
      apply elem_of_singleton in Hx. subst x.
      exfalso. apply Hn. apply elem_of_dom. eexists. reflexivity.
Qed.

End section_facts.

Module error_facts.

Import location linelist perfile spec string_facts.

Lemma located_intro (path pre : string) (c : Coordinate.t) :
  Coordinate.path c = path ->
  located path (ParseException (pre +:+ Coordinate.__str__ c)).
Proof. intros Hc. exists pre, c. split; [exact Hc|reflexivity]. Qed.

Lemma located_parse_failure (path : string) (e : exn) :
  located path e -> exists msg, e = ParseException msg.
Proof. intros (pre & c & _ & ->). eauto. Qed.

Lemma located_has_colon (path : string) (e : exn) :
  located path e ->
  exists a b, e = ParseException (a +:+ String ":" b).
Proof.
  intros (pre & c & _ & ->). unfold Coordinate.__str__.
  exists (pre +:+ Coordinate.path c), (py.fmt_d (Coordinate.lno c)).
  rewrite !str_app_assoc. reflexivity.
Qed.

Lemma no_colon_split (s : string) :
  str_forall (fun c => negb (Ascii.eqb c ":")) s = true ->
  forall a b, s <> a +:+ String ":" b.
Proof.
  induction s as [|c s IH]; intros Hs a b Heq.
  - destruct a; discriminate Heq.
  - cbn [str_forall] in Hs. apply andb_true_iff in Hs as [Hc Hs].
    destruct a as [|d a].
    + injection Heq as -> _. discriminate Hc.
    + rewrite str_app_cons in Heq. injection Heq as _ Heq.
      exact (IH Hs a b Heq).
Qed.

(** ** A weakest-precondition reading of the parser monad *)

Section Post.

Context {D : Type}.

(** [post m s Q E]: run from [s], [m] returns a value and a state that
    satisfy [Q], or raises an exception in a state that satisfy [E]. *)
Definition post {A} (m : M D A) (s : parser D)
    (Q : A -> parser D -> Prop) (E : exn -> parser D -> Prop) : Prop :=
  match m s with
  | (Ok a, s') => Q a s'
  | (Raise e, s') => E e s'
  end.

Lemma post_bind {A B} (m : M D A) (f : A -> M D B) s Q E :
  post m s (fun a s' => post (f a) s' Q E) E -> post (M_bind m f) s Q E.
Proof.
  unfold post, M_bind. destruct (m s) as [[a|e] s']; intros H; exact H.
Qed.

Lemma post_ret {A} (a : A) s (Q : A -> parser D -> Prop) E :
  Q a s -> post (M_ret a) s Q E.
Proof. intros H; exact H. Qed.

Lemma post_raise {A} (e : exn) s (Q : A -> parser D -> Prop)
    (E : exn -> parser D -> Prop) :
  E e s -> post (raise e) s Q E.
Proof. intros H; exact H. Qed.

Lemma post_gets {A} (f : parser D -> A) s Q E :
  Q (f s) s -> post (gets f) s Q E.
Proof. intros H; exact H. Qed.

Lemma post_modify (f : parser D -> parser D) s Q E :
  Q tt (f s) -> post (modify f) s Q E.
Proof. intros H; exact H. Qed.

Lemma post_lift {A} (r : res A) s (Q : A -> parser D -> Prop) E :
  match r with Ok a => Q a s | Raise e => E e s end -> post (lift r) s Q E.
Proof. unfold post, lift. destruct r; intros H; exact H. Qed.

Lemma post_weaken {A} (m : M D A) s (Q Q' : A -> parser D -> Prop)
    (E E' : exn -> parser D -> Prop) :
  post m s Q E ->
  (forall a s', Q a s' -> Q' a s') ->
  (forall e s', E e s' -> E' e s') ->
  post m s Q' E'.
Proof.
  unfold post. destruct (m s) as [[a|e] s']; intros H HQ HE; auto.
Qed.

End Post.

Ltac wp_step :=
  lazymatch goal with
  | |- post (M_bind _ _) _ _ _ => apply post_bind
  | |- post (gets _) _ _ _ => apply post_gets
  | |- post (modify _) _ _ _ => apply post_modify
  | |- post (M_ret _) _ _ _ => apply post_ret
  | |- post (raise _) _ _ _ => apply post_raise
  | |- post (lift _) _ _ _ => apply post_lift
  | |- post (note_start_coord _) _ _ _ =>
      unfold note_start_coord; apply post_modify
  | |- post (invalid_directive _) _ _ _ =>
      unfold invalid_directive; apply post_raise
  | |- post (set_deferred_and_buf _) _ _ _ => unfold set_deferred_and_buf
  end.

Ltac wp :=
  repeat wp_step;
  unfold set_deferred, set_buf, set_comment_pfx, set_continued,
    set_start_coord, set_lines;
  cbn [_deferred _buf _comment_pfx _continued _start_coord _lines].

(** A message that ends with a coordinate of the file. *)
Ltac loc :=
  apply located_intro; solve [assumption | reflexivity | congruence | eauto].

Section Generic.

Context {V D : Type}.
Variable DIRECTIVES : registry V D.
Variable call : D -> values_dict V -> Coordinate.t -> LineList.t ->
                option (list Token) -> outcome V D.
Variable path : string.

(** The coordinate a pending comment or continuation started at is on
    record, and is a coordinate of the file. *)
Definition wf_line (s : parser D) : Prop :=
  (is_Some (_continued s) \/ is_Some (_comment_pfx s) ->
   is_Some (_start_coord s))
  /\ (forall c, _start_coord s = Some c -> Coordinate.path c = path).

Definition same_dispatch (s s' : parser D) : Prop :=
  _deferred s' = _deferred s /\ _buf s' = _buf s /\ _lines s' = _lines s.

Definition clean (s : parser D) : Prop :=
  _continued s = None /\ _comment_pfx s = None /\ _start_coord s = None.

Lemma strip_comments_post (coord : Coordinate.t) (fuel : nat) :
  Coordinate.path coord = path ->
  forall (line : string) (s : parser D),
    _continued s = None ->
    (forall c, _start_coord s = Some c -> Coordinate.path c = path) ->
    post (strip_comments fuel coord line) s
      (fun _ s' => s' = s)
      (fun e s' => e = Continue /\ same_dispatch s s' /\ wf_line s').
Proof.
  intros Hpath. induction fuel as [|fuel IH]; intros line s Hcont Hstart.
  - reflexivity.
  - cbn [strip_comments].
    destruct (filter _ _) as [|p ps]; [reflexivity|].
    destruct (String.eqb _ "//"); [reflexivity|].
    destruct (_ <? 0).
    + destruct s as [d b cp ct sc l]. cbn in Hcont, Hstart. subst ct.
      wp. split; [reflexivity|].
      destruct sc as [c|]; (split; [repeat split|]); split; cbn;
        try (intros _; eauto).
      * exact Hstart.
      * intros c [= <-]. exact Hpath.
    + apply IH; assumption.
Qed.

Lemma parse_directive_post (coord : Coordinate.t) (line : string)
    (s : parser D) :
  Coordinate.path coord = path ->
  wf_line s ->
  post (_parse_directive coord line) s
    (fun r s' =>
       Coordinate.path r.1 = path /\ same_dispatch s s' /\ clean s')
    (fun e s' =>
       (e = Continue /\ same_dispatch s s' /\ wf_line s') \/ located path e).
Proof.
  intros Hpath [Hpending Hstart].
  destruct s as [d b cp ct sc l]. cbn in Hpending, Hstart.
  unfold _parse_directive. wp.
  (* the continuation *)
  set (line1 := match ct with Some c => c +:+ " " +:+ line | None => line end).
  apply (post_weaken _ _
           (fun a s' => a = line1 /\ s' = mk_parser d b cp None sc l)
           _ (fun _ _ => False)).
  { destruct ct; wp; split; reflexivity. }
  2:{ intros ? ? []. }
  intros ? ? [-> ->]. wp.
  (* the hanging comment *)
  apply (post_weaken _ _
           (fun _ s' => s' = mk_parser d b None None sc l)
           _
           (fun e s' =>
              (e = Continue
               /\ same_dispatch (mk_parser d b cp ct sc l) s' /\ wf_line s')
              \/ located path e)).
  { destruct cp as [pfx|]; [|wp; reflexivity].
    destruct (py.find line1 "*/" 0 <? 0); wp; [|reflexivity].
    left. split; [reflexivity|]. split; [repeat split|].
    split; cbn; [intros _; apply Hpending; right; eauto|exact Hstart]. }
  2:{ intros e s' H; exact H. }
  intros line2 ? ->. wp.
  (* the other comments of the line *)
  eapply post_weaken;
    [exact (strip_comments_post coord _ Hpath line2
              (mk_parser d b None None sc l) eq_refl Hstart)| |].
  2:{ intros e s' (-> & Hsame & Hwf). left. split; [reflexivity|].
      split; [exact Hsame|exact Hwf]. }
  intros line3 ? ->.
  destruct (py.strip line3) as [|first rest] eqn:Hstrip.
  { wp. left. split; [reflexivity|]. split; [repeat split|].
    split; cbn; [|exact Hstart].
    intros [[? H]|[? H]]; discriminate H. }
  destruct (bool_decide (py.last_char (String first rest) = Some "\"%char)).
  { wp. left. split; [reflexivity|].
    destruct sc as [c|]; (split; [repeat split|]); split; cbn;
      try (intros _; eauto).
    - exact Hstart.
    - intros c [= <-]. exact Hpath. }
  wp.
  apply (post_weaken _ _
           (fun c s' =>
              Coordinate.path c = path /\ s' = mk_parser d b None None None l)
           _ (fun _ _ => False)).
  { destruct sc as [c|]; wp; (split; [|reflexivity]).
    - apply Hstart. reflexivity.
    - exact Hpath. }
  2:{ intros ? ? []. }
  intros c ? [Hc ->].
  destruct (negb (Ascii.eqb first "%")).
  { wp. right. loc. }
  wp. destruct (_tokenize rest c) as [toks|e] eqn:Htok.
  - wp. split; [exact Hc|]. split; repeat split.
  - right. unfold _tokenize in Htok.
    destruct (tokenize_loop Idle "" rest) as [[toks st] buf].
    destruct st; try discriminate Htok.
    injection Htok as <-. loc.
Qed.

(** The handlers of the grammar keep the values dictionary and the
    callables they return well formed ([wfV], [wfD]), and raise nothing
    but located parse failures and the exceptions of the libraries they
    call ([foreign]), which are not those of the parser. *)
Variable wfV : values_dict V -> Prop.
Variable wfD : D -> Prop.
Variable foreign : exn -> Prop.

Hypothesis foreign_not_Continue : ~ foreign Continue.

Definition handler_post (r : outcome V D) : Prop :=
  match r with
  | Ok (k, values') => wfV values' /\ (forall k', k = Some k' -> wfD k')
  | Raise e => located path e
  end.

Definition handler_post_or (r : outcome V D) : Prop :=
  match r with
  | Ok (k, values') => wfV values' /\ (forall k', k = Some k' -> wfD k')
  | Raise e => located path e \/ foreign e
  end.

Lemma handler_post_or_intro (r : outcome V D) :
  handler_post r -> handler_post_or r.
Proof. destruct r as [[k values]|e]; [auto|]. intros H. left. exact H. Qed.

Hypothesis impl_located :
  forall name d values coord toks,
    odict.get DIRECTIVES name = Some d ->
    wfV values -> Coordinate.path coord = path ->
    handler_post_or (impl d values coord toks).

Hypothesis call_located :
  forall k values coord buf toks,
    wfD k -> wfV values -> Coordinate.path coord = path ->
    handler_post_or (call k values coord buf toks).

Definition wf_deferred (s : parser D) : Prop :=
  match _deferred s with
  | Some k => wfD k /\ is_Some (_buf s)
  | None => True
  end.

Definition inv (s : parser D) : Prop := wf_line s /\ wf_deferred s.

Lemma wf_deferred_same (s s' : parser D) :
  same_dispatch s s' -> wf_deferred s -> wf_deferred s'.
Proof.
  intros (Hd & Hb & _). unfold wf_deferred. rewrite Hd, Hb. auto.
Qed.

Lemma wf_line_clean (s : parser D) : clean s -> wf_line s.
Proof.
  intros (Hct & Hcp & Hsc). split.
  - rewrite Hct, Hcp. intros [[? H]|[? H]]; discriminate H.
  - rewrite Hsc. intros c H; discriminate H.
Qed.

Lemma parse_line_post (coord : Coordinate.t) (line : string)
    (values : values_dict V) (s : parser D) :
  Coordinate.path coord = path ->
  inv s -> wfV values ->
  post (_parse_line DIRECTIVES call coord line values) s
    (fun values' s' => wfV values' /\ inv s')
    (fun e s' =>
       (e = Continue /\ wfV values /\ inv s') \/ located path e \/ foreign e).
Proof.
  intros Hpath [Hline Hdef] HV.
  destruct s as [d b cp ct sc l].
  unfold _parse_line. wp.
  destruct d as [k|].
  - (* accumulating lines, or the end of the directive *)
    destruct Hdef as [Hk [buf Hbuf]]. cbn in Hbuf. subst b.
    destruct (_ || _ || _).
    + wp.
      eapply post_weaken;
        [exact (parse_directive_post coord line
                  (mk_parser (Some k) (Some buf) cp ct sc (l + 1)) Hpath Hline)
        | |].
      2:{ intros e s' [(-> & Hsame & Hwf)|Hloc]; [left|right; left; exact Hloc].
          split; [reflexivity|]. split; [exact HV|].
          split; [exact Hwf|].
          apply (wf_deferred_same _ _ Hsame). split; [exact Hk|eauto]. }
      intros [dir_coord tokens] s' (Hc & (Hd & Hb & Hl) & Hclean).
      destruct s' as [d' b' cp' ct' sc' l'].
      cbn in Hc, Hd, Hb, Hl. subst d' b' l'.
      destruct Hclean as (Hct & Hcp & Hsc). cbn in Hct, Hcp, Hsc.
      subst ct' cp' sc'.
      destruct tokens as [|tok rest]; [wp; right; left; loc|].
      destruct (negb (tok_is tok TOK_CHAR "}"));
        [wp; right; left; loc|].
      wp.
      pose proof (call_located k values dir_coord buf (Some rest) Hk HV Hc)
        as Hcall.
      destruct (call k values dir_coord buf (Some rest)) as [[k' values']|e];
        [|right; exact Hcall].
      destruct Hcall as [HV' Hk'].
      wp. split; [exact HV'|]. split.
      * apply wf_line_clean. repeat split.
      * unfold wf_deferred. cbn. destruct k' as [k'|]; [|exact I].
        split; [apply Hk'; reflexivity|eauto].
    + wp. split; [exact HV|]. split; [exact Hline|].
      split; [exact Hk|cbn; eauto].
  - (* looking for a directive *)
    wp.
    eapply post_weaken;
      [exact (parse_directive_post coord line
                (mk_parser None b cp ct sc (l + 1)) Hpath Hline)
      | |].
    2:{ intros e s' [(-> & Hsame & Hwf)|Hloc]; [left|right; left; exact Hloc].
        split; [reflexivity|]. split; [exact HV|].
        split; [exact Hwf|].
        apply (wf_deferred_same _ _ Hsame). exact I. }
    intros [dir_coord tokens] s' (Hc & (Hd & Hb & Hl) & Hclean).
    destruct s' as [d' b' cp' ct' sc' l'].
    cbn in Hc, Hd, Hb, Hl. subst d' b' l'.
    destruct Hclean as (Hct & Hcp & Hsc). cbn in Hct, Hcp, Hsc.
    subst ct' cp' sc'.
    destruct tokens as [|tok rest]; [wp; right; left; loc|].
    destruct (negb (bool_decide (type_ tok = TOK_WORD)));
      [wp; right; left; loc|].
    destruct (odict.get DIRECTIVES (value tok)) as [dir|] eqn:Hget;
      [|wp; right; left; loc].
    wp. unfold Directive__call__.
    pose proof (impl_located _ dir values dir_coord rest Hget HV Hc) as Himpl.
    destruct (impl dir values dir_coord rest) as [[k' values']|e];
      [|right; exact Himpl].
    destruct Himpl as [HV' Hk'].
    wp. split; [exact HV'|]. split.
    + apply wf_line_clean. repeat split.
    + unfold wf_deferred. cbn. destruct k' as [k'|]; [|exact I].
      split; [apply Hk'; reflexivity|eauto].
Qed.

Lemma parse_loop_post (stream : list string) :
  forall (lno : Z) (values : values_dict V) (s : parser D),
    inv s -> wfV values ->
    post (parse_loop DIRECTIVES call path lno stream values) s
      (fun values' s' => wfV values' /\ inv s')
      (fun e _ => located path e \/ foreign e).
Proof.
  induction stream as [|line stream IH]; intros lno values s Hinv HV.
  - split; assumption.
  - cbn [parse_loop]. apply post_bind.
    pose proof (parse_line_post (Coordinate.mk path (lno + 1)) line values s
                  eq_refl Hinv HV) as Hline.
    unfold post in Hline |- *. unfold except_Continue.
    destruct (_parse_line _ _ _ _ _ s) as [[values'|e] s'].
    + destruct Hline as [HV' Hinv']. apply IH; assumption.
    + destruct Hline as [(-> & HV' & Hinv')|Hloc].
      * apply IH; assumption.
      * destruct e; try exact Hloc.
        destruct Hloc as [(pre & c & _ & Hloc)|Hforeign];
          [discriminate Hloc|].
        destruct (foreign_not_Continue Hforeign).
Qed.

(** Every exception of a parse is a located parse failure, but for the
    complaint the parser itself makes when a callable called at the end
    of the file returns. *)
Lemma parse_post (stream : list string) :
  wfV (_values DIRECTIVES) ->
  post (parse DIRECTIVES call stream None (Some path)) __init__
    (fun values' _ => wfV values')
    (fun e _ =>
       located path e \/ foreign e
       \/ (e = ParseException "Unclosed directive at end of file"
           /\ exists k values coord buf r,
               call k values coord buf None = Ok r)).
Proof.
  intros HV. unfold parse. wp.
  eapply post_weaken;
    [apply (parse_loop_post stream 0 (_values DIRECTIVES) __init__)| |].
  - split; [apply wf_line_clean; repeat split|exact I].
  - exact HV.
  - intros values [d b cp ct sc l] [HV' [[Hpending Hstart] Hdef]].
    cbn in Hpending, Hstart. unfold wf_deferred in Hdef. cbn in Hdef.
    wp.
    destruct ct as [ct|].
    { rewrite bool_decide_eq_true_2 by eauto. wp. left.
      destruct Hpending as [c ->]; [left; eauto|].
      apply located_intro, Hstart. reflexivity. }
    rewrite bool_decide_eq_false_2 by (intros [? H]; discriminate H).
    wp.
    destruct cp as [cp|].
    { rewrite bool_decide_eq_true_2 by eauto. wp. left.
      destruct Hpending as [c ->]; [right; eauto|].
      apply located_intro, Hstart. reflexivity. }
    rewrite bool_decide_eq_false_2 by (intros [? H]; discriminate H).
    wp.
    destruct d as [k|]; [|wp; exact HV'].
    destruct Hdef as [Hk [buf ->]]. wp.
    pose proof (call_located k values (Coordinate.mk path l) buf None Hk HV'
                  eq_refl) as Hcall.
    destruct (call k values (Coordinate.mk path l) buf None)
      as [[k' values']|e] eqn:Hcalled.
    + wp. right. right. split; [reflexivity|]. eauto 6.
    + destruct Hcall as [Hloc|Hforeign]; [left|right; left]; assumption.
  - intros e s' [Hloc|Hforeign]; [left|right; left]; assumption.
Qed.

End Generic.

(** The complaint of the parser itself names no location: with a
    callable that returns at the end of the file, the parse of an open
    block raises it. *)
Lemma unclosed_directive_not_located :
  parse quiet_DIRECTIVES quiet_call [line_of "%block {"] None (Some "t.hypo")
    __init__
  = (Raise (ParseException "Unclosed directive at end of file"),
     mk_parser (Some tt) (Some (LineList.__init__ None None)) None None None 1)
  /\ forall path : string,
       ~ located path (ParseException "Unclosed directive at end of file").
Proof.
  split; [vm_compute; reflexivity|].
  intros path Hloc. apply located_has_colon in Hloc as (a & b & Heq).
  injection Heq as Heq.
  exact (no_colon_split "Unclosed directive at end of file" eq_refl a b Heq).
Qed.

End error_facts.

Module hypo_error_facts.

Import location linelist perfile hypofile spec string_facts error_facts.

Lemma wf_values_insert_other (values : gmap (option string) dict_value)
    (key : option string) (v : dict_value) :
  key <> Some "preamble" -> key <> Some "tests" -> key <> Some "mocks" ->
  key <> Some "fixtures" ->
  wf_values values -> wf_values (<[key := v]> values).
Proof.
  intros H1 H2 H3 H4 (Hp & Ht & Hm & Hf). unfold wf_values.
  rewrite !lookup_insert_ne by assumption. auto.
Qed.

Lemma values_append_ok (values : gmap (option string) dict_value) (x : object) :
  wf_values values ->
  exists values',
    values_append values "preamble" x = Ok values' /\ wf_values values'.
Proof.
  intros ([l Hp] & Ht & Hm & Hf). unfold values_append. rewrite Hp.
  eexists. split; [reflexivity|]. unfold wf_values.
  rewrite lookup_insert_eq, !lookup_insert_ne by discriminate. eauto.
Qed.

Lemma values_setitem_ok (values : gmap (option string) dict_value)
    (key name : string) (x : object) :
  wf_values values ->
  key = "tests" \/ key = "mocks" \/ key = "fixtures" ->
  exists values',
    values_setitem values key name x = Ok values' /\ wf_values values'.
Proof.
  intros ([l Hp] & Ht & Hm & Hf) Hkey. unfold values_setitem.
  assert (Hd : dictlike (values !! Some key)).
  { destruct Hkey as [->|[->| ->]]; assumption. }
  destruct (values !! Some key) as [[| | |d|d]|] eqn:Hv; try destruct Hd.
  - eexists. split; [reflexivity|]. unfold wf_values.
    destruct Hkey as [->|[->| ->]];
      rewrite ?lookup_insert_eq, ?lookup_insert_ne by discriminate;
      cbn; eauto.
  - eexists. split; [reflexivity|]. unfold wf_values.
    destruct Hkey as [->|[->| ->]];
      rewrite ?lookup_insert_eq, ?lookup_insert_ne by discriminate;
      cbn; eauto.
Qed.

Lemma add_to_last_ok (type_ : list string) (v : string) :
  type_ <> [] -> exists r, add_to_last type_ v = Ok r /\ r <> [].
Proof.
  induction type_ as [|s type_ IH]; [contradiction|]. intros _.
  destruct type_ as [|s' type_].
  - eexists. split; [reflexivity|discriminate].
  - destruct IH as (r & Hr & Hne); [discriminate|].
    cbn [add_to_last] in Hr |- *. rewrite Hr. eexists.
    split; [reflexivity|discriminate].
Qed.

Lemma py_index_in_range {A} (l : list A) (i : Z) :
  - Z.of_nat (length l) <= i < Z.of_nat (length l) ->
  exists x, py.index l i = Ok x.
Proof.
  intros Hi. unfold py.index.
  set (i' := if i <? 0 then i + Z.of_nat (length l) else i).
  assert (Hi' : 0 <= i' < Z.of_nat (length l)).
  { unfold i'. destruct (Z.ltb_spec i 0); lia. }
  destruct (Z.ltb_spec i' 0); [lia|].
  destruct (lookup_lt_is_Some_2 l (Z.to_nat i')) as [x ->]; [lia|].
  eauto.
Qed.

Lemma extract_type_name (toks : list Token) (delims : gset Token) :
  Forall (fun x : list Token * option Token * option Token =>
            x.1.2 = None -> x.1.1 = [])
    (_extract_type toks delims).
Proof.
  unfold _extract_type. apply Forall_fmap, Forall_forall.
  intros [stack delim] _. cbn. intros Hlast.
  apply last_None in Hlast. subst stack. reflexivity.
Qed.

(** Called at the end of the file, every callable complains. *)
Lemma call_at_eof (k : deferred) (values : gmap (option string) dict_value)
    (coord : Coordinate.t) (buf : LineList.t) :
  exists e, call k values coord buf None = Raise e.
Proof. destruct k; eexists; reflexivity. Qed.

Lemma wf_values_initial : wf_values (_values DIRECTIVES).
Proof.
  unfold wf_values. split; [eexists; vm_compute; reflexivity|].
  repeat split; vm_compute; exact I.
Qed.

Section Handlers.

Variable path : string.

Lemma parse_error_located {A} (pre : string) (c : Coordinate.t) (e : exn) :
  Coordinate.path c = path -> @parse_error A pre c = Raise e -> located path e.
Proof. intros Hc [= <-]. apply located_intro, Hc. Qed.

Lemma make_type_loop_located (directive : string) (coord : Coordinate.t)
    (toks : list Token) :
  Coordinate.path coord = path ->
  forall (type_ : list string) (last_tok : option Token) (e : exn),
    (is_Some last_tok -> type_ <> []) ->
    make_type_loop directive coord type_ last_tok toks = Raise e ->
    located path e.
Proof.
  intros Hpath.
  induction toks as [|tok toks IH]; intros type_ last_tok e Hlast H;
    [discriminate H|].
  cbn [make_type_loop] in H.
  destruct (negb _ && negb _).
  { injection H as <-.
    exists ("Invalid %" +:+ directive +:+ " directive at "), coord.
    split; [exact Hpath|]. rewrite !str_app_assoc. reflexivity. }
  destruct (bool_decide (is_Some last_tok) && _ && _) eqn:Hcond.
  - apply andb_true_iff in Hcond as [Hcond _].
    apply andb_true_iff in Hcond as [Hsome _].
    apply bool_decide_eq_true_1 in Hsome.
    destruct (add_to_last_ok type_ (value tok) (Hlast Hsome))
      as (r & Hr & Hne).
    rewrite Hr in H. cbn [rbind] in H.
    apply (IH r (Some tok) e); [intros _; exact Hne|exact H].
  - cbn [rbind] in H.
    apply (IH (type_ ++ [value tok]) (Some tok) e); [|exact H].
    intros _. destruct type_; discriminate.
Qed.

Lemma make_type_located (toks : list Token) (directive : string)
    (coord : Coordinate.t) (e : exn) :
  Coordinate.path coord = path ->
  _make_type toks directive coord = Raise e -> located path e.
Proof.
  unfold _make_type. intros Hpath H.
  destruct (make_type_loop directive coord [] None toks) as [r|e'] eqn:Hloop;
    [discriminate H|].
  injection H as <-.
  apply (make_type_loop_located directive coord toks Hpath [] None e');
    [|exact Hloop].
  intros [? H]; discriminate H.
Qed.

Ltac raise_cases H :=
  repeat first
    [ discriminate H
    | solve [eapply parse_error_located; [|exact H]; assumption]
    | match type of H with
      | rbind ?m _ = Raise _ =>
          let E := fresh "E" in
          destruct m eqn:E; cbn [rbind] in H
      | (if ?b then _ else _) = Raise _ => destruct b
      | (match ?x with _ => _ end) = Raise _ => destruct x
      | (let '(_, _) := ?x in _) = Raise _ => destruct x
      end ].

Lemma mock_args_loop_located (start_coord : Coordinate.t)
    (type_iter : list (list Token * option Token * option Token)) :
  Coordinate.path start_coord = path ->
  forall (end_expected : bool) (args : list HypoMockArg) (e : exn),
    mock_args_loop start_coord end_expected args type_iter = Raise e ->
    located path e.
Proof.
  intros Hpath.
  induction type_iter as [|[[type_ name] delim] rest IH];
    intros end_expected args e H; [discriminate H|].
  cbn [mock_args_loop] in H.
  raise_cases H; try (injection H as <-); eauto using make_type_located.
Qed.

Lemma test_fixtures_loop_located (start_coord : Coordinate.t)
    (stacks : list (list Token)) :
  Coordinate.path start_coord = path ->
  forall (fixtures : list HypoFixtureInjection) (e : exn),
    test_fixtures_loop start_coord fixtures stacks = Raise e ->
    located path e.
Proof.
  intros Hpath.
  induction stacks as [|fix_toks stacks IH]; intros fixtures e H;
    [discriminate H|].
  cbn [test_fixtures_loop] in H.
  destruct (bool_decide (length fix_toks < 1)%nat) eqn:Hlen;
    [exact (parse_error_located _ _ _ Hpath H)|].
  cbn [orb] in H.
  destruct (bool_decide (2 < length fix_toks)%nat);
    [exact (parse_error_located _ _ _ Hpath H)|].
  apply bool_decide_eq_false_1 in Hlen.
  destruct (py_index_in_range fix_toks 0) as [first Hfirst]; [lia|].
  rewrite Hfirst in H. cbn [rbind] in H.
  raise_cases H; eauto.
Qed.

(** What a handler of the test grammar returns or raises. *)
Definition handled (r : outcome dict_value deferred) : Prop :=
  handler_post path wf_values (wf_callable path) r.

Lemma target_directive_located values coord toks :
  wf_values values -> Coordinate.path coord = path ->
  handled (target_directive values coord toks).
Proof.
  intros HV Hpath. unfold handled, target_directive.
  destruct toks as [|t [|? ?]]; try loc.
  destruct (_ || _); [loc|].
  split; [|intros k' H; discriminate H].
  apply wf_values_insert_other; try discriminate. exact HV.
Qed.

Lemma PreambleDirective_init_located values coord toks :
  wf_values values -> Coordinate.path coord = path ->
  handled (PreambleDirective__init__ values coord toks).
Proof.
  intros HV Hpath. unfold handled, PreambleDirective__init__.
  destruct toks as [|t [|? ?]]; try loc.
  destruct (negb _); [loc|].
  split; [exact HV|]. intros k' [= <-]. exact Hpath.
Qed.

Lemma mock_located values coord toks :
  wf_values values -> Coordinate.path coord = path ->
  handled (mock values coord toks).
Proof.
  intros HV Hpath. unfold handled, mock.
  pose proof (extract_type_name toks _mock_type_delims) as Hname.
  destruct (_extract_type toks _mock_type_delims)
    as [|[[type_ name] delim] type_iter]; [loc|].
  apply Forall_cons in Hname as [Hname _]. cbn in Hname.
  destruct type_ as [|t type_]; [loc|].
  destruct name as [name|]; [|discriminate (Hname eq_refl)].
  destruct (_ || _ || _); [loc|].
  destruct (_make_type (t :: type_) "mock" coord) as [return_type|e] eqn:Hrt;
    [|exact (make_type_located _ _ _ _ Hpath Hrt)].
  cbn [rbind].
  destruct (mock_args_loop coord false [] type_iter) as [args|e] eqn:Hargs;
    [|exact (mock_args_loop_located _ _ Hpath _ _ _ Hargs)].
  cbn [rbind]. rewrite mock_facts.sub_coord_self. cbn [rbind].
  destruct (values_setitem_ok values "mocks" (value name)
              (OMock (HypocriteMock.mk
                        (CoordinateRange.mk (Coordinate.path coord)
                           (Coordinate.lno coord) (Coordinate.lno coord))
                        (value name) return_type args)) HV)
    as (values' & -> & HV'); [auto|].
  split; [exact HV'|intros k' H; discriminate H].
Qed.

Lemma TestDirective_init_located values coord toks :
  wf_values values -> Coordinate.path coord = path ->
  handled (TestDirective__init__ values coord toks).
Proof.
  intros HV Hpath. unfold handled, TestDirective__init__.
  destruct (bool_decide (length toks < 2)%nat) eqn:Hlen; [loc|].
  apply bool_decide_eq_false_1 in Hlen.
  destruct (py_index_in_range toks 0) as [first ->]; [lia|].
  destruct (py_index_in_range toks (-1)) as [last ->]; [lia|].
  cbn [rbind].
  destruct (_ || _ || _); [loc|].
  destruct (bool_decide (2 < length toks)%nat) eqn:Hlen2.
  - apply bool_decide_eq_true_1 in Hlen2.
    destruct (py_index_in_range toks 1) as [second ->]; [lia|].
    destruct (py_index_in_range toks (-2)) as [before_last ->]; [lia|].
    cbn [rbind].
    destruct (_ || _); [loc|].
    destruct (test_fixtures_loop coord [] _) as [fixtures|e] eqn:Hfix;
      [|exact (test_fixtures_loop_located _ _ Hpath _ _ Hfix)].
    split; [exact HV|]. intros k' [= <-]. exact Hpath.
  - split; [exact HV|]. intros k' [= <-]. exact Hpath.
Qed.

Lemma fixture_init_loop_post (start_coord : Coordinate.t)
    (type_iter : list (list Token * option Token * option Token)) :
  Coordinate.path start_coord = path ->
  forall (end_expected : bool) (self : option FixtureDirective.t),
    (end_expected = true ->
     exists f, self = Some f /\ wf_fixture path f) ->
    (end_expected = false -> type_iter <> []) ->
    match fixture_init_loop start_coord end_expected self type_iter with
    | Ok r => exists f, r = Some f /\ wf_fixture path f
    | Raise e => located path e
    end.
Proof.
  intros Hpath.
  induction type_iter as [|[[type_ name] delim] rest IH];
    intros end_expected self Hself Hne.
  - cbn. destruct end_expected; [apply Hself; reflexivity|].
    destruct (Hne eq_refl eq_refl).
  - cbn [fixture_init_loop].
    destruct end_expected.
    + destruct (_ || _ || _); [loc|].
      apply IH; [exact Hself|intros H; discriminate H].
    + destruct (bool_decide (delim = None)); [loc|].
      destruct name as [name|]; [|loc].
      destruct (_ || _); [loc|].
      destruct (_ || _).
      * cbn [rbind]. apply IH; [|intros H; discriminate H].
        intros _. eexists. split; [reflexivity|split; exact Hpath].
      * destruct (_make_type type_ "fixture" start_coord) as [ty|e] eqn:Hty;
          [|exact (make_type_located _ _ _ _ Hpath Hty)].
        cbn [rbind]. apply IH; [|intros H; discriminate H].
        intros _. eexists. split; [reflexivity|split; exact Hpath].
Qed.

Lemma FixtureDirective_init_located values coord toks :
  wf_values values -> Coordinate.path coord = path ->
  handled (FixtureDirective__init__ values coord toks).
Proof.
  intros HV Hpath. unfold handled, FixtureDirective__init__.
  assert (Hne : _extract_type toks {[tok TOK_CHAR "{"]} <> []).
  { unfold _extract_type. intros Hnil. apply fmap_nil_inv in Hnil.
    exact (split_facts.split_toks_delim_nonempty _ _ Hnil). }
  pose proof (fixture_init_loop_post coord
                (_extract_type toks {[tok TOK_CHAR "{"]}) Hpath false None)
    as Hloop.
  specialize (Hloop ltac:(intros H; discriminate H) (fun _ => Hne)).
  destruct (fixture_init_loop coord false None _) as [r|e]; [|exact Hloop].
  destruct Hloop as (f & -> & Hf).
  cbn [rbind]. split; [exact HV|]. intros k' [= <-]. exact Hf.
Qed.

(** Every directive of the test grammar. *)
Lemma hypo_impl_located name d values coord toks :
  odict.get DIRECTIVES name = Some d ->
  wf_values values -> Coordinate.path coord = path ->
  handled (impl d values coord toks).
Proof.
  intros Hget HV Hpath.
  unfold DIRECTIVES, register in Hget. cbn in Hget.
  repeat match type of Hget with
         | (if ?b then _ else _) = _ => destruct b
         end;
    try discriminate Hget; injection Hget as <-; cbn [impl].
  - apply target_directive_located; assumption.
  - apply PreambleDirective_init_located; assumption.
  - apply mock_located; assumption.
  - apply TestDirective_init_located; assumption.
  - apply FixtureDirective_init_located; assumption.
Qed.

(** Every deferred callable of the test grammar. *)
Lemma hypo_call_located k values coord buf toks :
  wf_callable path k -> wf_values values -> Coordinate.path coord = path ->
  handled (call k values coord buf toks).
Proof.
  intros Hk HV Hpath. unfold handled.
  destruct k as [sc|name fixtures sc|self|self]; cbn [call wf_callable] in *.
  - unfold PreambleDirective__call__.
    destruct toks as [[|? ?]|]; try loc.
    rewrite location_facts.sub_coord_same_path by congruence. cbn [rbind].
    destruct (values_append_ok values
                (OPreamble (Preamble.mk
                   (CoordinateRange.mk (Coordinate.path sc)
                      (Z.min (Coordinate.lno sc) (Coordinate.lno coord))
                      (Z.max (Coordinate.lno sc) (Coordinate.lno coord)))
                   buf)) HV) as (values' & -> & HV').
    split; [exact HV'|intros k' H; discriminate H].
  - unfold TestDirective__call__.
    destruct toks as [[|? ?]|]; try loc.
    rewrite location_facts.sub_coord_same_path by congruence. cbn [rbind].
    destruct (values_setitem_ok values "tests" name
                (OTest (HypocriteTest.mk
                   (CoordinateRange.mk (Coordinate.path sc)
                      (Z.min (Coordinate.lno sc) (Coordinate.lno coord))
                      (Z.max (Coordinate.lno sc) (Coordinate.lno coord)))
                   name buf fixtures)) HV) as (values' & -> & HV'); [auto|].
    split; [exact HV'|intros k' H; discriminate H].
  - destruct Hk as [Hsc Hbs]. unfold FixtureDirective_call.
    destruct toks as [toks|]; [|loc].
    destruct (negb _ && negb _); [loc|].
    destruct toks as [|? ?].
    + rewrite location_facts.sub_coord_same_path by congruence. cbn [rbind].
      destruct (values_setitem_ok values "fixtures"
                  (FixtureDirective.name self)
                  (OFixture (Fixture.mk
                     (CoordinateRange.mk
                        (Coordinate.path (FixtureDirective.start_coord self))
                        (Z.min (Coordinate.lno (FixtureDirective.start_coord self))
                           (Coordinate.lno coord))
                        (Z.max (Coordinate.lno (FixtureDirective.start_coord self))
                           (Coordinate.lno coord)))
                     (FixtureDirective.name self)
                     (FixtureDirective.type_ self) buf None)) HV)
        as (values' & -> & HV'); [auto|].
      split; [exact HV'|intros k' H; discriminate H].
    + split; [exact HV|]. intros k' [= <-]. cbn.
      split; [split; [exact Hsc|exact Hpath]|eauto].
  - destruct Hk as [[Hsc Hbs] [code Hcode]].
    unfold FixtureDirective_teardown_call.
    destruct toks as [[|? ?]|]; try loc.
    rewrite location_facts.sub_coord_same_path by congruence. cbn [rbind].
    rewrite Hcode.
    destruct (values_setitem_ok values "fixtures"
                (FixtureDirective.name self)
                (OFixture (Fixture.mk
                   (CoordinateRange.mk
                      (Coordinate.path (FixtureDirective.start_coord self))
                      (Z.min (Coordinate.lno (FixtureDirective.start_coord self))
                         (Coordinate.lno coord))
                      (Z.max (Coordinate.lno (FixtureDirective.start_coord self))
                         (Coordinate.lno coord)))
                   (FixtureDirective.name self)
                   (FixtureDirective.type_ self) code (Some buf))) HV)
      as (values' & -> & HV'); [auto|].
    split; [exact HV'|intros k' H; discriminate H].
Qed.

(** Every exception of the parse of a test file is a parse failure that
    ends with a coordinate of the file. *)
Lemma hypo_parse_located (stream : list string) (e : exn)
    (s : parser deferred) :
  HypoParser_parse stream path = (Raise e, s) -> located path e.
Proof.
  intros H.
  pose proof (parse_post DIRECTIVES call path wf_values (wf_callable path)
                (fun _ => False) (fun F => F)
                (fun name d values coord toks Hget HV Hp =>
                   handler_post_or_intro path _ _ _ _
                     (hypo_impl_located name d values coord toks Hget HV Hp))
                (fun k values coord buf toks Hk HV Hp =>
                   handler_post_or_intro path _ _ _ _
                     (hypo_call_located k values coord buf toks Hk HV Hp))
                stream wf_values_initial)
    as Hpost.
  unfold post in Hpost. unfold HypoParser_parse in H. rewrite H in Hpost.
  destruct Hpost as [Hloc|[[]|[_ (k & values & coord & buf & r & Hcall)]]];
    [exact Hloc|].
  destruct (call_at_eof k values coord buf) as [e' He'].
  rewrite He' in Hcall. discriminate Hcall.
Qed.

End Handlers.

End hypo_error_facts.

Module render_error_facts.

Import location linelist template spec string_facts subst_facts section_facts.













End render_error_facts.

Module surfaced_errors.

Import location linelist perfile hypofile template spec.
Import string_facts parser_facts fixture_facts section_facts.
Import error_facts hypo_error_facts render_error_facts.





End surfaced_errors.

Module coordinate_facts.

Import location spec string_facts.

Lemma string_eqb_iff (a b : string) : String.eqb a b = true <-> a = b.
Proof. apply String.eqb_eq. Qed.

(** X1. [a == b] holds exactly when [b] is a coordinate with the path
    and the line of [a]; [a != b] is the negation of [a == b] for every
    operand, an object of another type included, which is never equal
    to a coordinate. *)
Theorem coordinate_eq_ne (a : Coordinate.t) (other : Coordinate.operand) :
  (Coordinate.__eq__ a other = true <-> other = Coordinate.Coord a)
  /\ Coordinate.__ne__ a other = negb (Coordinate.__eq__ a other).
Proof.
  destruct a as [p n], other as [m|[q k]|]; cbn.
  - split; [split; discriminate|reflexivity].
  - split.
    + rewrite andb_true_iff, String.eqb_eq, Z.eqb_eq. split.
      * intros [-> ->]. reflexivity.
      * intros [= -> ->]. split; reflexivity.
    + rewrite negb_andb. reflexivity.
  - split; [split; discriminate|reflexivity].
Qed.

(** X2. Adding an integer to a coordinate moves its line and keeps its
    path, and subtracting the integer again gives the coordinate back;
    shifts add up; the difference between a shifted coordinate and the
    coordinate is the range between the two lines; an operand that is no
    integer is not added. *)
Theorem coordinate_shift (c : Coordinate.t) (n m : Z) :
  Coordinate.__add__ c (Coordinate.Int n)
  = Coordinate.NewCoordinate (Coordinate.mk (Coordinate.path c)
                                (Coordinate.lno c + n))
  /\ Coordinate.__sub__ (Coordinate.plus c n) (Coordinate.Int n)
     = Coordinate.NewCoordinate c
  /\ Coordinate.plus (Coordinate.plus c n) m = Coordinate.plus c (n + m)
  /\ Coordinate.__add__ c (Coordinate.Int 0) = Coordinate.NewCoordinate c
  /\ sub_coord (Coordinate.plus c n) c
     = Ok (CoordinateRange.mk (Coordinate.path c)
             (Z.min (Coordinate.lno c) (Coordinate.lno c + n))
             (Z.max (Coordinate.lno c) (Coordinate.lno c + n)))
  /\ Coordinate.__add__ c (Coordinate.Coord c) = Coordinate.NotImplemented
  /\ Coordinate.__add__ c Coordinate.Other = Coordinate.NotImplemented.
Proof.
  destruct c as [p l]. unfold Coordinate.plus. cbn.
  repeat split.
  - f_equal. f_equal. lia.
  - f_equal. lia.
  - f_equal. f_equal. lia.
  - unfold sub_coord. cbn. rewrite String.eqb_refl. cbn.
    destruct (Z.ltb_spec (l + n) l); cbn; do 2 f_equal; lia.
Qed.

(** The digits of a number hold no colon. *)
Definition no_colon (s : string) : Prop :=
  str_forall (fun c => negb (Ascii.eqb c ":")) s = true.

Lemma pretty_N_char_no_colon (x : N) :
  negb (Ascii.eqb (pretty_N_char x) ":") = true.
Proof.
  destruct x as [|p]; [reflexivity|].
  do 4 (destruct p as [p|p|]; try reflexivity).
Qed.

Lemma pretty_N_go_no_colon (x : N) :
  forall s : string, no_colon s -> no_colon (pretty_N_go x s).
Proof.
  induction (N.lt_wf_0 x) as [x _ IH]. intros s Hs.
  destruct (decide (x = 0%N)) as [->|Hx].
  - rewrite pretty_N_go_0. exact Hs.
  - rewrite pretty_N_go_step by lia.
    apply IH.
    + apply N.div_lt; lia.
    + unfold no_colon. cbn [str_forall].
      rewrite pretty_N_char_no_colon. exact Hs.
Qed.

Lemma fmt_d_no_colon (n : Z) : no_colon (py.fmt_d n).
Proof.
  unfold py.fmt_d, pretty, pretty_Z.
  assert (HN : forall x : N, no_colon (pretty x)).
  { intros x. unfold pretty, pretty_N.
    destruct (decide (x = 0%N)); [reflexivity|].
    apply pretty_N_go_no_colon. reflexivity. }
  destruct n as [|p|p]; [reflexivity| |].
  - exact (HN (N.pos p)).
  - change (no_colon (String "-" (pretty (N.pos p)))).
    unfold no_colon. cbn [str_forall]. exact (HN (N.pos p)).
Qed.

Lemma last_colon_split (a b x y : string) :
  no_colon x -> no_colon y ->
  a +:+ String ":" x = b +:+ String ":" y -> a = b /\ x = y.
Proof.
  intros Hx Hy. revert b.
  induction a as [|c a IH]; intros [|d b] H.
  - injection H as H. split; [reflexivity|exact H].
  - rewrite str_app_cons in H. injection H as <- H. exfalso.
    rewrite H in Hx.
    exact (error_facts.no_colon_split _ Hx b y eq_refl).
  - rewrite str_app_cons in H. injection H as -> H. exfalso.
    rewrite <- H in Hy.
    exact (error_facts.no_colon_split _ Hy a x eq_refl).
  - rewrite !str_app_cons in H. injection H as -> H.
    destruct (IH b H) as [-> ->]. split; reflexivity.
Qed.

(** X3. The printed form of a coordinate determines the coordinate: two
    coordinates print the same only if they have the same path and the
    same line.  A range from a line to itself, such as the difference
    of a coordinate with itself, prints as that coordinate; a range
    over several lines prints both ends. *)
Theorem coordinate_str_inj :
  (forall a b : Coordinate.t,
      Coordinate.__str__ a = Coordinate.__str__ b -> a = b)
  /\ (forall (a : Coordinate.t) (r : CoordinateRange.t),
        sub_coord a a = Ok r ->
        CoordinateRange.__str__ r = Coordinate.__str__ a)
  /\ (forall r : CoordinateRange.t,
        CoordinateRange.start r <> CoordinateRange.end_ r ->
        CoordinateRange.__str__ r
        = CoordinateRange.path r +:+ ":"
            +:+ py.fmt_d (CoordinateRange.start r) +:+ "-"
            +:+ py.fmt_d (CoordinateRange.end_ r)).
Proof.
  split; [|split].
  - intros [p n] [q m]. unfold Coordinate.__str__. cbn. intros H.
    apply last_colon_split in H as [-> H]; try apply fmt_d_no_colon.
    apply (inj pretty) in H. subst. reflexivity.
  - intros [p n] r. unfold sub_coord. cbn. rewrite String.eqb_refl. cbn.
    rewrite Z.ltb_irrefl. intros [= <-].
    unfold CoordinateRange.__str__. cbn. rewrite Z.eqb_refl. reflexivity.
  - intros r Hne. unfold CoordinateRange.__str__.
    destruct (Z.eqb_spec (CoordinateRange.start r) (CoordinateRange.end_ r));
      [contradiction|reflexivity].
Qed.

Lemma coordinate_str_inj_witness :
  Coordinate.mk "a.c" 3 = Coordinate.mk "a.c" 3
  /\ CoordinateRange.__str__ (CoordinateRange.mk "a.c" 3 3)
     = Coordinate.__str__ (Coordinate.mk "a.c" 3)
  /\ CoordinateRange.__str__ (CoordinateRange.mk "a.c" 3 5)
     = CoordinateRange.path (CoordinateRange.mk "a.c" 3 5) +:+ ":"
         +:+ py.fmt_d (CoordinateRange.start (CoordinateRange.mk "a.c" 3 5))
         +:+ "-"
         +:+ py.fmt_d (CoordinateRange.end_ (CoordinateRange.mk "a.c" 3 5)).
Proof.
  split; [|split].
  - apply (proj1 coordinate_str_inj). reflexivity.
  - apply (proj1 (proj2 coordinate_str_inj) (Coordinate.mk "a.c" 3)).
    reflexivity.
  - apply (proj2 (proj2 coordinate_str_inj)). cbn. discriminate.
Defined.

End coordinate_facts.

Module sequence_facts.

Import location linelist spec string_facts.

Lemma clamp_range (n : nat) (i : Z) : (py.clamp n i <= n)%nat.
Proof.
  unfold py.clamp.
  destruct (i <? 0); repeat case_match; lia.
Qed.

Lemma slice_to {A} (l : list A) (k : Z) :
  py.slice l None (Some k) = take (py.clamp (length l) k) l.
Proof.
  unfold py.slice. cbn [py.bound_lo py.bound_hi].
  rewrite Nat.sub_0_r. reflexivity.
Qed.

Lemma slice_from {A} (l : list A) (k : Z) :
  py.slice l (Some k) None = drop (py.clamp (length l) k) l.
Proof.
  unfold py.slice. cbn [py.bound_lo py.bound_hi].
  apply take_ge. rewrite length_drop. lia.
Qed.

Lemma slice_init_last {A} (l : list A) :
  py.slice l None (Some (-1)) ++ option_list (last l) = l.
Proof.
  rewrite slice_to.
  destruct l as [|x l _] using rev_ind; [reflexivity|].
  rewrite last_snoc, length_app. cbn [length option_list].
  assert (Hc : py.clamp (length l + 1) (-1) = length l).
  { unfold py.clamp. cbn [Z.ltb Z.compare].
    destruct (Z.ltb_spec (-1 + Z.of_nat (length l + 1)) 0); [lia|].
    destruct (Z.ltb_spec (Z.of_nat (length l + 1))
                (-1 + Z.of_nat (length l + 1))); lia. }
  rewrite Hc, take_app_length. reflexivity.
Qed.

Lemma slice_snoc {A} (l : list A) (x : A) :
  py.slice (l ++ [x]) None (Some (-1)) = l.
Proof.
  pose proof (slice_init_last (l ++ [x])) as H.
  rewrite last_snoc in H. cbn [option_list] in H.
  apply app_inj_tail in H as [H _]. exact H.
Qed.

Lemma index_nonneg {A} (l : list A) (i : Z) :
  0 <= i ->
  py.index l i = match l !! Z.to_nat i with
                 | Some x => Ok x
                 | None => Raise IndexError
                 end.
Proof.
  intros Hi. unfold py.index.
  destruct (Z.ltb_spec i 0); [lia|].
  destruct (Z.ltb_spec i 0); [lia|]. reflexivity.
Qed.

Lemma index_neg {A} (l : list A) (i : Z) :
  i < 0 ->
  py.index l i = if i + Z.of_nat (length l) <? 0 then Raise IndexError
                 else py.index l (i + Z.of_nat (length l)).
Proof.
  intros Hi. unfold py.index at 1.
  destruct (Z.ltb_spec i 0); [|lia].
  destruct (Z.ltb_spec (i + Z.of_nat (length l)) 0) as [|Hge];
    [reflexivity|].
  rewrite (index_nonneg l _ Hge). reflexivity.
Qed.

(** X4. An index from [0] up to the length selects the text at that
    position of the iteration; a negative index counts from the end, so
    that [-1] after an [append] is the line appended; an index at or
    beyond the length, or below minus the length, raises [IndexError]. *)
Theorem linelist_getitem (self : LineList.t) (i : Z) :
  (0 <= i < LineList.__len__ self ->
   exists t,
     LineList.__iter__ self !! Z.to_nat i = Some t
     /\ LineList.__getitem__ self i = Ok t
     /\ LineList.__getitem__ self (i - LineList.__len__ self) = Ok t)
  /\ (LineList.__len__ self <= i \/ i < - LineList.__len__ self ->
      LineList.__getitem__ self i = Raise IndexError)
  /\ (forall (line : string) (coord : option Coordinate.t),
        LineList.__getitem__ (LineList.append self line coord) (-1)
        = Ok line).
Proof.
  unfold LineList.__len__, LineList.__getitem__, LineList.__iter__.
  destruct self as [es]. cbn [LineList._entries].
  split; [|split].
  - intros Hi.
    destruct (lookup_lt_is_Some_2 es (Z.to_nat i)) as [e He]; [lia|].
    exists (text e). split; [rewrite list_lookup_fmap, He; reflexivity|].
    rewrite index_nonneg by lia. rewrite He. split; [reflexivity|].
    rewrite index_neg by lia.
    replace (i - Z.of_nat (length es) + Z.of_nat (length es)) with i by lia.
    destruct (Z.ltb_spec i 0); [lia|].
    rewrite index_nonneg by lia. rewrite He. reflexivity.
  - intros [Hi|Hi].
    + rewrite index_nonneg by lia.
      rewrite lookup_ge_None_2 by lia. reflexivity.
    + rewrite index_neg by lia.
      destruct (Z.ltb_spec (i + Z.of_nat (length es)) 0); [reflexivity|lia].
  - intros line coord. unfold LineList.append. cbn [LineList._entries].
    rewrite index_neg by lia. rewrite length_app. cbn [length].
    destruct (Z.ltb_spec (-1 + Z.of_nat (length es + 1)) 0); [lia|].
    rewrite index_nonneg by lia.
    replace (Z.to_nat (-1 + Z.of_nat (length es + 1))) with (length es)
      by lia.
    rewrite lookup_app_r by lia. rewrite Nat.sub_diag. reflexivity.
Qed.

Lemma linelist_getitem_witness :
  exists t,
    LineList.__iter__ (LineList.__init__ (Some ["a"; "b"; "c"]) None)
      !! Z.to_nat 1 = Some t
    /\ LineList.__getitem__ (LineList.__init__ (Some ["a"; "b"; "c"]) None) 1
       = Ok t
    /\ LineList.__getitem__ (LineList.__init__ (Some ["a"; "b"; "c"]) None)
         (1 - 3) = Ok t.
Proof.
  apply (proj1 (linelist_getitem
                  (LineList.__init__ (Some ["a"; "b"; "c"]) None) 1)).
  vm_compute. split; [discriminate|reflexivity].
Defined.

(** X5. A slice never raises.  The whole slice is the iteration; for
    every bound [k], negative or beyond the ends included, the slice up
    to [k] followed by the slice from [k] is the iteration; and the
    slice between two positions of the list holds the texts from the
    first position up to the second. *)
Theorem linelist_slices (self : LineList.t) :
  LineList.__getitem__slice self None None = LineList.__iter__ self
  /\ (forall k : Z,
        LineList.__getitem__slice self None (Some k)
          ++ LineList.__getitem__slice self (Some k) None
        = LineList.__iter__ self)
  /\ (forall lo hi : nat,
        (lo <= hi <= length (LineList.__iter__ self))%nat ->
        LineList.__getitem__slice self (Some (Z.of_nat lo))
          (Some (Z.of_nat hi))
        = take (hi - lo) (drop lo (LineList.__iter__ self))).
Proof.
  unfold LineList.__getitem__slice, LineList.__iter__.
  destruct self as [es]. cbn [LineList._entries].
  split; [|split].
  - unfold py.slice. cbn [py.bound_lo py.bound_hi].
    rewrite Nat.sub_0_r, drop_0, firstn_all. reflexivity.
  - intros k. rewrite slice_to, slice_from, <- fmap_app, take_drop.
    reflexivity.
  - intros lo hi. rewrite length_fmap. intros Hb.
    unfold py.slice. cbn [py.bound_lo py.bound_hi].
    assert (Hclamp : forall j : nat, (j <= length es)%nat ->
                       py.clamp (length es) (Z.of_nat j) = j).
    { intros j Hj. unfold py.clamp.
      destruct (Z.ltb_spec (Z.of_nat j) 0); [lia|].
      destruct (Z.ltb_spec (Z.of_nat j) 0); [lia|].
      destruct (Z.ltb_spec (Z.of_nat (length es)) (Z.of_nat j)); lia. }
    rewrite !Hclamp by lia.
    rewrite fmap_take, fmap_drop. reflexivity.
Qed.

Lemma linelist_slices_witness :
  LineList.__getitem__slice (LineList.__init__ (Some ["a"; "b"; "c"]) None)
    (Some (Z.of_nat 1)) (Some (Z.of_nat 2))
  = take (2 - 1)
      (drop 1 (LineList.__iter__
                 (LineList.__init__ (Some ["a"; "b"; "c"]) None))).
Proof.
  apply (proj2 (proj2 (linelist_slices
                         (LineList.__init__ (Some ["a"; "b"; "c"]) None)))
           1%nat 2%nat).
  vm_compute. split; repeat constructor.
Defined.

Lemma enumerate_entries_lookup (lines : list string) (c : Coordinate.t)
    (i : nat) (line : string) :
  lines !! i = Some line ->
  enumerate_entries lines (Some c) !! i
  = Some (mk_Entry (Some (Coordinate.plus c (Z.of_nat i))) line).
Proof.
  intros H. unfold enumerate_entries.
  rewrite list_lookup_imap, H. reflexivity.
Qed.

Lemma enumerate_entries_contiguous (lines : list string) :
  forall (path : string) (n : Z),
    contiguous path n (enumerate_entries lines (Some (Coordinate.mk path n))).
Proof.
  induction lines as [|l lines IH]; intros path n; [exact I|].
  unfold enumerate_entries. cbn [imap contiguous coord].
  split.
  - unfold Coordinate.plus. cbn. rewrite Z.add_0_r. reflexivity.
  - specialize (IH path (n + 1)). unfold enumerate_entries in IH.
    erewrite imap_ext; [exact IH|].
    intros i x _. cbn. unfold Coordinate.plus. cbn.
    do 3 f_equal. lia.
Qed.

Lemma output_loop_contiguous (fname path : string) (n : Z)
    (es : list _Entry) :
  es <> [] ->
  contiguous path n es ->
  LineList.output_loop fname 1 None es
  = Directive (Coordinate.line (Coordinate.mk path n))
    :: ((fun e => Text (text e)) <$> es).
Proof.
  intros Hne Hc. destruct es as [|[ce te] es]; [contradiction|].
  destruct Hc as [He Hc]. cbn in He. subst ce.
  cbn [LineList.output_loop fmap list_fmap text]. do 2 f_equal.
  pose proof (output_facts.contiguous_no_directive fname path es (n + 1)
                (1 + 1 + 1) Hc) as H.
  replace (n + 1 - 1) with n in H by lia. exact H.
Qed.

(** X6. A list built from lines and a starting coordinate numbers the
    lines from that coordinate on: the line at position [i] carries the
    coordinate moved by [i]; without a coordinate no line carries one.
    Extending by two runs of lines is extending by the first and then
    by the second from the coordinate moved by the length of the first.
    Written out, a non-empty list built so is the directive of the
    starting coordinate followed by the lines, and nothing else. *)
Theorem linelist_init_numbering (lines : list string) (c : Coordinate.t) :
  (forall (i : nat) (line : string),
      lines !! i = Some line ->
      LineList._entries (LineList.__init__ (Some lines) (Some c)) !! i
      = Some (mk_Entry (Some (Coordinate.plus c (Z.of_nat i))) line)
      /\ LineList._entries (LineList.__init__ (Some lines) None) !! i
         = Some (mk_Entry None line))
  /\ (forall (self : LineList.t) (more : list string),
        LineList.extend self (lines ++ more) (Some c)
        = LineList.extend (LineList.extend self lines (Some c)) more
            (Some (Coordinate.plus c (Z.of_nat (length lines)))))
  /\ (forall stream_name : string,
        lines <> [] ->
        LineList.output (LineList.__init__ (Some lines) (Some c))
          (Some stream_name) None
        = Ok (Directive (Coordinate.line c) :: (Text <$> lines))).
Proof.
  split; [|split].
  - intros i line H. split.
    + apply enumerate_entries_lookup, H.
    + cbn. unfold enumerate_entries. rewrite list_lookup_imap, H.
      reflexivity.
  - intros self more. unfold LineList.extend. cbn [LineList._entries].
    rewrite <- app_assoc. do 2 f_equal.
    unfold enumerate_entries. rewrite imap_app. f_equal.
    apply imap_ext. intros i x _. cbn. unfold Coordinate.plus. cbn.
    do 3 f_equal. lia.
  - intros stream_name Hne.
    assert (Hout : forall fname,
               LineList.output_loop fname 1 None
                 (enumerate_entries lines (Some c))
               = Directive (Coordinate.line c) :: (Text <$> lines)).
    { intros fname. destruct c as [path n].
      rewrite (output_loop_contiguous fname path n).
      - f_equal.
        rewrite <- (linelist_facts.enumerate_entries_texts lines
                      (Some (Coordinate.mk path n))) at 2.
        rewrite <- list_fmap_compose. reflexivity.
      - destruct lines; [contradiction|discriminate].
      - apply enumerate_entries_contiguous. }
    unfold LineList.output, LineList.__init__.
    cbn [default LineList._entries rbind]. rewrite Hout. reflexivity.
Qed.

Lemma linelist_init_numbering_witness :
  LineList._entries
    (LineList.__init__ (Some ["int a;"; "int b;"])
       (Some (Coordinate.mk "t.hypo" 4))) !! 1%nat
  = Some (mk_Entry (Some (Coordinate.mk "t.hypo" 5)) "int b;")
  /\ LineList.output
       (LineList.__init__ (Some ["int a;"; "int b;"])
          (Some (Coordinate.mk "t.hypo" 4))) (Some "out.c") None
     = Ok [Directive (Coordinate.line (Coordinate.mk "t.hypo" 4));
           Text "int a;"; Text "int b;"].
Proof.
  split.
  - exact (proj1 (proj1 (linelist_init_numbering ["int a;"; "int b;"]
                           (Coordinate.mk "t.hypo" 4)) 1%nat "int b;"
                    eq_refl)).
  - apply (proj2 (proj2 (linelist_init_numbering ["int a;"; "int b;"]
                           (Coordinate.mk "t.hypo" 4))) "out.c").
    discriminate.
Defined.

End sequence_facts.

Module stream_facts.

Import location linelist spec string_facts.

Lemma output_loop_directives (fname : string) (es : list _Entry) :
  forall (line : Z) (last : option Coordinate.t) (i : nat) (d : string),
    LineList.output_loop fname line last es !! i = Some (Directive d) ->
    exists e,
      e ∈ es
      /\ LineList.output_loop fname line last es !! S i
         = Some (Text (text e))
      /\ d = match coord e with
             | Some c => Coordinate.line c
             | None => back_to fname (line + Z.of_nat i + 1)
             end.
Proof.
  induction es as [|[c t] es IH]; intros line last i d H; [discriminate H|].
  cbn [LineList.output_loop] in H |- *.
  assert (Hrest : forall line' last' j,
             LineList.output_loop fname line' last' es !! j
             = Some (Directive d) ->
             line' + Z.of_nat j = line + Z.of_nat i ->
             exists e,
               e ∈ mk_Entry c t :: es
               /\ LineList.output_loop fname line' last' es !! S j
                  = Some (Text (text e))
               /\ d = match coord e with
                      | Some c => Coordinate.line c
                      | None => back_to fname (line + Z.of_nat i + 1)
                      end).
  { intros line' last' j Hj Hline.
    destruct (IH line' last' j d Hj) as (e & He & Hnext & Hd).
    exists e. split; [right; exact He|]. split; [exact Hnext|].
    rewrite Hd. destruct (coord e); [reflexivity|].
    f_equal. lia. }
  destruct c as [c|].
  - destruct (match last with
              | Some l =>
                  Coordinate.__ne__ (Coordinate.plus l 1) (Coordinate.Coord c)
              | None => true
              end).
    + destruct i as [|[|i]].
      * injection H as <-. exists (mk_Entry (Some c) t).
        split; [left|]. split; reflexivity.
      * discriminate H.
      * cbn [lookup list_lookup] in H |- *.
        apply (Hrest _ _ i H). lia.
    + destruct i as [|i]; [discriminate H|].
      cbn [lookup list_lookup] in H |- *.
      apply (Hrest _ _ i H). lia.
  - destruct last as [l|].
    + destruct i as [|[|i]].
      * injection H as <-. exists (mk_Entry None t).
        split; [left|]. split; [reflexivity|].
        cbn [coord]. unfold back_to. do 2 f_equal. f_equal. lia.
      * discriminate H.
      * cbn [lookup list_lookup] in H |- *.
        apply (Hrest _ _ i H). lia.
    + destruct i as [|i]; [discriminate H|].
      cbn [lookup list_lookup] in H |- *.
      apply (Hrest _ _ i H). lia.
Qed.

Lemma basename_go_no_slash (s : string) :
  forall acc : string,
    str_forall (fun c => negb (Ascii.eqb c "/")) acc = true ->
    str_forall (fun c => negb (Ascii.eqb c "/")) (py.basename_go acc s) = true.
Proof.
  induction s as [|c s IH]; intros acc Hacc; [exact Hacc|].
  cbn [py.basename_go]. destruct (Ascii.eqb c "/") eqn:Hc.
  - apply IH. reflexivity.
  - apply IH. clear IH. induction acc as [|a acc IHacc].
    + change ("" +:+ String c "") with (String c "").
      cbn [str_forall]. rewrite Hc. reflexivity.
    + cbn [str_forall] in Hacc |- *. apply andb_true_iff in Hacc as [Ha Hacc].
      rewrite str_app_cons. cbn [str_forall]. rewrite Ha. apply IHacc, Hacc.
Qed.

Lemma basename_go_plain (s : string) :
  str_forall (fun c => negb (Ascii.eqb c "/")) s = true ->
  forall acc : string, py.basename_go acc s = acc +:+ s.
Proof.
  induction s as [|c s IH]; intros Hs acc.
  - rewrite str_app_nil_r. reflexivity.
  - cbn [str_forall] in Hs. apply andb_true_iff in Hs as [Hc Hs].
    apply negb_true_iff in Hc. cbn [py.basename_go]. rewrite Hc.
    rewrite (IH Hs), str_app_assoc. reflexivity.
Qed.

Lemma basename_go_dir (dir rest : string) :
  forall acc : string,
    py.basename_go acc (dir +:+ String "/" rest) = py.basename_go "" rest.
Proof.
  induction dir as [|c dir IH]; intros acc.
  - reflexivity.
  - rewrite str_app_cons. cbn [py.basename_go].
    destruct (Ascii.eqb c "/"); apply IH.
Qed.

(** X7. Every directive of the output is followed by the text of an
    entry.  For an entry with a coordinate it is the directive of that
    coordinate; for an entry without coordinate it returns to the file
    written: it carries the base name of the stream, which holds no
    slash, and the number of the line of the stream its text is written
    on, one more than the line of the directive itself. *)
Theorem output_directive_numbers (self : LineList.t) (stream_name : string) :
  exists out,
    LineList.output self (Some stream_name) None = Ok out
    /\ str_forall (fun c => negb (Ascii.eqb c "/")) (py.basename stream_name)
       = true
    /\ forall (i : nat) (d : string),
         out !! i = Some (Directive d) ->
         exists e,
           e ∈ LineList._entries self
           /\ out !! S i = Some (Text (text e))
           /\ d = match coord e with
                  | Some c => Coordinate.line c
                  | None =>
                      back_to (py.basename stream_name) (Z.of_nat (S i) + 1)
                  end.
Proof.
  eexists. split; [reflexivity|]. split.
  - apply basename_go_no_slash. reflexivity.
  - intros i d H.
    destruct (output_loop_directives _ _ _ _ _ _ H) as (e & He & Hnext & Hd).
    exists e. split; [exact He|]. split; [exact Hnext|].
    rewrite Hd. destruct (coord e); [reflexivity|]. f_equal. lia.
Qed.

Lemma output_directive_numbers_witness :
  exists e,
    e ∈ [mk_Entry (Some (Coordinate.mk "t.hypo" 3)) "int a;";
         mk_Entry None "int b;"]
    /\ text e = "int b;"
    /\ back_to "out.c" 4
       = match coord e with
         | Some c => Coordinate.line c
         | None => back_to (py.basename "build/out.c") (Z.of_nat 3 + 1)
         end.
Proof.
  destruct (output_directive_numbers
              (LineList.mk [mk_Entry (Some (Coordinate.mk "t.hypo" 3)) "int a;";
                            mk_Entry None "int b;"]) "build/out.c")
    as (out & Hout & _ & Hdir).
  injection Hout as <-.
  destruct (Hdir 2%nat (back_to "out.c" 4) eq_refl) as (e & He & Hnext & Hd).
  exists e. split; [exact He|]. split; [|exact Hd].
  injection Hnext as Hnext. symmetry. exact Hnext.
Defined.

(** X8. The directories of the path given to [output] are dropped: with
    a path that ends in a slash and a non-empty name without slash, what
    is written is what is written for the name alone, whatever the name
    of the stream.  An empty path counts as no path: the name of the
    stream is used, and a stream without name is an [AttributeError]. *)
Theorem output_path_choice (self : LineList.t) :
  (forall (dir base : string) (name1 name2 : option string),
      base <> "" ->
      str_forall (fun c => negb (Ascii.eqb c "/")) base = true ->
      LineList.output self name1 (Some (dir +:+ "/" +:+ base))
      = LineList.output self name2 (Some base))
  /\ (forall name : option string,
        LineList.output self name (Some "") = LineList.output self name None)
  /\ LineList.output self None None = Raise AttributeError.
Proof.
  split; [|split].
  - intros dir base name1 name2 Hne Hbase.
    unfold LineList.output.
    assert (E1 : String.eqb (dir +:+ "/" +:+ base) "" = false).
    { destruct dir; reflexivity. }
    assert (E2 : String.eqb base "" = false).
    { destruct base; [contradiction|reflexivity]. }
    rewrite E1, E2. cbn [rbind]. unfold py.basename.
    change (dir +:+ "/" +:+ base) with (dir +:+ String "/" base).
    rewrite basename_go_dir. reflexivity.
  - intros name. reflexivity.
  - reflexivity.
Qed.

Lemma output_path_choice_witness :
  LineList.output (LineList.__init__ (Some ["x"]) None) None
    (Some ("build/gen" +:+ "/" +:+ "out.c"))
  = LineList.output (LineList.__init__ (Some ["x"]) None) (Some "s")
      (Some "out.c").
Proof.
  apply (proj1 (output_path_choice (LineList.__init__ (Some ["x"]) None))
           "build/gen" "out.c" None (Some "s")).
  - discriminate.
  - reflexivity.
Defined.

(** X9. Adding a bare list to a [LineList], with [+] or [+=], is adding
    the [LineList] built from that list without coordinate; [+] is
    associative, and the empty [LineList] is neutral for it on both
    sides. *)
Theorem linelist_add_laws (a b c : LineList.t) (lines : list string) :
  LineList.__add__ a (LineList.OfList lines)
  = LineList.__add__ a (LineList.OfLineList (LineList.__init__ (Some lines) None))
  /\ LineList.__iadd__ a (LineList.OfList lines)
     = LineList.__iadd__ a
         (LineList.OfLineList (LineList.__init__ (Some lines) None))
  /\ (LineList.__add__ a (LineList.OfLineList b)
        ≫= fun ab => LineList.__add__ ab (LineList.OfLineList c))
     = (LineList.__add__ b (LineList.OfLineList c)
          ≫= fun bc => LineList.__add__ a (LineList.OfLineList bc))
  /\ LineList.__add__ a (LineList.OfLineList (LineList.__init__ None None))
     = Some a
  /\ LineList.__add__ (LineList.__init__ None None) (LineList.OfLineList a)
     = Some a.
Proof.
  destruct a as [ea], b as [eb], c as [ec]. cbn.
  repeat split.
  - rewrite app_assoc. reflexivity.
  - rewrite app_nil_r. reflexivity.
Qed.

End stream_facts.

Module token_facts.

Import location perfile spec string_facts tokenize_facts.

Lemma str_forall_app (f : ascii -> bool) (a b : string) :
  str_forall f (a +:+ b) = str_forall f a && str_forall f b.
Proof.
  induction a as [|c a IH]; [reflexivity|].
  rewrite str_app_cons. cbn [str_forall]. rewrite IH, andb_assoc. reflexivity.
Qed.

Lemma word_char_not_space (c : ascii) :
  word_char c = true -> py.isspace c = false.
Proof.
  destruct c as [[] [] [] [] [] [] [] []]; vm_compute; intros H;
    first [reflexivity|discriminate H].
Qed.

Lemma word_char_not_quote (c : ascii) :
  word_char c = true -> Ascii.eqb c py.dquote_char = false.
Proof.
  destruct c as [[] [] [] [] [] [] [] []]; vm_compute; intros H;
    first [reflexivity|discriminate H].
Qed.

Lemma word_start_char (c : ascii) : word_start c = true -> word_char c = true.
Proof.
  destruct c as [[] [] [] [] [] [] [] []]; vm_compute; intros H;
    first [reflexivity|discriminate H].
Qed.

(** What the scanner holds between two characters: in a word, the
    start of a word; in a string, characters that are no quote. *)
Definition pending (st : scan_state) (buf : string) : Prop :=
  match st with
  | Idle => True
  | InStr => str_forall (fun c => negb (Ascii.eqb c py.dquote_char)) buf = true
  | InWord => token_shape (mk_Token TOK_WORD buf) = true
  end.

Lemma word_shape_snoc (buf : string) (c : ascii) :
  token_shape (mk_Token TOK_WORD buf) = true ->
  word_char c = true ->
  token_shape (mk_Token TOK_WORD (buf +:+ char_str c)) = true.
Proof.
  destruct buf as [|b buf]; [discriminate|].
  unfold token_shape. cbn [type_ value]. rewrite str_app_cons.
  intros H Hc. apply andb_true_iff in H as [Hb Hbuf].
  rewrite Hb, str_forall_app, Hbuf. cbn. rewrite Hc. reflexivity.
Qed.

Lemma tokenize_step_shape (st : scan_state) (buf : string) (c : ascii) :
  pending st buf ->
  Forall (fun t => token_shape t = true) (tokenize_step st buf c).1.1
  /\ pending (tokenize_step st buf c).1.2 (tokenize_step st buf c).2.
Proof.
  intros Hp. unfold tokenize_step. destruct st.
  - destruct (py.isspace c) eqn:Hsp; [split; [constructor|exact I]|].
    destruct (Ascii.eqb c py.dquote_char) eqn:Hq;
      [split; [constructor|reflexivity]|].
    destruct (Ascii.eqb c "_" || py.isalpha c) eqn:Hw.
    + split; [constructor|]. cbn. unfold token_shape. cbn.
      unfold word_start. rewrite Hw. reflexivity.
    + split; [|exact I]. repeat constructor.
      unfold token_shape, word_start. cbn. rewrite Hsp, Hq, Hw. reflexivity.
  - destruct (Ascii.eqb c py.dquote_char) eqn:Hq.
    + split; [|exact I]. repeat constructor. exact Hp.
    + split; [constructor|]. cbn in Hp |- *.
      rewrite str_forall_app, Hp. cbn. rewrite Hq. reflexivity.
  - destruct (py.isspace c) eqn:Hsp.
    { split; [|exact I]. repeat constructor. exact Hp. }
    destruct (Ascii.eqb c "_" || py.isalnum c) eqn:Hw.
    { split; [constructor|]. apply word_shape_snoc; assumption. }
    destruct (Ascii.eqb c py.dquote_char) eqn:Hq.
    { split; [|reflexivity]. repeat constructor. exact Hp. }
    split; [|exact I]. repeat constructor; [exact Hp|].
    unfold token_shape, word_start. cbn. rewrite Hsp, Hq. cbn.
    assert (Hstart : Ascii.eqb c "_" || py.isalpha c = false).
    { destruct (Ascii.eqb c "_" || py.isalpha c) eqn:E; [|reflexivity].
      apply (word_start_char c) in E. unfold word_char in E.
      rewrite Hw in E. discriminate E. }
    rewrite Hstart. reflexivity.
Qed.

Lemma tokenize_loop_shape (text : string) :
  forall (st : scan_state) (buf : string),
    pending st buf ->
    Forall (fun t => token_shape t = true) (tokenize_loop st buf text).1.1
    /\ pending (tokenize_loop st buf text).1.2 (tokenize_loop st buf text).2.
Proof.
  induction text as [|c text IH]; intros st buf Hp.
  - split; [constructor|exact Hp].
  - cbn [tokenize_loop].
    destruct (tokenize_step_shape st buf c Hp) as [Hys Hp'].
    destruct (tokenize_step st buf c) as [[ys st'] buf'].
    destruct (IH st' buf' Hp') as [Hzs Hp''].
    destruct (tokenize_loop st' buf' text) as [[zs st''] buf''].
    cbn in *. split; [apply Forall_app; split; assumption|exact Hp''].
Qed.

(** X10. The tokenizer fails exactly on the texts with an odd number of
    quotes, so a text without quote always tokenizes.  Every token it
    yields is well shaped: a word is a non-empty run of letters, digits
    and underscores that does not start with a digit; a character token
    holds exactly one character, which is no whitespace, no quote, no
    letter and no underscore; a string token holds no quote. *)
Theorem tokenize_token_shapes (text : string) (coord : Coordinate.t) :
  (Nat.odd (quotes text) = true <->
   exists e, _tokenize text coord = Raise e)
  /\ (forall toks : list Token,
        _tokenize text coord = Ok toks ->
        Forall (fun t => token_shape t = true) toks).
Proof.
  split.
  - destruct (tokenize_raises_iff text coord) as [Hodd Heven]. split.
    + intros H. rewrite (Hodd H). eauto.
    + intros [e He]. destruct (Nat.odd (quotes text)); [reflexivity|].
      destruct (Heven eq_refl) as [toks Htoks].
      rewrite Htoks in He. discriminate He.
  - intros toks. unfold _tokenize.
    destruct (tokenize_loop_shape text Idle "" I) as [Hall Hp].
    destruct (tokenize_loop Idle "" text) as [[ts st] buf]. cbn in Hall, Hp.
    destruct st; intros [= <-]; [exact Hall|].
    apply Forall_app. split; [exact Hall|]. repeat constructor. exact Hp.
Qed.

Lemma tokenize_token_shapes_witness :
  Forall (fun t => token_shape t = true)
    [mk_Token TOK_WORD "int"; mk_Token TOK_CHAR "*";
     mk_Token TOK_WORD "p_1"; mk_Token TOK_CHAR "4"; mk_Token TOK_STR "a b"].
Proof.
  apply (proj2 (tokenize_token_shapes
                  ("int *p_1 4" +:+ py.dquote +:+ "a b" +:+ py.dquote)
                  (Coordinate.mk "t.hypo" 1))).
  reflexivity.
Defined.

(** In the idle state the buffer is not read. *)
Lemma tokenize_loop_idle_buf (text : string) (buf1 buf2 : string) :
  (tokenize_loop Idle buf1 text).1.1 = (tokenize_loop Idle buf2 text).1.1
  /\ (tokenize_loop Idle buf1 text).1.2 = (tokenize_loop Idle buf2 text).1.2
  /\ ((tokenize_loop Idle buf1 text).1.2 <> Idle ->
      (tokenize_loop Idle buf1 text).2 = (tokenize_loop Idle buf2 text).2).
Proof.
  revert buf1 buf2. induction text as [|c text IH]; intros buf1 buf2.
  - cbn. repeat split. intros H. contradiction.
  - cbn [tokenize_loop]. unfold tokenize_step.
    destruct (py.isspace c).
    { specialize (IH buf1 buf2).
      destruct (tokenize_loop Idle buf1 text) as [[zs1 s1] b1].
      destruct (tokenize_loop Idle buf2 text) as [[zs2 s2] b2].
      cbn in *. destruct IH as (-> & -> & Hb). repeat split. exact Hb. }
    destruct (Ascii.eqb c py.dquote_char).
    { destruct (tokenize_loop InStr "" text) as [[zs1 s1] b1].
      repeat split. }
    destruct (Ascii.eqb c "_" || py.isalpha c).
    { destruct (tokenize_loop InWord (char_str c) text) as [[zs1 s1] b1].
      repeat split. }
    specialize (IH buf1 buf2).
    destruct (tokenize_loop Idle buf1 text) as [[zs1 s1] b1].
    destruct (tokenize_loop Idle buf2 text) as [[zs2 s2] b2].
    cbn in *. destruct IH as (-> & -> & Hb). repeat split. exact Hb.
Qed.

(** The end of [_tokenize]: what the loop leaves is turned into the
    result. *)
Definition finish (r : list Token * scan_state * string) : option (list Token) :=
  match r with
  | (toks, Idle, _) => Some toks
  | (toks, InWord, buf) => Some (toks ++ [mk_Token TOK_WORD buf])
  | (_, InStr, _) => None
  end.

Lemma finish_idle_buf (text buf1 buf2 : string) :
  finish (tokenize_loop Idle buf1 text) = finish (tokenize_loop Idle buf2 text).
Proof.
  destruct (tokenize_loop_idle_buf text buf1 buf2) as (Ht & Hs & Hb).
  destruct (tokenize_loop Idle buf1 text) as [[zs1 s1] b1].
  destruct (tokenize_loop Idle buf2 text) as [[zs2 s2] b2].
  cbn in *. subst zs2 s2. destruct s1; cbn; try reflexivity.
  rewrite Hb by discriminate. reflexivity.
Qed.

Lemma finish_cons (ys : list Token) (r : list Token * scan_state * string) :
  finish (let '(zs, st, buf) := r in (ys ++ zs, st, buf))
  = (ys ++.) <$> finish r.
Proof.
  destruct r as [[zs st] buf]. destruct st; cbn; try reflexivity.
  rewrite app_assoc. reflexivity.
Qed.

Lemma loop_in_word (w : string) :
  str_forall word_char w = true ->
  forall (buf rest : string),
    tokenize_loop InWord buf (w +:+ rest)
    = tokenize_loop InWord (buf +:+ w) rest.
Proof.
  induction w as [|c w IH]; intros Hw buf rest.
  - rewrite str_app_nil_r. reflexivity.
  - cbn [str_forall] in Hw. apply andb_true_iff in Hw as [Hc Hw].
    rewrite str_app_cons. cbn [tokenize_loop]. unfold tokenize_step.
    rewrite (word_char_not_space c Hc).
    unfold word_char in Hc. rewrite Hc.
    specialize (IH Hw (buf +:+ char_str c) rest).
    rewrite IH. unfold char_str. rewrite str_app_assoc.
    change (String c "" +:+ w) with (String c w).
    destruct (tokenize_loop InWord (buf +:+ String c w) rest)
      as [[zs st] b]. reflexivity.
Qed.

Lemma loop_in_str (v : string) :
  str_forall (fun c => negb (Ascii.eqb c py.dquote_char)) v = true ->
  forall (buf rest : string),
    tokenize_loop InStr buf (v +:+ rest)
    = tokenize_loop InStr (buf +:+ v) rest.
Proof.
  induction v as [|c v IH]; intros Hv buf rest.
  - rewrite str_app_nil_r. reflexivity.
  - cbn [str_forall] in Hv. apply andb_true_iff in Hv as [Hc Hv].
    apply negb_true_iff in Hc.
    rewrite str_app_cons. cbn [tokenize_loop]. unfold tokenize_step.
    rewrite Hc.
    specialize (IH Hv (buf +:+ char_str c) rest).
    rewrite IH. unfold char_str. rewrite str_app_assoc.
    change (String c "" +:+ v) with (String c v).
    destruct (tokenize_loop InStr (buf +:+ String c v) rest)
      as [[zs st] b]. reflexivity.
Qed.

Lemma finish_step (st : scan_state) (buf : string) (c : ascii)
    (rest : string) (ys : list Token) (st' : scan_state) (buf' : string) :
  tokenize_step st buf c = (ys, st', buf') ->
  finish (tokenize_loop st buf (String c rest))
  = (ys ++.) <$> finish (tokenize_loop st' buf' rest).
Proof.
  intros H. cbn [tokenize_loop]. rewrite H. apply finish_cons.
Qed.

Lemma finish_space (buf rest : string) :
  finish (tokenize_loop Idle buf (String " " rest))
  = finish (tokenize_loop Idle "" rest).
Proof.
  rewrite (finish_step Idle buf " " rest [] Idle buf eq_refl).
  rewrite (finish_idle_buf rest buf "").
  destruct (finish (tokenize_loop Idle "" rest)); reflexivity.
Qed.

(** A token written out and followed by a space, or by the end of the
    text, is read back as that token. *)
Lemma finish_token (t : Token) (buf rest : string) :
  token_shape t = true ->
  finish (tokenize_loop Idle buf (written_token t +:+ String " " rest))
  = (t ::.) <$> finish (tokenize_loop Idle "" rest)
  /\ finish (tokenize_loop Idle buf (written_token t)) = Some [t].
Proof.
  destruct t as [ty v]. unfold token_shape, written_token. cbn [type_ value].
  destruct ty.
  - (* a word *)
    destruct v as [|c w]; [discriminate|]. intros H.
    apply andb_true_iff in H as [Hc Hw].
    assert (Hstart : tokenize_step Idle buf c = ([], InWord, char_str c)).
    { unfold tokenize_step.
      rewrite (word_char_not_space c (word_start_char c Hc)).
      rewrite (word_char_not_quote c (word_start_char c Hc)).
      unfold word_start in Hc. rewrite Hc. reflexivity. }
    split.
    + rewrite str_app_cons, (finish_step _ _ _ _ _ _ _ Hstart).
      rewrite (loop_in_word w Hw).
      change (char_str c +:+ w) with (String c w).
      rewrite (finish_step InWord (String c w) " " rest
                 [mk_Token TOK_WORD (String c w)] Idle (String c w) eq_refl).
      rewrite (finish_idle_buf rest (String c w) "").
      destruct (finish (tokenize_loop Idle "" rest)); reflexivity.
    + rewrite (finish_step _ _ _ _ _ _ _ Hstart).
      rewrite <- (str_app_nil_r w) at 1. rewrite (loop_in_word w Hw).
      reflexivity.
  - (* a character *)
    destruct v as [|c [|? ?]]; try discriminate. intros H.
    apply andb_true_iff in H as [H Hw]. apply andb_true_iff in H as [Hsp Hq].
    apply negb_true_iff in Hsp, Hq, Hw.
    assert (Hstep : tokenize_step Idle buf c
                    = ([mk_Token TOK_CHAR (char_str c)], Idle, buf)).
    { unfold tokenize_step. unfold word_start in Hw.
      rewrite Hsp, Hq, Hw. reflexivity. }
    split.
    + change (String c "" +:+ String " " rest) with (String c (String " " rest)).
      rewrite (finish_step _ _ _ _ _ _ _ Hstep), finish_space.
      destruct (finish (tokenize_loop Idle "" rest)); reflexivity.
    + rewrite (finish_step _ _ _ _ _ _ _ Hstep). reflexivity.
  - (* a string *)
    intros Hv.
    assert (Hopen : tokenize_step Idle buf py.dquote_char = ([], InStr, ""))
      by reflexivity.
    assert (Hclose : tokenize_step InStr v py.dquote_char
                     = ([mk_Token TOK_STR v], Idle, v)).
    { unfold tokenize_step. rewrite Ascii.eqb_refl. reflexivity. }
    split.
    + rewrite !str_app_assoc.
      change (py.dquote +:+ v +:+ py.dquote +:+ String " " rest)
        with (String py.dquote_char
                (v +:+ String py.dquote_char (String " " rest))).
      rewrite (finish_step _ _ _ _ _ _ _ Hopen).
      rewrite (loop_in_str v Hv). change ("" +:+ v) with v.
      rewrite (finish_step _ _ _ _ _ _ _ Hclose), finish_space.
      destruct (finish (tokenize_loop Idle "" rest)); reflexivity.
    + change (py.dquote +:+ v +:+ py.dquote)
        with (String py.dquote_char (v +:+ String py.dquote_char "")).
      rewrite (finish_step _ _ _ _ _ _ _ Hopen).
      rewrite (loop_in_str v Hv). change ("" +:+ v) with v.
      rewrite (finish_step _ _ _ _ _ _ _ Hclose). reflexivity.
Qed.

Lemma finish_written (toks : list Token) :
  Forall (fun t => token_shape t = true) toks ->
  finish (tokenize_loop Idle "" (written_tokens toks)) = Some toks.
Proof.
  induction toks as [|t toks IH]; intros H; [reflexivity|].
  apply Forall_cons in H as [Ht Htoks].
  destruct toks as [|t' toks].
  - exact (proj2 (finish_token t "" "" Ht)).
  - change (written_tokens (t :: t' :: toks))
      with (written_token t +:+ String " " (written_tokens (t' :: toks))).
    rewrite (proj1 (finish_token t "" _ Ht)), (IH Htoks). reflexivity.
Qed.

Lemma tokenize_finish (text : string) (coord : Coordinate.t)
    (toks : list Token) :
  _tokenize text coord = Ok toks
  <-> finish (tokenize_loop Idle "" text) = Some toks.
Proof.
  unfold _tokenize.
  destruct (tokenize_loop Idle "" text) as [[ts st] buf].
  destruct st; cbn; split; intros H; try discriminate H;
    injection H as <-; reflexivity.
Qed.

(** X11. Tokens written out, a string between quotes and one space
    between two tokens, are read back by the tokenizer as the same
    tokens, when every token is well shaped; so the tokens of any text
    are a fixed point: writing them out and tokenizing again yields
    them again. *)
Theorem tokenize_round_trip :
  (forall (toks : list Token) (coord : Coordinate.t),
      Forall (fun t => token_shape t = true) toks ->
      _tokenize (written_tokens toks) coord = Ok toks)
  /\ (forall (text : string) (coord coord' : Coordinate.t)
             (toks : list Token),
        _tokenize text coord = Ok toks ->
        _tokenize (written_tokens toks) coord' = Ok toks).
Proof.
  assert (H1 : forall toks coord,
             Forall (fun t => token_shape t = true) toks ->
             _tokenize (written_tokens toks) coord = Ok toks).
  { intros toks coord H. apply tokenize_finish, finish_written, H. }
  split; [exact H1|].
  intros text coord coord' toks H. apply H1.
  unfold _tokenize in H.
  destruct (tokenize_loop_shape text Idle "" I) as [Hall Hp].
  destruct (tokenize_loop Idle "" text) as [[ts st] buf]. cbn in Hall, Hp.
  destruct st; try discriminate H; injection H as <-; [exact Hall|].
  apply Forall_app. split; [exact Hall|]. repeat constructor. exact Hp.
Qed.

Lemma tokenize_round_trip_witness :
  _tokenize
    (written_tokens [mk_Token TOK_WORD "int"; mk_Token TOK_CHAR "*";
                     mk_Token TOK_STR "a b"; mk_Token TOK_CHAR "4"])
    (Coordinate.mk "t.hypo" 1)
  = Ok [mk_Token TOK_WORD "int"; mk_Token TOK_CHAR "*";
        mk_Token TOK_STR "a b"; mk_Token TOK_CHAR "4"]
  /\ _tokenize
       (written_tokens [mk_Token TOK_WORD "f"; mk_Token TOK_CHAR "(";
                        mk_Token TOK_CHAR ")"])
       (Coordinate.mk "u.hypo" 2)
     = Ok [mk_Token TOK_WORD "f"; mk_Token TOK_CHAR "("; mk_Token TOK_CHAR ")"].
Proof.
  split.
  - apply (proj1 tokenize_round_trip). repeat constructor.
  - apply (proj2 tokenize_round_trip "f()" (Coordinate.mk "t.hypo" 1)).
    reflexivity.
Defined.

End token_facts.

Module join_facts.

Import perfile spec split_facts.

Section Join.

Context {A : Type} `{Countable A}.

Lemma split_delim_plain (delims : gset A) (s : list A) :
  Forall (fun t => t ∉ delims) s ->
  split_toks_delim s delims = [(s, None)].
Proof.
  induction 1 as [|t s Ht _ IH]; [reflexivity|].
  rewrite split_toks_delim_cons, IH.
  destruct (decide (t ∈ delims)); [contradiction|reflexivity].
Qed.

Lemma split_delim_app (delims : gset A) (s : list A) (d : A) (rest : list A) :
  Forall (fun t => t ∉ delims) s ->
  d ∈ delims ->
  split_toks_delim (s ++ d :: rest) delims
  = (s, Some d) :: split_toks_delim rest delims.
Proof.
  intros Hs Hd. induction Hs as [|t s Ht _ IH].
  - cbn [app]. rewrite split_toks_delim_cons.
    destruct (decide (d ∈ delims)); [reflexivity|contradiction].
  - cbn [app]. rewrite split_toks_delim_cons, IH.
    destruct (decide (t ∈ delims)); [contradiction|reflexivity].
Qed.

(** X12. Splitting is the inverse of interleaving: stacks that hold no
    delimiter, interleaved with delimiters, one fewer than the stacks,
    are split into those stacks again, and along them the delimiters are
    yielded in order, with [None] after the last stack. *)
Theorem split_of_interleave (delims : gset A) (stacks : list (list A))
    (ds : list A) :
  length stacks = S (length ds) ->
  Forall (Forall (fun t => t ∉ delims)) stacks ->
  Forall (fun d => d ∈ delims) ds ->
  split_toks (interleave stacks ds) delims = stacks
  /\ split_toks_delim (interleave stacks ds) delims
     = zip stacks ((Some <$> ds) ++ [None]).
Proof.
  intros Hlen Hstacks Hds.
  assert (Hdelim : split_toks_delim (interleave stacks ds) delims
                   = zip stacks ((Some <$> ds) ++ [None])).
  { revert ds Hlen Hds.
    induction Hstacks as [|s stacks Hs _ IH]; intros ds Hlen Hds;
      [discriminate Hlen|].
    destruct ds as [|d ds].
    - destruct stacks; [|discriminate Hlen]. cbn.
      apply split_delim_plain, Hs.
    - apply Forall_cons in Hds as [Hd Hds].
      cbn [interleave fmap list_fmap app zip zip_with].
      rewrite (split_delim_app delims s d _ Hs Hd).
      f_equal. apply IH; [cbn in Hlen; lia|exact Hds]. }
  split; [|exact Hdelim].
  unfold split_toks. rewrite Hdelim. apply fst_zip.
  rewrite length_app, length_fmap. cbn. lia.
Qed.

End Join.

(** Two words between commas. *)
Lemma split_of_interleave_witness :
  split_toks
    (interleave [[mk_Token TOK_WORD "a"]; [mk_Token TOK_WORD "b"]]
       [mk_Token TOK_CHAR ","])
    {[mk_Token TOK_CHAR ","]}
  = [[mk_Token TOK_WORD "a"]; [mk_Token TOK_WORD "b"]].
Proof.
  apply (split_of_interleave {[mk_Token TOK_CHAR ","]}
           [[mk_Token TOK_WORD "a"]; [mk_Token TOK_WORD "b"]]
           [mk_Token TOK_CHAR ","]).
  - reflexivity.
  - repeat constructor; apply not_elem_of_singleton; discriminate.
  - constructor; [apply elem_of_singleton; reflexivity|constructor].
Defined.

End join_facts.

Module declaration_facts.

Import location linelist perfile hypofile spec string_facts split_facts
  join_facts sequence_facts.

Lemma split_delim_flat {A} `{Countable A} (toks : list A) (delims : gset A) :
  concat ((fun p : list A * option A => p.1 ++ option_list p.2)
            <$> split_toks_delim toks delims) = toks
  /\ Forall (fun p : list A * option A =>
               Forall (fun t => t ∉ delims) p.1
               /\ forall d, p.2 = Some d -> d ∈ delims)
       (split_toks_delim toks delims).
Proof.
  induction toks as [|t toks [IHflat IHall]].
  - split; [reflexivity|]. repeat constructor. intros d Hd; discriminate Hd.
  - rewrite split_toks_delim_cons.
    destruct (decide (t ∈ delims)) as [Hin|Hout].
    + split.
      * cbn. rewrite IHflat. reflexivity.
      * constructor; [|exact IHall]. split; [constructor|].
        intros d [= <-]. exact Hin.
    + destruct (split_toks_delim toks delims) as [|[s d] rest] eqn:Hsplit.
      { exfalso. exact (split_toks_delim_nonempty delims toks Hsplit). }
      split.
      * cbn in IHflat |- *. rewrite IHflat. reflexivity.
      * apply Forall_cons in IHall as [[Hs Hd] Hrest].
        constructor; [|exact Hrest]. split; [|exact Hd].
        constructor; assumption.
Qed.

(** X13. [_extract_type] loses no token and reorders none: the types,
    names and delimiters of its triples, one triple after the other, are
    the tokens it was given.  The name of a triple is the token just
    before the delimiter, and is missing only when nothing stands
    there; types and names hold no delimiter, and what is yielded as
    delimiter is one. *)
Theorem extract_type_round_trip (toks : list Token) (delims : gset Token) :
  concat (triple_tokens <$> _extract_type toks delims) = toks
  /\ Forall (fun x : list Token * option Token * option Token =>
               Forall (fun t => t ∉ delims) (x.1.1 ++ option_list x.1.2)
               /\ (x.1.2 = None -> x.1.1 = [])
               /\ forall d, x.2 = Some d -> d ∈ delims)
       (_extract_type toks delims).
Proof.
  destruct (split_delim_flat toks delims) as [Hflat Hall].
  unfold _extract_type. split.
  - rewrite <- Hflat at 2. rewrite <- list_fmap_compose. f_equal.
    apply list_fmap_ext. intros i [stack delim] _.
    unfold triple_tokens, compose. cbn [fst snd].
    rewrite app_assoc, slice_init_last. reflexivity.
  - apply Forall_fmap. eapply Forall_impl; [exact Hall|].
    intros [stack delim] [Hstack Hdelim]. unfold compose. cbn [fst snd] in *.
    rewrite slice_init_last. split; [exact Hstack|]. split; [|exact Hdelim].
    intros Hlast. apply last_None in Hlast. subst stack. reflexivity.
Qed.

Lemma type_token_cases (t : Token) :
  type_token t = true ->
  (exists w, t = mk_Token TOK_WORD w) \/ t = mk_Token TOK_CHAR "*".
Proof.
  unfold type_token, tok_is. intros H. apply orb_true_iff in H as [H|H].
  - apply bool_decide_eq_true_1 in H. destruct t as [ty v]. cbn in H.
    subst ty. eauto.
  - apply bool_decide_eq_true_1 in H. eauto.
Qed.

Lemma make_type_loop_total (directive : string) (coord : Coordinate.t)
    (toks : list Token) :
  forallb type_token toks = true ->
  forall (type_ : list string) (last_tok : option Token),
    (is_Some last_tok -> type_ <> []) ->
    exists r, make_type_loop directive coord type_ last_tok toks = Ok r.
Proof.
  induction toks as [|t toks IH]; intros Hall type_ last_tok Hlast;
    [eauto|].
  cbn [forallb] in Hall. apply andb_true_iff in Hall as [Ht Hall].
  cbn [make_type_loop].
  assert (Hok : negb (bool_decide (perfile.type_ t = TOK_WORD))
                && negb (tok_is t TOK_CHAR "*") = false).
  { unfold type_token in Ht. rewrite <- negb_orb, Ht. reflexivity. }
  rewrite Hok.
  destruct (bool_decide (is_Some last_tok) && _ && _) eqn:Hcond.
  - apply andb_true_iff in Hcond as [Hcond _].
    apply andb_true_iff in Hcond as [Hsome _].
    apply bool_decide_eq_true_1 in Hsome.
    destruct (hypo_error_facts.add_to_last_ok type_ (value t) (Hlast Hsome))
      as (r & -> & Hne).
    cbn [rbind]. apply IH; [exact Hall|intros _; exact Hne].
  - cbn [rbind]. apply IH; [exact Hall|].
    intros _. destruct type_; discriminate.
Qed.

Lemma make_type_loop_bad (directive : string) (coord : Coordinate.t)
    (toks : list Token) :
  forallb type_token toks = false ->
  forall (type_ : list string) (last_tok : option Token),
    (is_Some last_tok -> type_ <> []) ->
    make_type_loop directive coord type_ last_tok toks
    = Raise (ParseException ("Invalid %" +:+ directive +:+ " directive at "
                               +:+ Coordinate.__str__ coord)).
Proof.
  induction toks as [|t toks IH]; intros Hall type_ last_tok Hlast;
    [discriminate Hall|].
  cbn [forallb] in Hall. cbn [make_type_loop].
  destruct (type_token t) eqn:Ht.
  - assert (Hok : negb (bool_decide (perfile.type_ t = TOK_WORD))
                  && negb (tok_is t TOK_CHAR "*") = false).
    { unfold type_token in Ht. rewrite <- negb_orb, Ht. reflexivity. }
    rewrite Hok. cbn [andb] in Hall.
    destruct (bool_decide (is_Some last_tok) && _ && _) eqn:Hcond.
    + apply andb_true_iff in Hcond as [Hcond _].
      apply andb_true_iff in Hcond as [Hsome _].
      apply bool_decide_eq_true_1 in Hsome.
      destruct (hypo_error_facts.add_to_last_ok type_ (value t) (Hlast Hsome))
        as (r & -> & Hne).
      cbn [rbind]. apply IH; [exact Hall|intros _; exact Hne].
    + cbn [rbind]. apply IH; [exact Hall|].
      intros _. destruct type_; discriminate.
  - assert (Hbad : negb (bool_decide (perfile.type_ t = TOK_WORD))
                   && negb (tok_is t TOK_CHAR "*") = true).
    { unfold type_token in Ht. rewrite <- negb_orb, Ht. reflexivity. }
    rewrite Hbad. reflexivity.
Qed.

Lemma make_type_loop_words (directive : string) (coord : Coordinate.t)
    (ws : list string) :
  forall (type_ : list string) (last_tok : option Token),
    (forall t, last_tok = Some t -> perfile.type_ t = TOK_WORD) ->
    make_type_loop directive coord type_ last_tok (mk_Token TOK_WORD <$> ws)
    = Ok (type_ ++ ws).
Proof.
  induction ws as [|w ws IH]; intros type_ last_tok Hlast.
  - cbn. rewrite app_nil_r. reflexivity.
  - cbn [fmap list_fmap]. rewrite mock_facts.make_type_loop_word.
    rewrite IH by (intros t [= <-]; reflexivity).
    rewrite <- app_assoc. reflexivity.
Qed.

Lemma make_type_type_tokens (toks : list Token) (directive : string)
    (coord : Coordinate.t) :
  forallb type_token toks = true ->
  exists s, _make_type toks directive coord = Ok s.
Proof.
  intros H. unfold _make_type.
  destruct (make_type_loop_total directive coord toks H [] None) as [r ->];
    [intros [? Hn]; discriminate Hn|].
  eauto.
Qed.

(** X14. A type string is made exactly of the token lists that hold
    words and asterisks only: any other token makes [_make_type] raise
    the parse failure that names the directive and the coordinate, and
    nothing else is ever raised.  The type string of words is the words
    with one space between two of them. *)
Theorem make_type_total (toks : list Token) (directive : string)
    (coord : Coordinate.t) :
  (forallb type_token toks = true ->
   exists s, _make_type toks directive coord = Ok s)
  /\ (forallb type_token toks = false ->
      _make_type toks directive coord
      = Raise (ParseException ("Invalid %" +:+ directive +:+ " directive at "
                                 +:+ Coordinate.__str__ coord)))
  /\ (forall ws : list string,
        _make_type (mk_Token TOK_WORD <$> ws) directive coord
        = Ok (py.join " " ws)).
Proof.
  split; [exact (make_type_type_tokens toks directive coord)|].
  unfold _make_type. split.
  - intros H.
    rewrite (make_type_loop_bad directive coord toks H [] None);
      [reflexivity|intros [? Hn]; discriminate Hn].
  - intros ws.
    rewrite (make_type_loop_words directive coord ws [] None);
      [reflexivity|intros t Ht; discriminate Ht].
Qed.

Lemma make_type_total_witness :
  (exists s,
      _make_type [mk_Token TOK_WORD "char"; mk_Token TOK_CHAR "*";
                  mk_Token TOK_CHAR "*"] "mock" (Coordinate.mk "t.hypo" 2)
      = Ok s)
  /\ _make_type [mk_Token TOK_WORD "int"; mk_Token TOK_CHAR "["] "mock"
       (Coordinate.mk "t.hypo" 2)
     = Raise (ParseException "Invalid %mock directive at t.hypo:2").
Proof.
  split.
  - apply (proj1 (make_type_total _ "mock" (Coordinate.mk "t.hypo" 2))).
    reflexivity.
  - apply (proj1 (proj2 (make_type_total _ "mock" (Coordinate.mk "t.hypo" 2)))).
    reflexivity.
Defined.

End declaration_facts.

Module mock_declaration_facts.

Import location linelist perfile hypofile spec string_facts split_facts
  join_facts sequence_facts declaration_facts.

Lemma type_token_not_delim (t : Token) :
  type_token t = true -> t ∉ _mock_type_delims.
Proof.
  intros Ht Hin. unfold _mock_type_delims in Hin.
  apply type_token_cases in Ht as [[w ->]| ->];
    set_unfold; destruct Hin as [[H|H]|H]; discriminate H.
Qed.

Lemma word_not_delim (w : string) : mk_Token TOK_WORD w ∉ _mock_type_delims.
Proof. apply type_token_not_delim. reflexivity. Qed.

Lemma forallb_type_token_not_delim (ty : list Token) :
  forallb type_token ty = true -> Forall (fun t => t ∉ _mock_type_delims) ty.
Proof.
  induction ty as [|t ty IH]; intros H; [constructor|].
  cbn [forallb] in H. apply andb_true_iff in H as [Ht H].
  constructor; [apply type_token_not_delim, Ht|apply IH, H].
Qed.

Lemma typed_name_not_delim (p : list Token * string) :
  parameter p -> Forall (fun t => t ∉ _mock_type_delims) (typed_name p).
Proof.
  intros (_ & Hty & _). unfold typed_name. apply Forall_app. split.
  - apply forallb_type_token_not_delim, Hty.
  - repeat constructor. apply word_not_delim.
Qed.

(** The stacks and delimiters of a parameter list and its closing
    parenthesis. *)
Fixpoint param_split (params : list (list Token * string))
    : list (list Token * option Token) :=
  match params with
  | [] => [([], Some (mk_Token TOK_CHAR ")")); ([], None)]
  | [p] => [(typed_name p, Some (mk_Token TOK_CHAR ")")); ([], None)]
  | p :: rest => (typed_name p, Some (mk_Token TOK_CHAR ",")) :: param_split rest
  end.

Lemma close_paren_delim : mk_Token TOK_CHAR ")" ∈ _mock_type_delims.
Proof. unfold _mock_type_delims. set_solver. Qed.

Lemma comma_delim : mk_Token TOK_CHAR "," ∈ _mock_type_delims.
Proof. unfold _mock_type_delims. set_solver. Qed.

Lemma open_paren_delim : mk_Token TOK_CHAR "(" ∈ _mock_type_delims.
Proof. unfold _mock_type_delims. set_solver. Qed.

Lemma split_params (params : list (list Token * string)) :
  Forall parameter params ->
  split_toks_delim
    (separated (mk_Token TOK_CHAR ",") (typed_name <$> params)
       ++ [mk_Token TOK_CHAR ")"]) _mock_type_delims
  = param_split params.
Proof.
  induction 1 as [|p params Hp _ IH].
  - exact (split_delim_app _ [] _ [] (List.Forall_nil _) close_paren_delim).
  - destruct params as [|p' params].
    + cbn [fmap list_fmap separated param_split].
      rewrite (split_delim_app _ _ _ [] (typed_name_not_delim p Hp)
                 close_paren_delim).
      reflexivity.
    + change (separated (mk_Token TOK_CHAR ",")
                (typed_name <$> p :: p' :: params)
              ++ [mk_Token TOK_CHAR ")"])
        with ((typed_name p ++ mk_Token TOK_CHAR ","
                 :: separated (mk_Token TOK_CHAR ",")
                      (typed_name <$> p' :: params))
              ++ [mk_Token TOK_CHAR ")"]).
      rewrite <- app_assoc. cbn [app].
      rewrite (split_delim_app _ _ _ _ (typed_name_not_delim p Hp) comma_delim).
      rewrite IH. reflexivity.
Qed.

(** The triple of a stack that ends with a name. *)
Definition triple_of (p : list Token * option Token)
    : list Token * option Token * option Token :=
  (py.slice p.1 None (Some (-1)), last p.1, p.2).

Lemma extract_type_triples (toks : list Token) (delims : gset Token) :
  _extract_type toks delims = triple_of <$> split_toks_delim toks delims.
Proof.
  unfold _extract_type. apply list_fmap_ext. intros i [stack delim] _.
  reflexivity.
Qed.

Lemma triple_of_typed_name (p : list Token * string) (d : option Token) :
  triple_of (typed_name p, d) = (p.1, Some (mk_Token TOK_WORD p.2), d).
Proof.
  unfold triple_of, typed_name. cbn [fst snd].
  rewrite slice_snoc, last_snoc. reflexivity.
Qed.

Lemma parameter_make_type (p : list Token * string) (coord : Coordinate.t) :
  parameter p -> exists ty, _make_type p.1 "mock" coord = Ok ty.
Proof.
  intros (_ & Hty & _). exact (declaration_facts.make_type_type_tokens _ _ _ Hty).
Qed.

Lemma mock_args_loop_params (coord : Coordinate.t)
    (params : list (list Token * string)) (tys : list string) :
  Forall parameter params ->
  Forall2 (fun p ty => _make_type p.1 "mock" coord = Ok ty) params tys ->
  params <> [] ->
  forall args : list HypoMockArg,
    mock_args_loop coord false args (triple_of <$> param_split params)
    = Ok (args ++ zip_with mk_HypoMockArg tys (snd <$> params)).
Proof.
  intros Hparams Htys. revert Hparams.
  induction Htys as [|p ty params tys Hty Htys IH]; intros Hparams Hne args;
    [contradiction|].
  apply Forall_cons in Hparams as [Hp Hparams].
  destruct Hp as (Hne1 & Htok & Hname).
  destruct p as [pt pn]. cbn [fst snd] in *.
  destruct pt as [|t0 pt]; [contradiction|].
  assert (Hn : String.eqb pn "" = false) by (apply String.eqb_neq, Hname).
  destruct params as [|p' params].
  - (* the last parameter *)
    inversion Htys; subst.
    cbn [param_split fmap list_fmap].
    rewrite triple_of_typed_name. cbn [fst snd].
    cbn [mock_args_loop].
    rewrite (bool_decide_eq_false_2 (Some (tok TOK_CHAR ")") = None))
      by discriminate.
    rewrite (bool_decide_eq_true_2
               (Some (mk_Token TOK_CHAR ")") = Some (tok TOK_CHAR ")")))
      by reflexivity.
    rewrite (bool_decide_eq_false_2 (t0 :: pt = [])) by discriminate.
    rewrite !andb_false_r. cbn [orb andb].
    cbn [perfile.type_ value]. rewrite Hn.
    rewrite (bool_decide_eq_true_2 (TOK_WORD = TOK_WORD)) by reflexivity.
    rewrite (bool_decide_eq_false_2
               (Some (mk_Token TOK_CHAR ")") = Some (tok TOK_CHAR "(")))
      by discriminate.
    cbn [negb orb]. rewrite Hty. cbn [rbind].
    change (triple_of ([], None)) with
      (@nil Token, @None Token, @None Token).
    cbn [mock_args_loop].
    rewrite (bool_decide_eq_true_2 (@nil Token = [])) by reflexivity.
    rewrite (bool_decide_eq_false_2 (is_Some (@None Token)))
      by (intros [? H]; discriminate H).
    reflexivity.
  - (* a parameter followed by a comma *)
    change (param_split ((t0 :: pt, pn) :: p' :: params))
      with ((typed_name (t0 :: pt, pn), Some (mk_Token TOK_CHAR ","))
            :: param_split (p' :: params)).
    cbn [fmap list_fmap].
    rewrite triple_of_typed_name. cbn [fst snd].
    cbn [mock_args_loop].
    rewrite (bool_decide_eq_false_2 (Some (mk_Token TOK_CHAR ",") = None))
      by discriminate.
    rewrite (bool_decide_eq_false_2
               (Some (mk_Token TOK_CHAR ",") = Some (tok TOK_CHAR ")")))
      by discriminate.
    cbn [andb].
    cbn [perfile.type_ value]. rewrite Hn.
    rewrite (bool_decide_eq_true_2 (TOK_WORD = TOK_WORD)) by reflexivity.
    rewrite (bool_decide_eq_false_2
               (Some (mk_Token TOK_CHAR ",") = Some (tok TOK_CHAR "(")))
      by discriminate.
    cbn [negb orb]. rewrite Hty. cbn [rbind].
    rewrite (IH Hparams) by discriminate.
    cbn [zip_with fmap list_fmap snd]. rewrite <- app_assoc. reflexivity.
Qed.

(** X15. The [%mock] directive on the tokens of a declaration, a return
    type of words and asterisks, a name, and between parentheses any
    number of parameters separated by commas, each a type of words and
    asterisks followed by a name, stores under the name a mock whose
    return type is the type string of the return type and whose
    arguments are, in order, the type strings and the names of the
    parameters; its range is the line of the directive.  Nothing else
    of the values is changed, and no callable is left with the
    parser. *)
Theorem mock_declaration (values : gmap (option string) dict_value)
    (d : gmap string object) (coord : Coordinate.t)
    (return_type : list Token) (name : string)
    (params : list (list Token * string)) :
  values !! Some "mocks" = Some (VDict d) ->
  parameter (return_type, name) ->
  Forall parameter params ->
  exists (rt : string) (tys : list string),
    _make_type return_type "mock" coord = Ok rt
    /\ Forall2 (fun p ty => _make_type p.1 "mock" coord = Ok ty) params tys
    /\ mock values coord (declaration return_type name params)
       = Ok (None,
             <[Some "mocks" :=
                 VDict (<[name :=
                            OMock (HypocriteMock.mk
                                     (CoordinateRange.mk (Coordinate.path coord)
                                        (Coordinate.lno coord)
                                        (Coordinate.lno coord))
                                     name rt
                                     (zip_with mk_HypoMockArg tys
                                        (snd <$> params)))]> d)]> values).
Proof.
  intros Hmocks Hrt Hparams.
  destruct (parameter_make_type _ coord Hrt) as [rt Hmake].
  cbn [fst] in Hmake.
  assert (Htys : exists tys,
             Forall2 (fun p ty => _make_type p.1 "mock" coord = Ok ty)
               params tys).
  { clear -Hparams. induction Hparams as [|p params Hp _ [tys IH]].
    - exists []. constructor.
    - destruct (parameter_make_type p coord Hp) as [ty Hty].
      exists (ty :: tys). constructor; assumption. }
  destruct Htys as [tys Htys].
  exists rt, tys. split; [exact Hmake|]. split; [exact Htys|].
  unfold mock, declaration.
  rewrite extract_type_triples.
  change (return_type ++ [mk_Token TOK_WORD name; mk_Token TOK_CHAR "("]
            ++ separated (mk_Token TOK_CHAR ",") (typed_name <$> params)
            ++ [mk_Token TOK_CHAR ")"])
    with (return_type ++ mk_Token TOK_WORD name
            :: mk_Token TOK_CHAR "("
            :: (separated (mk_Token TOK_CHAR ",") (typed_name <$> params)
                  ++ [mk_Token TOK_CHAR ")"])).
  rewrite (cons_middle (mk_Token TOK_WORD name)), app_assoc.
  change (return_type ++ [mk_Token TOK_WORD name])
    with (typed_name (return_type, name)).
  rewrite (split_delim_app _ _ _ _ (typed_name_not_delim _ Hrt)
             open_paren_delim).
  rewrite (split_params params Hparams).
  cbn [fmap list_fmap]. rewrite triple_of_typed_name. cbn [fst snd].
  destruct Hrt as (Hne & _ & Hname). cbn [fst snd] in Hne, Hname.
  destruct return_type as [|t0 return_type]; [contradiction|].
  cbn [perfile.type_ value].
  rewrite (proj2 (String.eqb_neq name "") Hname).
  rewrite (bool_decide_eq_true_2 (TOK_WORD = TOK_WORD)) by reflexivity.
  rewrite (bool_decide_eq_true_2
             (Some (mk_Token TOK_CHAR "(") = Some (tok TOK_CHAR "(")))
    by reflexivity.
  cbn [negb orb]. rewrite Hmake. cbn [rbind].
  assert (Hargs : mock_args_loop coord false []
                    (triple_of <$> param_split params)
                  = Ok (zip_with mk_HypoMockArg tys (snd <$> params))).
  { destruct params as [|p params].
    - inversion Htys; subst. reflexivity.
    - rewrite (mock_args_loop_params coord _ tys Hparams Htys) by discriminate.
      reflexivity. }
  rewrite Hargs. cbn [rbind].
  rewrite mock_facts.sub_coord_self. cbn [rbind].
  unfold values_setitem. rewrite Hmocks. reflexivity.
Qed.

(** [int *f(char **argv, int argc)] *)
Lemma mock_declaration_witness :
  exists (rt : string) (tys : list string),
    _make_type [mk_Token TOK_WORD "int"; mk_Token TOK_CHAR "*"] "mock"
      (Coordinate.mk "t.hypo" 3) = Ok rt
    /\ Forall2 (fun p ty => _make_type p.1 "mock" (Coordinate.mk "t.hypo" 3)
                            = Ok ty)
         [([mk_Token TOK_WORD "char"; mk_Token TOK_CHAR "*";
            mk_Token TOK_CHAR "*"], "argv");
          ([mk_Token TOK_WORD "int"], "argc")] tys
    /\ mock (_values DIRECTIVES) (Coordinate.mk "t.hypo" 3)
         (declaration [mk_Token TOK_WORD "int"; mk_Token TOK_CHAR "*"] "f"
            [([mk_Token TOK_WORD "char"; mk_Token TOK_CHAR "*";
               mk_Token TOK_CHAR "*"], "argv");
             ([mk_Token TOK_WORD "int"], "argc")])
       = Ok (None,
             <[Some "mocks" :=
                 VDict (<["f" :=
                            OMock (HypocriteMock.mk
                                     (CoordinateRange.mk "t.hypo" 3 3) "f" rt
                                     (zip_with mk_HypoMockArg tys
                                        ["argv"; "argc"]))]> ∅)]>
               (_values DIRECTIVES)).
Proof.
  apply (mock_declaration (_values DIRECTIVES) ∅ (Coordinate.mk "t.hypo" 3)
           [mk_Token TOK_WORD "int"; mk_Token TOK_CHAR "*"] "f"
           [([mk_Token TOK_WORD "char"; mk_Token TOK_CHAR "*";
              mk_Token TOK_CHAR "*"], "argv");
            ([mk_Token TOK_WORD "int"], "argc")]).
  - reflexivity.
  - split; [discriminate|]. split; [reflexivity|discriminate].
  - repeat constructor; discriminate.
Defined.

End mock_declaration_facts.

Module test_directive_facts.

Import location linelist perfile hypofile spec string_facts split_facts
  join_facts sequence_facts.

Lemma index_from_end {A} (l r : list A) (k : nat) (x : A) :
  r !! k = Some x ->
  py.index (l ++ r) (Z.of_nat k - Z.of_nat (length r)) = Ok x.
Proof.
  intros Hk. pose proof (lookup_lt_Some _ _ _ Hk) as Hlt.
  rewrite index_neg by lia. rewrite length_app.
  destruct (Z.ltb_spec (Z.of_nat k - Z.of_nat (length r)
                        + Z.of_nat (length l + length r)) 0); [lia|].
  rewrite index_nonneg by lia.
  replace (Z.to_nat (Z.of_nat k - Z.of_nat (length r)
                     + Z.of_nat (length l + length r)))
    with (length l + k)%nat by lia.
  rewrite lookup_app_r by lia.
  replace (length l + k - length l)%nat with k by lia.
  rewrite Hk. reflexivity.
Qed.

Lemma slice_middle {A} (a b x y : A) (mid : list A) :
  py.slice (a :: b :: mid ++ [x; y]) (Some 2) (Some (-2)) = mid.
Proof.
  unfold py.slice. cbn [py.bound_lo py.bound_hi length].
  rewrite length_app. cbn [length].
  assert (Hlo : py.clamp (S (S (length mid + 2))) 2 = 2%nat).
  { unfold py.clamp. cbn [Z.ltb Z.compare].
    destruct (Z.ltb_spec (Z.of_nat (S (S (length mid + 2)))) 2); lia. }
  assert (Hhi : py.clamp (S (S (length mid + 2))) (-2)
                = S (S (length mid))).
  { unfold py.clamp. cbn [Z.ltb Z.compare].
    destruct (Z.ltb_spec (-2 + Z.of_nat (S (S (length mid + 2)))) 0); [lia|].
    destruct (Z.ltb_spec (Z.of_nat (S (S (length mid + 2))))
                (-2 + Z.of_nat (S (S (length mid + 2))))); lia. }
  rewrite Hlo, Hhi. cbn [drop].
  replace (S (S (length mid)) - 2)%nat with (length mid) by lia.
  apply take_app_length.
Qed.

Section Separated.

Context {A : Type} `{Countable A}.

Lemma split_separated_runs (delims : gset A) (sep : A) (runs : list (list A)) :
  sep ∈ delims ->
  runs <> [] ->
  Forall (Forall (fun t => t ∉ delims)) runs ->
  split_toks
    (match runs with
     | [] => []
     | r :: rest => foldl (fun acc r' => acc ++ sep :: r') r rest
     end) delims = runs.
Proof.
  intros Hsep Hne Hruns. destruct runs as [|r runs]; [contradiction|].
  clear Hne. apply Forall_cons in Hruns as [Hr Hruns].
  unfold split_toks.
  assert (Hgen : forall done r0,
             Forall (fun t => t ∉ delims) r0 ->
             forall pre,
               (forall rest, split_toks_delim (pre ++ rest) delims
                             = done ++ split_toks_delim rest delims) ->
               fst <$> split_toks_delim
                         (pre ++ foldl (fun acc r' => acc ++ sep :: r') r0 runs)
                         delims
               = (fst <$> done) ++ r0 :: runs).
  { revert Hruns. clear Hr. induction runs as [|r1 runs IH];
      intros Hruns done r0 Hr0 pre Hpre.
    - cbn [foldl]. rewrite Hpre, fmap_app, (split_delim_plain delims r0 Hr0).
      reflexivity.
    - apply Forall_cons in Hruns as [Hr1 Hruns].
      cbn [foldl].
      assert (Hfold : forall l acc,
                 foldl (fun acc r' => acc ++ sep :: r') acc l
                 = acc ++ foldl (fun acc r' => acc ++ sep :: r') [] l).
      { clear. induction l as [|x l IHl]; intros acc.
        - cbn. rewrite app_nil_r. reflexivity.
        - cbn [foldl]. rewrite IHl, (IHl ([] ++ sep :: x)).
          rewrite <- !app_assoc. reflexivity. }
      rewrite Hfold, <- app_assoc. cbn [app].
      rewrite Hpre, (split_delim_app delims r0 sep _ Hr0 Hsep).
      specialize (IH Hruns [] r1 Hr1 []).
      cbn [app fmap list_fmap] in IH.
      rewrite fmap_app. cbn [fmap list_fmap fst].
      rewrite <- Hfold. rewrite IH; [reflexivity|].
      intros rest. reflexivity. }
  specialize (Hgen [] r Hr []). cbn [app fmap list_fmap] in Hgen.
  apply Hgen. intros rest. reflexivity.
Qed.

End Separated.

Lemma separated_fold (sep : Token) (runs : list (list Token)) :
  separated sep runs
  = match runs with
    | [] => []
    | r :: rest => foldl (fun acc r' => acc ++ sep :: r') r rest
    end.
Proof.
  destruct runs as [|r runs]; [reflexivity|].
  revert r. induction runs as [|r1 runs IH]; intros r; [reflexivity|].
  change (separated sep (r :: r1 :: runs))
    with (r ++ sep :: separated sep (r1 :: runs)).
  rewrite IH. cbn [foldl].
  clear IH. revert r r1. induction runs as [|r2 runs IH2]; intros r r1.
  - reflexivity.
  - cbn [foldl]. rewrite <- IH2.
    rewrite <- (IH2 (r ++ sep :: r1)). rewrite <- !app_assoc. reflexivity.
Qed.

Lemma fixture_tokens_no_comma (f : HypoFixtureInjection) :
  Forall (fun t => t ∉ ({[tok TOK_CHAR ","]} : gset Token)) (fixture_tokens f).
Proof.
  unfold fixture_tokens. destruct (inject f); repeat constructor;
    apply not_elem_of_singleton; discriminate.
Qed.

Lemma test_fixtures_loop_tokens (coord : Coordinate.t)
    (fixtures : list HypoFixtureInjection) :
  Forall (fun f => fixture f <> "") fixtures ->
  forall acc : list HypoFixtureInjection,
    test_fixtures_loop coord acc (fixture_tokens <$> fixtures)
    = Ok (acc ++ fixtures).
Proof.
  induction 1 as [|[name inj] fixtures Hname _ IH]; intros acc.
  - cbn. rewrite app_nil_r. reflexivity.
  - cbn [fmap list_fmap test_fixtures_loop]. cbn [fixture] in Hname.
    apply String.eqb_neq in Hname.
    unfold fixture_tokens. cbn [inject fixture].
    destruct inj; cbn [app length].
    + rewrite (bool_decide_eq_false_2 (1 < 1)%nat) by lia.
      rewrite (bool_decide_eq_false_2 (2 < 1)%nat) by lia.
      cbn [orb]. rewrite (index_nonneg _ 0) by lia.
      change (Z.to_nat 0) with 0%nat. cbn [lookup list_lookup rbind].
      unfold tok_is.
      rewrite (bool_decide_eq_false_2
                 (mk_Token TOK_WORD name = mk_Token TOK_CHAR "!"))
        by discriminate.
      cbn [perfile.type_ value]. rewrite Hname.
      rewrite (bool_decide_eq_true_2 (TOK_WORD = TOK_WORD)) by reflexivity.
      cbn [negb orb]. rewrite IH, <- app_assoc. reflexivity.
    + rewrite (bool_decide_eq_false_2 (2 < 1)%nat) by lia.
      rewrite (bool_decide_eq_false_2 (2 < 2)%nat) by lia.
      cbn [orb]. rewrite (index_nonneg _ 0) by lia.
      change (Z.to_nat 0) with 0%nat. cbn [lookup list_lookup rbind].
      unfold tok_is.
      rewrite (bool_decide_eq_true_2
                 (mk_Token TOK_CHAR "!" = mk_Token TOK_CHAR "!"))
        by reflexivity.
      cbn [drop perfile.type_ value]. rewrite Hname.
      rewrite (bool_decide_eq_true_2 (TOK_WORD = TOK_WORD)) by reflexivity.
      cbn [negb orb]. rewrite IH, <- app_assoc. reflexivity.
Qed.

(** X16. The head of a test, a name, then between parentheses and
    separated by commas the fixtures asked for, each a name or an
    exclamation mark and a name, then an opening brace, creates the
    test directive of that name with those fixtures in order, a fixture
    after an exclamation mark being one that is not injected; without
    parentheses the test has no fixture.  A pair of parentheses with
    nothing between them is refused as an invalid fixture
    specification. *)
Theorem test_fixture_list (values : gmap (option string) dict_value)
    (coord : Coordinate.t) (name : string) :
  (forall fixtures : list HypoFixtureInjection,
      name <> "" ->
      Forall (fun f => fixture f <> "") fixtures ->
      TestDirective__init__ values coord (test_tokens name fixtures)
      = Ok (Some (TestDirective name fixtures coord), values))
  /\ TestDirective__init__ values coord
       [mk_Token TOK_WORD name; mk_Token TOK_CHAR "("; mk_Token TOK_CHAR ")";
        mk_Token TOK_CHAR "{"]
     = Raise (ParseException
                ((if String.eqb name "" then "Invalid %test directive at "
                  else "Invalid fixture specification in %test directive at ")
                   +:+ Coordinate.__str__ coord)).
Proof.
  split.
  - intros fixtures Hname Hfix. apply String.eqb_neq in Hname.
    unfold test_tokens, TestDirective__init__.
    destruct fixtures as [|f fixtures].
    + cbn [app length]. rewrite !(bool_decide_eq_false_2 (2 < 2)%nat) by lia.
      rewrite (index_nonneg _ 0) by lia.
      change (Z.to_nat 0) with 0%nat. cbn [lookup list_lookup rbind].
      pose proof (index_from_end [mk_Token TOK_WORD name]
                    [mk_Token TOK_CHAR "{"] 0 (mk_Token TOK_CHAR "{") eq_refl)
        as Hlast.
      cbn [app length] in Hlast.
      change (Z.of_nat 0 - Z.of_nat 1) with (-1) in Hlast.
      rewrite Hlast. cbn [rbind perfile.type_ value]. rewrite Hname.
      unfold tok_is.
      rewrite !(bool_decide_eq_true_2 (_ = _)) by reflexivity.
      reflexivity.
    + set (mid := separated (mk_Token TOK_CHAR ",")
                    (fixture_tokens <$> f :: fixtures)).
      assert (Htoks : mk_Token TOK_WORD name
                      :: (mk_Token TOK_CHAR "("
                            :: mid ++ [mk_Token TOK_CHAR ")"])
                         ++ [mk_Token TOK_CHAR "{"]
                      = mk_Token TOK_WORD name :: mk_Token TOK_CHAR "("
                        :: mid ++ [mk_Token TOK_CHAR ")"; mk_Token TOK_CHAR "{"]).
      { cbn [app]. rewrite <- app_assoc. reflexivity. }
      rewrite Htoks.
      assert (Hlen : length (mk_Token TOK_WORD name :: mk_Token TOK_CHAR "("
                               :: mid ++ [mk_Token TOK_CHAR ")";
                                          mk_Token TOK_CHAR "{"])
                     = (length mid + 4)%nat).
      { cbn [length]. rewrite length_app. cbn [length]. lia. }
      rewrite Hlen.
      rewrite (bool_decide_eq_false_2 (length mid + 4 < 2)%nat) by lia.
      rewrite (bool_decide_eq_true_2 (2 < length mid + 4)%nat) by lia.
      rewrite (index_nonneg _ 0) by lia.
      change (Z.to_nat 0) with 0%nat. cbn [lookup list_lookup rbind].
      rewrite (index_nonneg _ 1) by lia.
      change (Z.to_nat 1) with 1%nat. cbn [lookup list_lookup rbind].
      pose proof (index_from_end
                    (mk_Token TOK_WORD name :: mk_Token TOK_CHAR "(" :: mid)
                    [mk_Token TOK_CHAR ")"; mk_Token TOK_CHAR "{"] 1
                    (mk_Token TOK_CHAR "{") eq_refl) as Hlast.
      pose proof (index_from_end
                    (mk_Token TOK_WORD name :: mk_Token TOK_CHAR "(" :: mid)
                    [mk_Token TOK_CHAR ")"; mk_Token TOK_CHAR "{"] 0
                    (mk_Token TOK_CHAR ")") eq_refl) as Hbefore.
      cbn [app length] in Hlast, Hbefore.
      change (Z.of_nat 1 - Z.of_nat 2) with (-1) in Hlast.
      change (Z.of_nat 0 - Z.of_nat 2) with (-2) in Hbefore.
      rewrite Hlast, Hbefore. cbn [rbind perfile.type_ value].
      rewrite Hname. unfold tok_is.
      rewrite (bool_decide_eq_true_2 (TOK_WORD = TOK_WORD)) by reflexivity.
      rewrite !(bool_decide_eq_true_2 (_ = _)) by reflexivity.
      cbn [negb orb].
      rewrite slice_middle. unfold mid.
      rewrite separated_fold.
      rewrite (split_separated_runs {[tok TOK_CHAR ","]} (mk_Token TOK_CHAR ",")
                 (fixture_tokens <$> f :: fixtures)).
      * rewrite (test_fixtures_loop_tokens coord _ Hfix []). reflexivity.
      * apply elem_of_singleton. reflexivity.
      * discriminate.
      * apply Forall_fmap, Forall_forall. intros x _.
        apply fixture_tokens_no_comma.
  - unfold TestDirective__init__. cbn [length].
    rewrite (bool_decide_eq_false_2 (4 < 2)%nat) by lia.
    rewrite (bool_decide_eq_true_2 (2 < 4)%nat) by lia.
    rewrite (index_nonneg _ 0) by lia.
    change (Z.to_nat 0) with 0%nat. cbn [lookup list_lookup rbind].
    rewrite (index_nonneg _ 1) by lia.
    change (Z.to_nat 1) with 1%nat. cbn [lookup list_lookup rbind].
    pose proof (index_from_end
                  [mk_Token TOK_WORD name; mk_Token TOK_CHAR "("]
                  [mk_Token TOK_CHAR ")"; mk_Token TOK_CHAR "{"] 1
                  (mk_Token TOK_CHAR "{") eq_refl) as Hlast.
    pose proof (index_from_end
                  [mk_Token TOK_WORD name; mk_Token TOK_CHAR "("]
                  [mk_Token TOK_CHAR ")"; mk_Token TOK_CHAR "{"] 0
                  (mk_Token TOK_CHAR ")") eq_refl) as Hbefore.
    cbn [app length] in Hlast, Hbefore.
    change (Z.of_nat 1 - Z.of_nat 2) with (-1) in Hlast.
    change (Z.of_nat 0 - Z.of_nat 2) with (-2) in Hbefore.
    rewrite Hlast, Hbefore. cbn [rbind perfile.type_ value].
    unfold tok_is.
    rewrite (bool_decide_eq_true_2 (TOK_WORD = TOK_WORD)) by reflexivity.
    rewrite !(bool_decide_eq_true_2 (_ = _)) by reflexivity.
    cbn [negb orb].
    destruct (String.eqb name ""); [reflexivity|]. cbn [orb].
    pose proof (slice_middle (mk_Token TOK_WORD name) (mk_Token TOK_CHAR "(")
                  (mk_Token TOK_CHAR ")") (mk_Token TOK_CHAR "{") [])
      as Hmid.
    cbn [app] in Hmid. rewrite Hmid. reflexivity.
Qed.

Lemma test_fixture_list_witness :
  TestDirective__init__ (_values DIRECTIVES) (Coordinate.mk "t.hypo" 5)
    (test_tokens "roundtrip"
       [mk_HypoFixtureInjection "db" true;
        mk_HypoFixtureInjection "clock" false])
  = Ok (Some (TestDirective "roundtrip"
                [mk_HypoFixtureInjection "db" true;
                 mk_HypoFixtureInjection "clock" false]
                (Coordinate.mk "t.hypo" 5)),
        _values DIRECTIVES).
Proof.
  apply (proj1 (test_fixture_list (_values DIRECTIVES)
                  (Coordinate.mk "t.hypo" 5) "roundtrip")).
  - discriminate.
  - repeat constructor; discriminate.
Defined.

End test_directive_facts.

Module store_facts.

Import location linelist perfile hypofile spec string_facts parser_facts
  fixture_facts.

Lemma odict_get_set_eq {V} (d : odict.t V) (k : string) (v : V) :
  odict.get (odict.set d k v) k = Some v.
Proof.
  induction d as [|[k' v'] d IH]; cbn.
  - rewrite String.eqb_refl. reflexivity.
  - destruct (String.eqb k' k) eqn:E; cbn.
    + rewrite String.eqb_refl. reflexivity.
    + rewrite E. exact IH.
Qed.

Lemma odict_get_set_ne {V} (d : odict.t V) (k k0 : string) (v : V) :
  k0 <> k -> odict.get (odict.set d k v) k0 = odict.get d k0.
Proof.
  intros Hne. induction d as [|[k' v'] d IH]; cbn.
  - destruct (String.eqb_spec k k0); [congruence|reflexivity].
  - destruct (String.eqb_spec k' k) as [->|Hk]; cbn.
    + destruct (String.eqb_spec k k0); [congruence|reflexivity].
    + destruct (String.eqb k' k0); [reflexivity|exact IH].
Qed.

Lemma odict_keys_set {V} (d : odict.t V) (k : string) (v : V) :
  fst <$> odict.set d k v
  = match odict.get d k with
    | Some _ => fst <$> d
    | None => (fst <$> d) ++ [k]
    end.
Proof.
  induction d as [|[k' v'] d IH]; cbn; [reflexivity|].
  destruct (String.eqb_spec k' k) as [->|Hk]; cbn; [reflexivity|].
  rewrite IH. destruct (odict.get d k); reflexivity.
Qed.

(** X17. The [%target] directive accepts exactly one string token that
    is not empty, and binds [target] to that string, changing nothing
    else; any other token list raises the parse failure, whose message
    speaks of a [%file] directive.  A second [%target] is accepted and
    overrides the first. *)
Theorem target_directive_spec (values : gmap (option string) dict_value)
    (coord : Coordinate.t) :
  (forall s : string,
      s <> "" ->
      target_directive values coord [mk_Token TOK_STR s]
      = Ok (None, <[Some "target" := VStr s]> values))
  /\ (forall toks : list Token,
        (forall s, toks = [mk_Token TOK_STR s] -> s = "") ->
        target_directive values coord toks
        = Raise (ParseException ("Invalid %file directive at "
                                   +:+ Coordinate.__str__ coord)))
  /\ (forall (s1 s2 : string) (coord2 : Coordinate.t),
        s1 <> "" -> s2 <> "" ->
        exists v1 v2,
          target_directive values coord [mk_Token TOK_STR s1] = Ok (None, v1)
          /\ target_directive v1 coord2 [mk_Token TOK_STR s2] = Ok (None, v2)
          /\ v2 = <[Some "target" := VStr s2]> values).
Proof.
  assert (H1 : forall vs c s,
             s <> "" ->
             target_directive vs c [mk_Token TOK_STR s]
             = Ok (None, <[Some "target" := VStr s]> vs)).
  { intros vs c s Hs. unfold target_directive. cbn [perfile.type_ value].
    rewrite (proj2 (String.eqb_neq s "") Hs).
    rewrite (bool_decide_eq_true_2 (TOK_STR = TOK_STR)) by reflexivity.
    reflexivity. }
  split; [apply H1|]. split.
  - intros toks Hbad. unfold target_directive.
    destruct toks as [|[ty v] [|? ?]]; try reflexivity.
    cbn [perfile.type_ value].
    destruct ty; try reflexivity.
    rewrite (Hbad v eq_refl). reflexivity.
  - intros s1 s2 coord2 Hs1 Hs2.
    exists (<[Some "target" := VStr s1]> values),
      (<[Some "target" := VStr s2]> values).
    split; [apply H1, Hs1|]. split; [|reflexivity].
    rewrite (H1 _ coord2 s2 Hs2), insert_insert_eq. reflexivity.
Qed.

Lemma target_directive_spec_witness :
  target_directive (_values DIRECTIVES) (Coordinate.mk "t.hypo" 1)
    [mk_Token TOK_STR "widget.c"]
  = Ok (None, <[Some "target" := VStr "widget.c"]> (_values DIRECTIVES))
  /\ target_directive (_values DIRECTIVES) (Coordinate.mk "t.hypo" 1)
       [mk_Token TOK_WORD "widget"]
     = Raise (ParseException "Invalid %file directive at t.hypo:1").
Proof.
  split.
  - apply (proj1 (target_directive_spec (_values DIRECTIVES)
                    (Coordinate.mk "t.hypo" 1))).
    discriminate.
  - apply (proj1 (proj2 (target_directive_spec (_values DIRECTIVES)
                           (Coordinate.mk "t.hypo" 1)))).
    intros s H. discriminate H.
Defined.

Lemma preamble_header (path : string)
    (values : gmap (option string) dict_value) :
  _parse_line DIRECTIVES call (Coordinate.mk path 1)
    (line_of "%preamble {") values __init__
  = (Ok values,
     mk_parser (Some (PreambleDirective (Coordinate.mk path 1)))
       (Some (LineList.mk [])) None None None 1).
Proof. vm_compute. reflexivity. Qed.

Lemma initial_preamble :
  _values DIRECTIVES !! Some "preamble" = Some (VList []).
Proof. vm_compute. reflexivity. Qed.

Lemma preamble_call_close (start_coord end_coord : Coordinate.t)
    (values : gmap (option string) dict_value) (l : list object)
    (buf : LineList.t) :
  values !! Some "preamble" = Some (VList l) ->
  Coordinate.path start_coord = Coordinate.path end_coord ->
  call (PreambleDirective start_coord) values end_coord buf (Some [])
  = Ok (None,
        <[Some "preamble" :=
            VList (l ++ [OPreamble
                           (Preamble.mk
                              (CoordinateRange.mk (Coordinate.path start_coord)
                                 (Z.min (Coordinate.lno start_coord)
                                    (Coordinate.lno end_coord))
                                 (Z.max (Coordinate.lno start_coord)
                                    (Coordinate.lno end_coord)))
                              buf)])]> values).
Proof.
  intros Hl Hpath. unfold call, PreambleDirective__call__.
  rewrite (location_facts.sub_coord_same_path _ _ Hpath). cbn [rbind].
  unfold values_append. rewrite Hl. reflexivity.
Qed.

(** X18. The call that ends a preamble adds the preamble, with the
    range from the line of the directive to the line of the closing
    marker and the lines of the block, behind the preambles already
    stored, whose order is kept.  Through the parser: [%preamble {],
    body lines and [%}] store one preamble whose code is the body
    lines, each without its line terminator and with its own
    coordinate. *)
Theorem preamble_block :
  (forall (start_coord end_coord : Coordinate.t)
          (values : gmap (option string) dict_value) (l : list object)
          (buf : LineList.t),
      values !! Some "preamble" = Some (VList l) ->
      Coordinate.path start_coord = Coordinate.path end_coord ->
      call (PreambleDirective start_coord) values end_coord buf (Some [])
      = Ok (None,
            <[Some "preamble" :=
                VList (l ++ [OPreamble
                               (Preamble.mk
                                  (CoordinateRange.mk
                                     (Coordinate.path start_coord)
                                     (Z.min (Coordinate.lno start_coord)
                                        (Coordinate.lno end_coord))
                                     (Z.max (Coordinate.lno start_coord)
                                        (Coordinate.lno end_coord)))
                                  buf)])]> values))
  /\ (forall (path : string) (body : list string),
        Forall plain body ->
        (HypoParser_parse
           ([line_of "%preamble {"] ++ body ++ [line_of "%}"]) path).1
        = Ok (<[Some "preamble" :=
                  VList [OPreamble
                           (Preamble.mk
                              (CoordinateRange.mk path 1
                                 (2 + Z.of_nat (length body)))
                              (LineList.mk (body_entries path 2 body)))]]>
                (_values DIRECTIVES))).
Proof.
  split; [exact preamble_call_close|].
  intros path body Hbody.
  unfold HypoParser_parse, parse.
  unfold M_bind at 1. unfold lift at 1. cbv iota.
  unfold M_bind at 1.
  rewrite parse_loop_app.
  cbn [parse_loop]. unfold M_bind at 1, except_Continue at 1.
  rewrite preamble_header. unfold M_ret at 1.
  rewrite parse_loop_app.
  rewrite parse_loop_accumulate by exact Hbody.
  cbn [parse_loop]. unfold M_bind at 1, except_Continue at 1.
  rewrite close_marker_line.
  erewrite preamble_call_close; [|apply initial_preamble|reflexivity].
  cbn [Coordinate.path Coordinate.lno LineList._entries app length].
  rewrite Z.min_l, Z.max_r by lia.
  unfold M_ret, M_bind, gets, raise.
  cbn [_continued _comment_pfx _deferred _start_coord fst].
  change (bool_decide (is_Some (@None string))) with false.
  cbv beta iota. cbn [_comment_pfx].
  change (bool_decide (is_Some (@None string))) with false.
  cbv beta iota. cbn [_deferred fst].
  replace (0 + Z.of_nat 1 + Z.of_nat (length body) + 1)
    with (2 + Z.of_nat (length body)) by lia.
  replace (0 + Z.of_nat 1 + 1) with 2 by lia.
  reflexivity.
Qed.

Lemma preamble_block_witness :
  Forall plain [line_of "#include <stdio.h>"; line_of "static int n;"]
  /\ (HypoParser_parse
        ([line_of "%preamble {"]
           ++ [line_of "#include <stdio.h>"; line_of "static int n;"]
           ++ [line_of "%}"]) "t.hypo").1
     = Ok (<[Some "preamble" :=
               VList [OPreamble
                        (Preamble.mk (CoordinateRange.mk "t.hypo" 1 4)
                           (LineList.mk
                              [mk_Entry (Some (Coordinate.mk "t.hypo" 2))
                                 "#include <stdio.h>";
                               mk_Entry (Some (Coordinate.mk "t.hypo" 3))
                                 "static int n;"]))]]>
             (_values DIRECTIVES)).
Proof.
  assert (Hbody : Forall plain [line_of "#include <stdio.h>";
                                line_of "static int n;"]).
  { repeat constructor. }
  split; [exact Hbody|].
  exact (proj2 preamble_block "t.hypo" _ Hbody).
Defined.

(** X19. The call that ends a test stores the test under its name in
    the ordered dictionary of tests, with the lines of the block and
    the fixtures of the head.  A name that is new goes behind the names
    stored; a name that is stored already keeps its place and gets the
    new test, so a test defined twice is kept once, as defined last;
    the tests under other names are not touched. *)
Theorem test_redefinition (name : string)
    (fixtures : list HypoFixtureInjection)
    (start_coord end_coord : Coordinate.t)
    (values : gmap (option string) dict_value) (d : odict.t object)
    (buf : LineList.t) :
  values !! Some "tests" = Some (VOrderedDict d) ->
  Coordinate.path start_coord = Coordinate.path end_coord ->
  exists (d' : odict.t object) (t : HypocriteTest.t),
    call (TestDirective name fixtures start_coord) values end_coord buf
      (Some [])
    = Ok (None, <[Some "tests" := VOrderedDict d']> values)
    /\ odict.get d' name = Some (OTest t)
    /\ HypocriteTest.name t = name
    /\ HypocriteTest.code t = buf
    /\ HypocriteTest.fixtures t = fixtures
    /\ (forall other, other <> name -> odict.get d' other = odict.get d other)
    /\ fst <$> d'
       = match odict.get d name with
         | Some _ => fst <$> d
         | None => (fst <$> d) ++ [name]
         end.
Proof.
  intros Htests Hpath.
  eexists. eexists. split.
  - unfold call, TestDirective__call__.
    rewrite (location_facts.sub_coord_same_path _ _ Hpath). cbn [rbind].
    unfold values_setitem. rewrite Htests. reflexivity.
  - split; [apply odict_get_set_eq|].
    split; [reflexivity|]. split; [reflexivity|]. split; [reflexivity|].
    split; [intros other Hne; apply odict_get_set_ne, Hne|].
    apply odict_keys_set.
Qed.

Lemma test_redefinition_witness :
  exists (d' : odict.t object) (t : HypocriteTest.t),
    call (TestDirective "a" [] (Coordinate.mk "t.hypo" 7))
      (<[Some "tests" :=
           VOrderedDict
             [("a", OTest (HypocriteTest.mk (CoordinateRange.mk "t.hypo" 1 3)
                             "a" (LineList.mk []) []));
              ("b", OTest (HypocriteTest.mk (CoordinateRange.mk "t.hypo" 4 6)
                             "b" (LineList.mk []) []))]]>
         (_values DIRECTIVES))
      (Coordinate.mk "t.hypo" 9)
      (LineList.__init__ (Some ["return;"]) None) (Some [])
    = Ok (None,
          <[Some "tests" := VOrderedDict d']>
            (<[Some "tests" :=
                 VOrderedDict
                   [("a", OTest (HypocriteTest.mk
                                   (CoordinateRange.mk "t.hypo" 1 3)
                                   "a" (LineList.mk []) []));
                    ("b", OTest (HypocriteTest.mk
                                   (CoordinateRange.mk "t.hypo" 4 6)
                                   "b" (LineList.mk []) []))]]>
               (_values DIRECTIVES)))
    /\ odict.get d' "a" = Some (OTest t)
    /\ HypocriteTest.code t = LineList.__init__ (Some ["return;"]) None
    /\ fst <$> d' = ["a"; "b"].
Proof.
  destruct (test_redefinition "a" [] (Coordinate.mk "t.hypo" 7)
              (Coordinate.mk "t.hypo" 9)
              (<[Some "tests" :=
                   VOrderedDict
                     [("a", OTest (HypocriteTest.mk
                                     (CoordinateRange.mk "t.hypo" 1 3)
                                     "a" (LineList.mk []) []));
                      ("b", OTest (HypocriteTest.mk
                                     (CoordinateRange.mk "t.hypo" 4 6)
                                     "b" (LineList.mk []) []))]]>
                 (_values DIRECTIVES))
              [("a", OTest (HypocriteTest.mk (CoordinateRange.mk "t.hypo" 1 3)
                              "a" (LineList.mk []) []));
               ("b", OTest (HypocriteTest.mk (CoordinateRange.mk "t.hypo" 4 6)
                              "b" (LineList.mk []) []))]
              (LineList.__init__ (Some ["return;"]) None)
              (lookup_insert_eq _ _ _) eq_refl)
    as (d' & t & Hcall & Hget & _ & Hcode & _ & _ & Hkeys).
  exists d', t. split; [exact Hcall|]. split; [exact Hget|].
  split; [exact Hcode|exact Hkeys].
Defined.

End store_facts.

Module file_facts.

Import location linelist perfile hypofile spec string_facts error_facts
  hypo_error_facts.

Lemma file_dict_lookups target preamble tests mocks fixtures :
  file_dict target preamble tests mocks fixtures !! Some "target"
  = Some target
  /\ file_dict target preamble tests mocks fixtures !! Some "preamble"
     = Some (VList preamble)
  /\ file_dict target preamble tests mocks fixtures !! Some "tests"
     = Some (VOrderedDict tests)
  /\ file_dict target preamble tests mocks fixtures !! Some "mocks"
     = Some (VDict mocks)
  /\ file_dict target preamble tests mocks fixtures !! Some "fixtures"
     = Some (VDict fixtures).
Proof.
  unfold file_dict.
  repeat split;
    repeat first [rewrite lookup_insert_eq; reflexivity
                 |rewrite lookup_insert_ne by discriminate].
Qed.

Lemma file_dict_dom target preamble tests mocks fixtures :
  dom (file_dict target preamble tests mocks fixtures)
  ⊆ {[ Some "target"; Some "preamble"; Some "tests"; Some "mocks";
       Some "fixtures" ]}.
Proof. unfold file_dict. rewrite !dom_insert. set_solver. Qed.

Lemma file_dict_set_target target preamble tests mocks fixtures v :
  <[Some "target" := v]> (file_dict target preamble tests mocks fixtures)
  = file_dict v preamble tests mocks fixtures.
Proof.
  unfold file_dict.
  rewrite (insert_insert_ne _ (Some "target") (Some "fixtures")) by discriminate.
  rewrite (insert_insert_ne _ (Some "target") (Some "tests")) by discriminate.
  rewrite (insert_insert_ne _ (Some "target") (Some "mocks")) by discriminate.
  rewrite (insert_insert_ne _ (Some "target") (Some "preamble")) by discriminate.
  rewrite insert_insert_eq. reflexivity.
Qed.

Lemma file_dict_set_preamble target preamble tests mocks fixtures v :
  <[Some "preamble" := VList v]>
    (file_dict target preamble tests mocks fixtures)
  = file_dict target v tests mocks fixtures.
Proof.
  unfold file_dict.
  rewrite (insert_insert_ne _ (Some "preamble") (Some "fixtures")) by discriminate.
  rewrite (insert_insert_ne _ (Some "preamble") (Some "tests")) by discriminate.
  rewrite (insert_insert_ne _ (Some "preamble") (Some "mocks")) by discriminate.
  rewrite insert_insert_eq. reflexivity.
Qed.

Lemma file_dict_set_mocks target preamble tests mocks fixtures v :
  <[Some "mocks" := VDict v]>
    (file_dict target preamble tests mocks fixtures)
  = file_dict target preamble tests v fixtures.
Proof.
  unfold file_dict.
  rewrite (insert_insert_ne _ (Some "mocks") (Some "fixtures")) by discriminate.
  rewrite (insert_insert_ne _ (Some "mocks") (Some "tests")) by discriminate.
  rewrite insert_insert_eq. reflexivity.
Qed.

Lemma file_dict_set_tests target preamble tests mocks fixtures v :
  <[Some "tests" := VOrderedDict v]>
    (file_dict target preamble tests mocks fixtures)
  = file_dict target preamble v mocks fixtures.
Proof.
  unfold file_dict.
  rewrite (insert_insert_ne _ (Some "tests") (Some "fixtures")) by discriminate.
  rewrite insert_insert_eq. reflexivity.
Qed.

Lemma file_dict_set_fixtures target preamble tests mocks fixtures v :
  <[Some "fixtures" := VDict v]>
    (file_dict target preamble tests mocks fixtures)
  = file_dict target preamble tests mocks v.
Proof. unfold file_dict. rewrite insert_insert_eq. reflexivity. Qed.

Lemma file_values_wf (values : gmap (option string) dict_value) :
  file_values values -> wf_values values.
Proof.
  intros (t & l & ts & ms & fs & -> & _).
  destruct (file_dict_lookups t l ts ms fs) as (_ & Hp & Ht & Hm & Hf).
  unfold wf_values. rewrite Hp, Ht, Hm, Hf. cbn. eauto.
Qed.

Lemma file_values_initial : file_values (_values DIRECTIVES).
Proof.
  exists VNone, [], [], ∅, ∅. split; [reflexivity|].
  split; [left; reflexivity|]. split; [constructor|].
  split; [constructor|]. split; apply map_Forall_empty.
Qed.

Lemma odict_set_Forall {V} (P : string * V -> Prop) (d : odict.t V)
    (k : string) (v : V) :
  Forall P d -> P (k, v) -> Forall P (odict.set d k v).
Proof.
  intros Hd Hv. induction Hd as [|[k' v'] d Hkv Hd' IH]; cbn.
  - repeat constructor. exact Hv.
  - destruct (String.eqb k' k); constructor; assumption.
Qed.

(** The stores of the handlers keep the values of a file. *)
Lemma file_values_append (values values' : gmap (option string) dict_value)
    (p : Preamble.t) :
  file_values values ->
  values_append values "preamble" (OPreamble p) = Ok values' ->
  file_values values'.
Proof.
  intros (t & l & ts & ms & fs & -> & Ht & Hl & Hts & Hms & Hfs) H.
  unfold values_append in H.
  destruct (file_dict_lookups t l ts ms fs) as (_ & Hp & _).
  rewrite Hp in H. injection H as <-.
  rewrite file_dict_set_preamble.
  exists t, (l ++ [OPreamble p]), ts, ms, fs.
  split; [reflexivity|]. split; [exact Ht|].
  split; [apply Forall_app; split; [exact Hl|]; repeat constructor;
          eexists; reflexivity|].
  auto.
Qed.

Lemma file_values_test (values values' : gmap (option string) dict_value)
    (x : HypocriteTest.t) :
  file_values values ->
  values_setitem values "tests" (HypocriteTest.name x) (OTest x) = Ok values' ->
  file_values values'.
Proof.
  intros (t & l & ts & ms & fs & -> & Ht & Hl & Hts & Hms & Hfs) H.
  unfold values_setitem in H.
  destruct (file_dict_lookups t l ts ms fs) as (_ & _ & Hlook & _).
  rewrite Hlook in H. injection H as <-.
  rewrite file_dict_set_tests.
  exists t, l, (odict.set ts (HypocriteTest.name x) (OTest x)), ms, fs.
  split; [reflexivity|]. split; [exact Ht|]. split; [exact Hl|].
  split; [|auto].
  apply odict_set_Forall; [exact Hts|]. exists x. split; reflexivity.
Qed.

Lemma file_values_mock (values values' : gmap (option string) dict_value)
    (x : HypocriteMock.t) :
  file_values values ->
  values_setitem values "mocks" (HypocriteMock.name x) (OMock x) = Ok values' ->
  file_values values'.
Proof.
  intros (t & l & ts & ms & fs & -> & Ht & Hl & Hts & Hms & Hfs) H.
  unfold values_setitem in H.
  destruct (file_dict_lookups t l ts ms fs) as (_ & _ & _ & Hlook & _).
  rewrite Hlook in H. injection H as <-.
  rewrite file_dict_set_mocks.
  exists t, l, ts, (<[HypocriteMock.name x := OMock x]> ms), fs.
  split; [reflexivity|]. split; [exact Ht|]. split; [exact Hl|].
  split; [exact Hts|]. split; [|exact Hfs].
  apply map_Forall_insert_2; [|exact Hms]. exists x. split; reflexivity.
Qed.

Lemma file_values_fixture (values values' : gmap (option string) dict_value)
    (x : Fixture.t) :
  file_values values ->
  values_setitem values "fixtures" (Fixture.name x) (OFixture x) = Ok values' ->
  file_values values'.
Proof.
  intros (t & l & ts & ms & fs & -> & Ht & Hl & Hts & Hms & Hfs) H.
  unfold values_setitem in H.
  destruct (file_dict_lookups t l ts ms fs) as (_ & _ & _ & _ & Hlook).
  rewrite Hlook in H. injection H as <-.
  rewrite file_dict_set_fixtures.
  exists t, l, ts, ms, (<[Fixture.name x := OFixture x]> fs).
  split; [reflexivity|]. split; [exact Ht|]. split; [exact Hl|].
  split; [exact Hts|]. split; [exact Hms|].
  apply map_Forall_insert_2; [|exact Hfs]. exists x. split; reflexivity.
Qed.

Lemma file_values_target (values : gmap (option string) dict_value)
    (s : string) :
  file_values values -> s <> "" ->
  file_values (<[Some "target" := VStr s]> values).
Proof.
  intros (t & l & ts & ms & fs & -> & Ht & Hl & Hts & Hms & Hfs) Hs.
  rewrite file_dict_set_target.
  exists (VStr s), l, ts, ms, fs.
  split; [reflexivity|]. split; [right; eauto|]. auto.
Qed.

(** What is left of a successful handler: the value it returns. *)
Ltac ok_cases H :=
  repeat first
    [ discriminate H
    | match type of H with
      | rbind ?m _ = Ok _ =>
          let E := fresh "E" in
          destruct m eqn:E; cbn [rbind] in H
      | (if ?b then _ else _) = Ok _ =>
          let E := fresh "E" in destruct b eqn:E
      | (match ?x with _ => _ end) = Ok _ =>
          let E := fresh "E" in destruct x eqn:E
      end ].

Lemma impl_file_values name d values coord toks k values' :
  odict.get DIRECTIVES name = Some d ->
  file_values values ->
  impl d values coord toks = Ok (k, values') ->
  file_values values'.
Proof.
  intros Hget HV H.
  unfold DIRECTIVES, register in Hget. cbn in Hget.
  repeat match type of Hget with
         | (if ?b then _ else _) = _ => destruct b
         end;
    try discriminate Hget; injection Hget as <-; cbn [impl] in H.
  - (* target *)
    unfold target_directive, parse_error in H. ok_cases H.
    injection H as <- <-.
    apply file_values_target; [exact HV|].
    apply orb_false_iff in E1 as [_ E1]. apply String.eqb_neq, E1.
  - (* preamble *)
    unfold PreambleDirective__init__, parse_error in H. ok_cases H.
    injection H as <- <-. exact HV.
  - (* mock *)
    unfold mock, parse_error in H. ok_cases H.
    injection H as <- <-.
    match goal with
    | Hset : values_setitem _ "mocks" ?n (OMock ?m) = Ok _ |- _ =>
        apply (file_values_mock values _ m HV Hset)
    end.
  - (* test *)
    unfold TestDirective__init__, parse_error in H. ok_cases H;
      injection H as <- <-; exact HV.
  - (* fixture *)
    unfold FixtureDirective__init__ in H. ok_cases H.
    injection H as <- <-. exact HV.
Qed.

Lemma call_file_values k values coord buf toks k' values' :
  file_values values ->
  call k values coord buf toks = Ok (k', values') ->
  file_values values'.
Proof.
  intros HV H. destruct k as [sc|name fixtures sc|self|self]; cbn [call] in H.
  - unfold PreambleDirective__call__, parse_error in H. ok_cases H.
    injection H as <- <-.
    match goal with
    | Hset : values_append _ "preamble" (OPreamble ?p) = Ok _ |- _ =>
        apply (file_values_append values _ p HV Hset)
    end.
  - unfold TestDirective__call__, parse_error in H. ok_cases H.
    injection H as <- <-.
    match goal with
    | Hset : values_setitem _ "tests" _ (OTest ?x) = Ok _ |- _ =>
        apply (file_values_test values _ x HV Hset)
    end.
  - unfold FixtureDirective_call, parse_error in H. ok_cases H;
      injection H as <- <-; [|exact HV].
    match goal with
    | Hset : values_setitem _ "fixtures" _ (OFixture ?x) = Ok _ |- _ =>
        apply (file_values_fixture values _ x HV Hset)
    end.
  - unfold FixtureDirective_teardown_call, parse_error in H. ok_cases H.
    injection H as <- <-.
    match goal with
    | Hset : values_setitem _ "fixtures" _ (OFixture ?x) = Ok _ |- _ =>
        apply (file_values_fixture values _ x HV Hset)
    end.
Qed.

Section File.

Variable path : string.

Lemma impl_file name d values coord toks :
  odict.get DIRECTIVES name = Some d ->
  file_values values -> Coordinate.path coord = path ->
  handler_post path file_values (wf_callable path)
    (impl d values coord toks).
Proof.
  intros Hget HV Hpath.
  pose proof (hypo_impl_located path name d values coord toks Hget
                (file_values_wf _ HV) Hpath) as Hpost.
  unfold handled, handler_post in Hpost |- *.
  destruct (impl d values coord toks) as [[k values']|e] eqn:Himpl;
    [|exact Hpost].
  split; [|apply Hpost].
  exact (impl_file_values _ _ _ _ _ _ _ Hget HV Himpl).
Qed.

Lemma call_file k values coord buf toks :
  wf_callable path k -> file_values values -> Coordinate.path coord = path ->
  handler_post path file_values (wf_callable path)
    (call k values coord buf toks).
Proof.
  intros Hk HV Hpath.
  pose proof (hypo_call_located path k values coord buf toks Hk
                (file_values_wf _ HV) Hpath) as Hpost.
  unfold handled, handler_post in Hpost |- *.
  destruct (call k values coord buf toks) as [[k' values']|e] eqn:Hcall;
    [|exact Hpost].
  split; [|apply Hpost].
  exact (call_file_values _ _ _ _ _ _ _ HV Hcall).
Qed.

Lemma parse_file_values (stream : list string)
    (values : gmap (option string) dict_value) :
  (HypoParser_parse stream path).1 = Ok values -> file_values values.
Proof.
  intros H.
  pose proof (parse_post DIRECTIVES call path file_values (wf_callable path)
                (fun _ => False) (fun F => F)
                (fun name d values coord toks Hget HV Hp =>
                   handler_post_or_intro path _ _ _ _
                     (impl_file name d values coord toks Hget HV Hp))
                (fun k values coord buf toks Hk HV Hp =>
                   handler_post_or_intro path _ _ _ _
                     (call_file k values coord buf toks Hk HV Hp))
                stream file_values_initial) as Hpost.
  unfold post in Hpost. unfold HypoParser_parse in H.
  destruct (parse DIRECTIVES call stream None (Some path) __init__)
    as [[v|e] s]; [|discriminate H].
  injection H as <-. exact Hpost.
Qed.

End File.

(** X20. A parse of a test file that succeeds returns the five keys of
    the grammar and no other, so that the [HypoFile] is built from them
    without error: its target is [None] or a string that is not empty,
    its preamble a list of preambles, its tests an ordered dictionary
    and its mocks and fixtures dictionaries, each test, mock and
    fixture stored under its own name.  A parse that fails raises a
    parse failure that ends with a line of the file, and never an
    error of the constructor. *)
Theorem hypofile_parse_values (stream : list string) (path : string) :
  match HypoFile.parse stream path with
  | Ok hf =>
      HypoFile.path hf = path
      /\ target_value (HypoFile.target hf)
      /\ exists preamble tests mocks fixtures,
           HypoFile.preamble hf = VList preamble
           /\ HypoFile.tests hf = VOrderedDict tests
           /\ HypoFile.mocks hf = VDict mocks
           /\ HypoFile.fixtures hf = VDict fixtures
           /\ Forall preamble_object preamble
           /\ Forall (fun kv => test_entry kv.1 kv.2) tests
           /\ map_Forall mock_entry mocks
           /\ map_Forall fixture_entry fixtures
  | Raise e => located path e
  end.
Proof.
  unfold HypoFile.parse.
  destruct (HypoParser_parse stream path) as [[values|e] s] eqn:Hparse;
    cbn [fst rbind].
  - pose proof (parse_file_values path stream values) as HV.
    rewrite Hparse in HV. specialize (HV eq_refl).
    destruct HV as (t & l & ts & ms & fs & -> & Ht & Hl & Hts & Hms & Hfs).
    unfold HypoFile.__init__.
    rewrite (bool_decide_eq_true_2 _ (file_dict_dom t l ts ms fs)).
    destruct (file_dict_lookups t l ts ms fs) as (-> & -> & -> & -> & ->).
    cbn. split; [reflexivity|]. split; [exact Ht|].
    exists l, ts, ms, fs. repeat split; assumption.
  - exact (hypo_parse_located path stream e s Hparse).
Qed.

End file_facts.

Module structure_facts.

Import location linelist template spec string_facts.

Lemma render_structure_lines (structure : list element) :
  forall ctxt : RenderContext.t,
    exists ctxt',
      Template.render_structure structure ctxt = Ok ctxt'
      /\ LineList._entries (RenderContext.output ctxt')
         = LineList._entries (RenderContext.output ctxt)
           ++ flat_map (element_lines (RenderContext.sections ctxt)) structure
      /\ forall name,
           default (LineList.__init__ None None)
             (RenderContext.sections ctxt' !! name)
           = default (LineList.__init__ None None)
               (RenderContext.sections ctxt !! name).
Proof.
  induction structure as [|elem structure IH]; intros ctxt.
  - exists ctxt. split; [reflexivity|]. split; [|reflexivity].
    cbn. rewrite app_nil_r. reflexivity.
  - cbn [Template.render_structure flat_map].
    assert (Helem : exists ll ctxt1,
               element_render elem ctxt = (ll, ctxt1)
               /\ LineList._entries ll
                  = element_lines (RenderContext.sections ctxt) elem
               /\ RenderContext.output ctxt1 = RenderContext.output ctxt
               /\ forall name,
                    default (LineList.__init__ None None)
                      (RenderContext.sections ctxt1 !! name)
                    = default (LineList.__init__ None None)
                        (RenderContext.sections ctxt !! name)).
    { destruct elem as [e|e]; cbn [element_render element_lines].
      - unfold RenderContext.sections_getitem.
        destruct (RenderContext.sections ctxt !! InsertSection.section e)
          as [ll|] eqn:Hll.
        + exists ll, ctxt. repeat split; reflexivity.
        + eexists. eexists. split; [reflexivity|]. split; [reflexivity|].
          split; [reflexivity|]. intros name. cbn [RenderContext.sections].
          destruct (decide (name = InsertSection.section e)) as [->|Hne].
          * rewrite lookup_insert_eq, Hll. reflexivity.
          * rewrite lookup_insert_ne by congruence. reflexivity.
      - exists (Literal.code e), ctxt. repeat split; reflexivity. }
    destruct Helem as (ll & ctxt1 & -> & Hll & Hout & Hsec).
    unfold iadd. cbn [LineList.__iadd__ rbind].
    destruct (IH (RenderContext.mk
                    (LineList.mk
                       (LineList._entries (RenderContext.output ctxt1)
                        ++ LineList._entries ll))
                    (RenderContext.sections ctxt1)))
      as (ctxt' & Hrender & Hlines & Hsections).
    exists ctxt'. split; [exact Hrender|]. split.
    + rewrite Hlines. cbn [RenderContext.output RenderContext.sections
                           LineList._entries].
      rewrite Hout, Hll, <- app_assoc. f_equal. f_equal.
      clear -Hsec. induction structure as [|x structure IHs]; [reflexivity|].
      cbn [flat_map]. rewrite IHs. f_equal.
      destruct x as [e|e]; cbn [element_lines]; [|reflexivity].
      rewrite Hsec. reflexivity.
    + intros name. rewrite Hsections. cbn [RenderContext.sections].
      apply Hsec.
Qed.

(** X21. Rendering the structure of a template never fails.  It adds to
    the output of the context, in the order of the structure, the code
    of every literal, with its coordinates, and the lines rendered for
    every section inserted; a section for which nothing was rendered
    adds nothing and is no error.  The lines of the sections are left
    as they are. *)
Theorem render_structure_spec (structure : list element)
    (ctxt : RenderContext.t) :
  exists ctxt',
    Template.render_structure structure ctxt = Ok ctxt'
    /\ LineList._entries (RenderContext.output ctxt')
       = LineList._entries (RenderContext.output ctxt)
         ++ flat_map (element_lines (RenderContext.sections ctxt)) structure
    /\ forall name,
         default (LineList.__init__ None None)
           (RenderContext.sections ctxt' !! name)
         = default (LineList.__init__ None None)
             (RenderContext.sections ctxt !! name).
Proof. apply render_structure_lines. Qed.

Lemma contains_char_app (c : ascii) (a b : string) :
  py.contains_char c (a +:+ b)
  = py.contains_char c a || py.contains_char c b.
Proof.
  induction a as [|d a IH]; [reflexivity|].
  rewrite str_app_cons. cbn [py.contains_char]. rewrite IH, orb_assoc.
  reflexivity.
Qed.

Lemma split_on_go_line (sep : ascii) (l : string) :
  py.contains_char sep l = false ->
  forall acc rest,
    py.split_on_go sep acc (l +:+ String sep rest)
    = (acc +:+ l) :: py.split_on_go sep "" rest.
Proof.
  induction l as [|c l IH]; intros Hl acc rest.
  - cbn [String.append py.split_on_go].
    change ("" +:+ String sep rest) with (String sep rest).
    cbn [py.split_on_go]. rewrite Ascii.eqb_refl, str_app_nil_r. reflexivity.
  - cbn [py.contains_char] in Hl. apply orb_false_iff in Hl as [Hc Hl].
    rewrite str_app_cons. cbn [py.split_on_go]. rewrite Hc.
    rewrite (IH Hl), str_app_assoc. reflexivity.
Qed.

Lemma split_on_go_last (sep : ascii) (l : string) :
  py.contains_char sep l = false ->
  forall acc, py.split_on_go sep acc l = [acc +:+ l].
Proof.
  induction l as [|c l IH]; intros Hl acc.
  - rewrite str_app_nil_r. reflexivity.
  - cbn [py.contains_char] in Hl. apply orb_false_iff in Hl as [Hc Hl].
    cbn [py.split_on_go]. rewrite Hc.
    rewrite (IH Hl), str_app_assoc. reflexivity.
Qed.

Lemma split_on_terminated (lines : list string) :
  Forall one_line lines ->
  py.split_on (ascii_of_nat 10) (terminated lines) = lines ++ [""].
Proof.
  unfold py.split_on. induction 1 as [|l lines Hl _ IH]; [reflexivity|].
  cbn [terminated]. rewrite (split_on_go_line _ l Hl), IH. reflexivity.
Qed.

Section Defines.

Variable Define_render : Define.t -> gmap string kwvalue -> res string.

(** X22. What a define renders to is bound to its name for the defines
    and sections after it: as a string when it holds no line
    terminator, and as the list of its lines, in order and without
    their terminators, when every line of it is terminated; the empty
    piece after the last terminator is dropped.  A define whose
    rendering fails makes the realization of the defines fail with the
    same error. *)
Theorem render_defines_split (name : string) (define : Define.t)
    (rest : odict.t Define.t) (kwargs : gmap string kwvalue) :
  (forall r : string,
      Define_render define kwargs = Ok r ->
      one_line r ->
      Template.render_defines Define_render ((name, define) :: rest) kwargs
      = Template.render_defines Define_render rest
          (<[name := KStr r]> kwargs))
  /\ (forall lines : list string,
        Define_render define kwargs = Ok (terminated lines) ->
        lines <> [] ->
        Forall one_line lines ->
        Template.render_defines Define_render ((name, define) :: rest) kwargs
        = Template.render_defines Define_render rest
            (<[name := KList lines]> kwargs))
  /\ (forall e : exn,
        Define_render define kwargs = Raise e ->
        Template.render_defines Define_render ((name, define) :: rest) kwargs
        = Raise e).
Proof.
  split; [|split].
  - intros r Hr Hone. cbn [Template.render_defines]. rewrite Hr. cbn [rbind].
    unfold one_line in Hone. rewrite Hone. reflexivity.
  - intros lines Hr Hne Hlines. cbn [Template.render_defines].
    rewrite Hr. cbn [rbind].
    assert (Hnl : py.contains_char (ascii_of_nat 10) (terminated lines) = true).
    { destruct lines as [|l lines]; [contradiction|].
      cbn [terminated]. rewrite contains_char_app. cbn [py.contains_char].
      rewrite Ascii.eqb_refl. cbn. apply orb_true_r. }
    rewrite Hnl, (split_on_terminated lines Hlines), last_snoc.
    rewrite sequence_facts.slice_snoc. reflexivity.
  - intros e Hr. cbn [Template.render_defines]. rewrite Hr. reflexivity.
Qed.

End Defines.

Lemma render_defines_split_witness :
  Template.render_defines (fun _ _ => Ok (terminated ["a"; "b"]))
    [("names", Define.mk (CoordinateRange.mk "t.c" 1 3) "names"
                 (LineList.__init__ None None))] ∅
  = Template.render_defines (fun _ _ => Ok (terminated ["a"; "b"])) []
      (<["names" := KList ["a"; "b"]]> ∅).
Proof.
  apply (proj1 (proj2 (render_defines_split
                         (fun _ _ => Ok (terminated ["a"; "b"])) "names"
                         (Define.mk (CoordinateRange.mk "t.c" 1 3) "names"
                            (LineList.__init__ None None)) [] ∅))).
  - reflexivity.
  - discriminate.
  - repeat constructor.
Defined.

End structure_facts.

Module line_facts.

Import location linelist perfile hypofile spec string_facts subst_facts
  fuel_facts token_facts.

(** *** Searching and stripping *)

Lemma str_drop_0 (s : string) : py.str_drop 0 s = s.
Proof. destruct s; reflexivity. Qed.

Lemma str_drop_app (a b : string) :
  py.str_drop (String.length a) (a +:+ b) = b.
Proof.
  induction a as [|c a IH]; [apply str_drop_0|].
  rewrite str_app_cons. exact IH.
Qed.

Lemma str_take_app (a b : string) :
  py.str_take (String.length a) (a +:+ b) = a.
Proof.
  induction a as [|c a IH]; [destruct b; reflexivity|].
  rewrite str_app_cons. cbn. rewrite IH. reflexivity.
Qed.

Lemma find_offset_absent (a : ascii) (p s : string) :
  str_forall (fun c => negb (Ascii.eqb c a)) s = true ->
  py.find_offset (String a p) s = None.
Proof.
  induction s as [|c s IH]; intros H; [reflexivity|].
  cbn [str_forall] in H. apply andb_true_iff in H as [Hc Hs].
  cbn [py.find_offset py.startswith].
  rewrite Ascii.eqb_sym. apply negb_true_iff in Hc. rewrite Hc.
  cbn [andb]. rewrite (IH Hs). reflexivity.
Qed.

Lemma find_offset_skip (a : ascii) (p ws r : string) :
  str_forall (fun c => negb (Ascii.eqb c a)) ws = true ->
  py.find_offset (String a p) (ws +:+ r)
  = (fun i => (String.length ws + i)%nat) <$> py.find_offset (String a p) r.
Proof.
  induction ws as [|c ws IH]; intros H.
  - change ("" +:+ r) with r.
    destruct (py.find_offset (String a p) r); reflexivity.
  - cbn [str_forall] in H. apply andb_true_iff in H as [Hc Hs].
    rewrite str_app_cons. cbn [py.find_offset py.startswith].
    rewrite Ascii.eqb_sym. apply negb_true_iff in Hc. rewrite Hc.
    cbn [andb]. rewrite (IH Hs).
    destruct (py.find_offset (String a p) r); reflexivity.
Qed.

Lemma find_absent (a : ascii) (p s : string) :
  str_forall (fun c => negb (Ascii.eqb c a)) s = true ->
  py.find s (String a p) 0 = -1.
Proof.
  intros H. unfold py.find. cbn [Nat.ltb Nat.leb].
  rewrite str_drop_0, (find_offset_absent a p s H).
  destruct (String.length s <? 0)%nat; reflexivity.
Qed.

Lemma whitespace_no_slash (ws : string) : whitespace ws -> no_slash ws.
Proof.
  unfold whitespace, no_slash. induction ws as [|c ws IH]; [reflexivity|].
  cbn [str_forall]. intros H. apply andb_true_iff in H as [Hc Hws].
  rewrite (IH Hws), andb_true_r.
  revert Hc. destruct c as [[] [] [] [] [] [] [] []]; vm_compute; intros H;
    first [reflexivity|discriminate H].
Qed.

Lemma whitespace_app (a b : string) :
  whitespace a -> whitespace b -> whitespace (a +:+ b).
Proof.
  unfold whitespace. intros Ha Hb. rewrite str_forall_app, Ha, Hb. reflexivity.
Qed.

Lemma lstrip_blank (ws : string) : whitespace ws -> py.lstrip ws = "".
Proof.
  intros H. rewrite <- (str_app_nil_r ws) at 1.
  exact (lstrip_whitespace ws "" H I).
Qed.

Lemma strip_blank (ws : string) : whitespace ws -> py.strip ws = "".
Proof. intros H. unfold py.strip. rewrite (lstrip_blank ws H). reflexivity. Qed.

Lemma rstrip_blank (ws : string) : whitespace ws -> py.rstrip ws = "".
Proof.
  unfold whitespace. induction ws as [|c ws IH]; [reflexivity|].
  cbn [str_forall]. intros H. apply andb_true_iff in H as [Hc Hws].
  cbn [py.rstrip]. rewrite (IH Hws), Hc. reflexivity.
Qed.

Lemma rstrip_keep (s ws : string) (d : ascii) :
  whitespace ws -> py.last_char s = Some d -> py.isspace d = false ->
  py.rstrip (s +:+ ws) = s.
Proof.
  intros Hws. induction s as [|c s IH]; intros Hlast Hd; [discriminate Hlast|].
  rewrite str_app_cons. cbn [py.rstrip].
  destruct s as [|c' s'].
  - injection Hlast as ->. change ("" +:+ ws) with ws.
    rewrite (rstrip_blank ws Hws), Hd. reflexivity.
  - rewrite (IH Hlast Hd). reflexivity.
Qed.


Lemma strip_trimmed (ws1 t ws2 : string) :
  whitespace ws1 -> whitespace ws2 -> trimmed t ->
  py.strip (ws1 +:+ t +:+ ws2) = t.
Proof.
  intros H1 H2 Ht. unfold py.strip.
  destruct t as [|c t]; [destruct Ht|].
  destruct Ht as (Hc & d & Hlast & Hd).
  rewrite (lstrip_whitespace ws1 (String c t +:+ ws2) H1)
    by (rewrite str_app_cons; exact Hc).
  exact (rstrip_keep _ ws2 d H2 Hlast Hd).
Qed.

Lemma clamp_inside (n : nat) (i : Z) :
  0 <= i <= Z.of_nat n -> py.clamp n i = Z.to_nat i.
Proof.
  intros H. unfold py.clamp.
  destruct (Z.ltb_spec i 0); [lia|].
  destruct (Z.ltb_spec i 0); [lia|].
  destruct (Z.ltb_spec (Z.of_nat n) i); lia.
Qed.








(** *** Lines without comment *)

Section Lines.

Context {V D : Type}.

Variable DIRECTIVES : registry V D.
Variable call : D -> values_dict V -> Coordinate.t -> LineList.t ->
                option (list Token) -> outcome V D.

Lemma strip_comments_no_slash (fuel : nat) (coord : Coordinate.t)
    (line : string) (s : parser D) :
  no_slash line -> strip_comments fuel coord line s = (Ok line, s).
Proof.
  intros H. destruct fuel as [|fuel]; [reflexivity|].
  cbn [strip_comments].
  rewrite !(find_absent "/" _ line H). reflexivity.
Qed.

(** The first comment of a line that holds a [//] at [y] and no [/*]
    before it. *)
Lemma first_comment (x y : Z) :
  0 <= y -> x = -1 \/ y <= x ->
  exists p ps, filter (fun z => 0 <= z) [x; y] = p :: ps
               /\ foldl Z.min p ps = y.
Proof.
  intros Hy Hx. cbn [filter list_filter].
  destruct (decide (0 <= x)) as [H0|H0]; destruct (decide (0 <= y)); try lia.
  - eexists _, _. split; [reflexivity|]. cbn. lia.
  - eexists _, _. split; [reflexivity|]. reflexivity.
Qed.

Lemma slice_prefix (a b : string) :
  py.str_slice (a +:+ b) None (Some (Z.of_nat (String.length a))) = a.
Proof.
  unfold py.str_slice. cbn [py.bound_lo py.bound_hi].
  rewrite clamp_inside by (rewrite str_length_app; lia).
  rewrite Nat2Z.id, Nat.sub_0_r, str_drop_0. apply str_take_app.
Qed.

Lemma slice_at (a b : string) (k : nat) :
  (k <= String.length b)%nat ->
  py.str_slice (a +:+ b) (Some (Z.of_nat (String.length a)))
    (Some (Z.of_nat (String.length a) + Z.of_nat k))
  = py.str_take k b.
Proof.
  intros Hk. unfold py.str_slice. cbn [py.bound_lo py.bound_hi].
  rewrite !clamp_inside by (rewrite str_length_app; lia).
  rewrite <- Nat2Z.inj_add, !Nat2Z.id, str_drop_app.
  replace (String.length a + k - String.length a)%nat with k by lia.
  reflexivity.
Qed.

Lemma strip_comments_line_comment (fuel : nat) (coord : Coordinate.t)
    (a rest : string) (s : parser D) :
  no_slash a ->
  strip_comments (S fuel) coord (a +:+ "//" +:+ rest) s = (Ok a, s).
Proof.
  intros Ha. cbn [strip_comments].
  change ("//" +:+ rest) with (String "/" (String "/" rest)).
  set (line := a +:+ String "/" (String "/" rest)).
  assert (H2 : py.find line "//" 0 = Z.of_nat (String.length a)).
  { unfold py.find, line. rewrite str_drop_0, (find_offset_skip "/" _ a _ Ha).
    destruct (String.length _ <? 0)%nat eqn:E;
      [apply Nat.ltb_lt in E; lia|].
    cbn. f_equal. lia. }
  assert (H1 : py.find line "/*" 0 = -1
               \/ Z.of_nat (String.length a) <= py.find line "/*" 0).
  { unfold py.find, line. rewrite str_drop_0, (find_offset_skip "/" _ a _ Ha).
    destruct (String.length _ <? 0)%nat eqn:E;
      [apply Nat.ltb_lt in E; lia|].
    destruct (py.find_offset "/*" (String "/" (String "/" rest))); cbn;
      [right; lia|left].
    reflexivity. }
  destruct (first_comment (py.find line "/*" 0) (Z.of_nat (String.length a))
              (Nat2Z.is_nonneg _) H1) as (p & ps & Hpos & Hmin).
  rewrite H2, Hpos, Hmin.
  unfold line.
  change 2 with (Z.of_nat 2).
  rewrite (slice_at a (String "/" (String "/" rest)) 2) by (cbn; lia).
  change (py.str_take 2 (String "/" (String "/" rest))) with "//".
  cbn [String.eqb Ascii.eqb Bool.eqb]. rewrite slice_prefix. reflexivity.
Qed.

(** *** One line through [_parse_directive] *)

Lemma parse_directive_empty (coord : Coordinate.t) (line : string)
    (d : option D) (b : option LineList.t) (sc : option Coordinate.t)
    (n : Z) :
  empty_line line ->
  _parse_directive coord line (mk_parser d b None None sc n)
  = (Raise Continue, mk_parser d b None None sc n).
Proof.
  intros (ws & Hws & Hline).
  unfold _parse_directive, M_bind, gets, M_ret.
  cbn [_continued _comment_pfx].
  destruct Hline as [->|[rest ->]].
  - rewrite strip_comments_no_slash by (apply whitespace_no_slash; exact Hws).
    rewrite (strip_blank ws Hws). reflexivity.
  - cbn [String.length]. 
    rewrite strip_comments_line_comment
      by (apply whitespace_no_slash; exact Hws).
    rewrite (strip_blank ws Hws). reflexivity.
Qed.

Lemma parse_directive_text (coord : Coordinate.t) (line : string)
    (first : ascii) (rest : string)
    (d : option D) (b : option LineList.t) (n : Z) :
  no_slash line ->
  py.strip line = String first rest ->
  py.last_char (String first rest) <> Some "\"%char ->
  _parse_directive coord line (mk_parser d b None None None n)
  = (if negb (Ascii.eqb first "%")
     then Raise (ParseException ("Invalid directive at "
                                   +:+ Coordinate.__str__ coord))
     else toks <-r _tokenize rest coord ;; Ok (coord, toks),
     mk_parser d b None None None n).
Proof.
  intros Hline Hstrip Hlast.
  unfold _parse_directive, M_bind, gets, M_ret.
  cbn [_continued _comment_pfx].
  rewrite strip_comments_no_slash by exact Hline.
  rewrite Hstrip. rewrite bool_decide_eq_false_2 by exact Hlast.
  cbn [_start_coord].
  destruct (negb (Ascii.eqb first "%")); [reflexivity|].
  unfold lift. destruct (_tokenize rest coord); reflexivity.
Qed.

(** *** One line outside a block *)

Lemma parse_line_empty (coord : Coordinate.t) (line : string)
    (values : values_dict V) (b : option LineList.t)
    (sc : option Coordinate.t) (n : Z) :
  empty_line line ->
  _parse_line DIRECTIVES call coord line values
    (mk_parser None b None None sc n)
  = (Raise Continue, mk_parser None b None None sc (n + 1)).
Proof.
  intros H. unfold _parse_line, M_bind at 1 2 3 4, modify, gets, set_lines.
  cbn [_deferred _comment_pfx _continued _buf _start_coord _lines].
  unfold M_bind. rewrite (parse_directive_empty coord line None b sc _ H).
  reflexivity.
Qed.

Lemma parse_loop_empty (path : string) (skip : list string) :
  forall (lno : Z) (values : values_dict V) (b : option LineList.t)
         (sc : option Coordinate.t) (n : Z),
    Forall empty_line skip ->
    parse_loop DIRECTIVES call path lno skip values
      (mk_parser None b None None sc n)
    = (Ok values,
       mk_parser None b None None sc (n + Z.of_nat (length skip))).
Proof.
  induction skip as [|line skip IH]; intros lno values b sc n H.
  - cbn. unfold M_ret. rewrite Z.add_0_r. reflexivity.
  - apply Forall_cons in H as [Hline Hskip].
    cbn [parse_loop]. unfold M_bind at 1, except_Continue.
    rewrite (parse_line_empty _ line values b sc n Hline).
    rewrite (IH _ _ _ _ _ Hskip).
    replace (n + 1 + Z.of_nat (length skip))
      with (n + Z.of_nat (length (line :: skip))) by (cbn [length]; lia).
    reflexivity.
Qed.

Lemma tokenize_word (w : string) (coord : Coordinate.t) :
  token_shape (mk_Token TOK_WORD w) = true ->
  _tokenize w coord = Ok [mk_Token TOK_WORD w].
Proof.
  intros H. apply tokenize_finish.
  exact (finish_written [mk_Token TOK_WORD w]
           (Forall_cons_2 _ _ _ H (Forall_nil_2 _))).
Qed.

Lemma last_char_forall (f : ascii -> bool) (s : string) :
  s <> "" -> str_forall f s = true ->
  exists d, py.last_char s = Some d /\ f d = true.
Proof.
  induction s as [|c s IH]; intros Hne H; [contradiction|].
  cbn [str_forall] in H. apply andb_true_iff in H as [Hc Hs].
  destruct s as [|c' s'].
  - exists c. split; [reflexivity|exact Hc].
  - destruct (IH ltac:(discriminate) Hs) as (d & Hd & Hf).
    exists d. split; [exact Hd|exact Hf].
Qed.

Lemma word_chars (w : string) :
  token_shape (mk_Token TOK_WORD w) = true ->
  w <> "" /\ str_forall word_char w = true.
Proof.
  unfold token_shape. cbn [type_ value].
  destruct w as [|c w]; [discriminate|]. intros H.
  apply andb_true_iff in H as [Hc Hw].
  split; [discriminate|]. cbn [str_forall].
  rewrite (word_start_char c Hc), Hw. reflexivity.
Qed.

Lemma word_char_plain (c : ascii) :
  word_char c = true ->
  negb (Ascii.eqb c "/") = true /\ c <> "\"%char /\ py.isspace c = false.
Proof.
  destruct c as [[] [] [] [] [] [] [] []]; vm_compute; intros H;
    first [discriminate H|repeat split; discriminate].
Qed.

Lemma str_forall_impl (f g : ascii -> bool) (s : string) :
  (forall c, f c = true -> g c = true) ->
  str_forall f s = true -> str_forall g s = true.
Proof.
  intros Hfg. induction s as [|c s IH]; [reflexivity|].
  cbn [str_forall]. intros H. apply andb_true_iff in H as [Hc Hs].
  rewrite (Hfg c Hc), (IH Hs). reflexivity.
Qed.

Lemma no_slash_line_of (t : string) : no_slash t -> no_slash (line_of t).
Proof.
  unfold no_slash, line_of. intros H. rewrite str_forall_app, H. reflexivity.
Qed.

Lemma strip_line_of (t : string) : trimmed t -> py.strip (line_of t) = t.
Proof.
  intros H. exact (strip_trimmed "" t (String (ascii_of_nat 10) "")
                     eq_refl eq_refl H).
Qed.

(** The marker of a directive before a word, as a line. *)
Lemma marker_word (w : string) :
  token_shape (mk_Token TOK_WORD w) = true ->
  no_slash (String "%" w) /\ trimmed (String "%" w)
  /\ py.last_char (String "%" w) <> Some "\"%char.
Proof.
  intros H. destruct (word_chars w H) as [Hne Hw].
  destruct (last_char_forall word_char w Hne Hw) as (d & Hd & Hwd).
  assert (Hlast : py.last_char (String "%" w) = Some d).
  { destruct w; [contradiction|exact Hd]. }
  destruct (word_char_plain d Hwd) as (_ & Hbs & Hsp).
  split; [|split].
  - unfold no_slash. cbn [str_forall].
    apply (str_forall_impl word_char); [|exact Hw].
    intros c Hc. exact (proj1 (word_char_plain c Hc)).
  - split; [reflexivity|]. exists d. split; [exact Hlast|exact Hsp].
  - rewrite Hlast. intros [= ->]. apply Hbs. reflexivity.
Qed.

Lemma parse_line_stray (coord : Coordinate.t) (values : values_dict V)
    (b : option LineList.t) (n : Z) :
  (forall t : string,
      trimmed t -> no_slash t -> py.startswith t "%" = false ->
      py.last_char t <> Some "\"%char ->
      _parse_line DIRECTIVES call coord (line_of t) values
        (mk_parser None b None None None n)
      = (Raise (ParseException ("Invalid directive at "
                                  +:+ Coordinate.__str__ coord)),
         mk_parser None b None None None (n + 1)))
  /\ (forall w : string,
        token_shape (mk_Token TOK_WORD w) = true ->
        odict.get DIRECTIVES w = None ->
        _parse_line DIRECTIVES call coord (line_of (String "%" w)) values
          (mk_parser None b None None None n)
        = (Raise (ParseException ("Invalid directive at "
                                    +:+ Coordinate.__str__ coord)),
           mk_parser None b None None None (n + 1)))
  /\ _parse_line DIRECTIVES call coord (line_of "%}") values
       (mk_parser None b None None None n)
     = (Raise (ParseException ("Invalid directive at "
                                 +:+ Coordinate.__str__ coord)),
        mk_parser None b None None None (n + 1)).
Proof.
  split; [|split].
  - intros t Ht Hslash Hstart Hlast.
    unfold _parse_line, M_bind at 1 2 3 4, modify, gets, set_lines.
    cbn [_deferred _comment_pfx _continued _buf _start_coord _lines].
    unfold M_bind.
    destruct t as [|first rest]; [destruct Ht|].
    rewrite (parse_directive_text coord _ first rest None b _
               (no_slash_line_of _ Hslash) (strip_line_of _ Ht) Hlast).
    cbn [py.startswith] in Hstart. rewrite andb_true_r in Hstart.
    rewrite Ascii.eqb_sym, Hstart. reflexivity.
  - intros w Hw Hget. destruct (marker_word w Hw) as (Hslash & Ht & Hlast).
    unfold _parse_line, M_bind at 1 2 3 4, modify, gets, set_lines.
    cbn [_deferred _comment_pfx _continued _buf _start_coord _lines].
    unfold M_bind.
    rewrite (parse_directive_text coord _ "%" w None b _
               (no_slash_line_of _ Hslash) (strip_line_of _ Ht) Hlast).
    cbn [Ascii.eqb Bool.eqb negb]. rewrite (tokenize_word w coord Hw).
    cbn [rbind type_ value]. rewrite Hget. reflexivity.
  - unfold _parse_line, M_bind at 1 2 3 4, modify, gets, set_lines.
    cbn [_deferred _comment_pfx _continued _buf _start_coord _lines].
    unfold M_bind. rewrite fixture_facts.parse_directive_close. reflexivity.
Qed.

(** *** Continued lines *)









(** *** Comments *)











(** *** One line inside a block *)

Lemma parse_line_nested (coord : Coordinate.t) (values : values_dict V)
    (k : D) (buf : LineList.t) (n : Z) (t : string) (toks : list Token) :
  trimmed (String "%" t) -> no_slash t ->
  py.last_char (String "%" t) <> Some "\"%char ->
  _tokenize t coord = Ok toks ->
  match toks with
  | tok :: _ => tok_is tok TOK_CHAR "}" = false
  | [] => True
  end ->
  _parse_line DIRECTIVES call coord (line_of (String "%" t)) values
    (mk_parser (Some k) (Some buf) None None None n)
  = (Raise (ParseException ("Invalid directive at "
                              +:+ Coordinate.__str__ coord)),
     mk_parser (Some k) (Some buf) None None None (n + 1)).
Proof.
  intros Ht Hslash Hlast Htoks Hhead.
  unfold _parse_line, M_bind at 1 2 3 4, modify, gets, set_lines.
  cbn [_deferred _comment_pfx _continued _buf _start_coord _lines].
  change (py.lstrip (line_of (String "%" t))) with (line_of (String "%" t)).
  change (py.startswith (line_of (String "%" t)) "%") with true.
  rewrite orb_true_r. unfold M_bind at 1.
  rewrite (parse_directive_text coord _ "%" t (Some k) (Some buf) _
             (no_slash_line_of (String "%" t) Hslash) (strip_line_of _ Ht)
             Hlast).
  cbn [Ascii.eqb Bool.eqb negb]. rewrite Htoks. cbn [rbind].
  destruct toks as [|tok toks']; [reflexivity|].
  rewrite Hhead. reflexivity.
Qed.

(** *** Lines that are no directive *)

Lemma parse_stray (skip rest : list string) (path line : string) :
  Forall empty_line skip ->
  (forall (b : option LineList.t) (n : Z),
      _parse_line DIRECTIVES call
        (Coordinate.mk path (Z.of_nat (length skip) + 1)) line
        (_values DIRECTIVES) (mk_parser None b None None None n)
      = (Raise (ParseException
                  ("Invalid directive at "
                     +:+ Coordinate.__str__
                           (Coordinate.mk path (Z.of_nat (length skip) + 1)))),
         mk_parser None b None None None (n + 1))) ->
  (parse DIRECTIVES call (skip ++ line :: rest) None (Some path) __init__).1
  = Raise (ParseException
             ("Invalid directive at "
                +:+ Coordinate.__str__
                      (Coordinate.mk path (Z.of_nat (length skip) + 1)))).
Proof.
  intros Hskip Hline. unfold parse, lift, M_bind at 1 2, __init__.
  rewrite parser_facts.parse_loop_app.
  rewrite (parse_loop_empty path skip 0 _ None None 0 Hskip).
  cbn [parse_loop]. unfold M_bind at 1 2, except_Continue.
  rewrite Z.add_0_l, Hline. reflexivity.
Qed.

(** X23. Outside a block, a line of whitespace and a line that holds
    only a comment up to its end are skipped: a file of such lines
    parses to the initial values.  After such lines, a line of text
    that does not start with the marker of a directive, a directive
    whose name is not registered, and a closing marker are refused as
    invalid directives, with the number of that line. *)
Theorem skipped_and_stray_lines (skip : list string) (path : string) :
  Forall empty_line skip ->
  (parse DIRECTIVES call skip None (Some path) __init__).1
  = Ok (_values DIRECTIVES)
  /\ forall (line : string) (rest : list string),
       (exists t,
           line = line_of t
           /\ ((trimmed t /\ no_slash t /\ py.startswith t "%" = false
                /\ py.last_char t <> Some "\"%char)
               \/ (exists w,
                      t = String "%" w
                      /\ token_shape (mk_Token TOK_WORD w) = true
                      /\ odict.get DIRECTIVES w = None)
               \/ t = "%}")) ->
       (parse DIRECTIVES call (skip ++ line :: rest) None (Some path)
          __init__).1
       = Raise (ParseException
                  ("Invalid directive at " +:+ path +:+ ":"
                     +:+ py.fmt_d (Z.of_nat (length skip) + 1))).
Proof.
  intros Hskip. split.
  - unfold parse, lift, M_bind at 1 2, __init__.
    rewrite (parse_loop_empty path skip 0 _ None None 0 Hskip). reflexivity.
  - intros line rest (t & -> & Ht).
    apply (parse_stray skip rest path (line_of t) Hskip). intros b n.
    destruct Ht as [(Ht & Hslash & Hstart & Hlast)|[(w & -> & Hw & Hget)| ->]].
    + exact (proj1 (parse_line_stray _ _ b n) t Ht Hslash Hstart Hlast).
    + exact (proj1 (proj2 (parse_line_stray _ _ b n)) w Hw Hget).
    + exact (proj2 (proj2 (parse_line_stray _ _ b n))).
Qed.

(** X24. Blocks do not nest.  While a block is open, a line that starts
    with the marker of a directive and whose tokens do not start with
    the closing brace is refused as an invalid directive, with the
    number of its line, whatever directive it names and whatever
    follows it. *)
Theorem block_directive_refused (head rest : list string) (path t : string)
    (values : values_dict V) (k : D) (buf : LineList.t) (n : Z)
    (toks : list Token) :
  parse_loop DIRECTIVES call path 0 head (_values DIRECTIVES) __init__
  = (Ok values, mk_parser (Some k) (Some buf) None None None n) ->
  trimmed (String "%" t) -> no_slash t ->
  py.last_char (String "%" t) <> Some "\"%char ->
  _tokenize t (Coordinate.mk path (Z.of_nat (length head) + 1)) = Ok toks ->
  match toks with
  | tok :: _ => tok_is tok TOK_CHAR "}" = false
  | [] => True
  end ->
  (parse DIRECTIVES call (head ++ line_of (String "%" t) :: rest) None
     (Some path) __init__).1
  = Raise (ParseException
             ("Invalid directive at " +:+ path +:+ ":"
                +:+ py.fmt_d (Z.of_nat (length head) + 1))).
Proof.
  intros Hhead Ht Hslash Hlast Htoks Htok.
  unfold parse, lift, M_bind at 1 2.
  rewrite parser_facts.parse_loop_app, Hhead.
  cbn [parse_loop]. unfold M_bind at 1 2, except_Continue.
  rewrite Z.add_0_l.
  rewrite (parse_line_nested _ values k buf n t toks Ht Hslash Hlast Htoks
             Htok).
  reflexivity.
Qed.

(** *** The end of the file *)



End Lines.

Lemma skipped_and_stray_lines_witness :
  (HypoParser_parse [line_of ""; line_of "  // a comment"] "t.hypo").1
  = Ok (_values DIRECTIVES)
  /\ (HypoParser_parse
        [line_of ""; line_of "  // a comment"; line_of "%include"] "t.hypo").1
     = Raise (ParseException "Invalid directive at t.hypo:3").
Proof.
  assert (Hskip : Forall empty_line [line_of ""; line_of "  // a comment"]).
  { constructor; [|constructor; [|constructor]].
    - exists (line_of ""). split; [reflexivity|left; reflexivity].
    - exists "  ". split; [reflexivity|right].
      exists (line_of " a comment"). reflexivity. }
  split.
  - exact (proj1 (skipped_and_stray_lines DIRECTIVES call _ "t.hypo" Hskip)).
  - apply (proj2 (skipped_and_stray_lines DIRECTIVES call _ "t.hypo" Hskip)
             (line_of "%include") []).
    exists "%include". split; [reflexivity|right; left].
    exists "include". repeat split; reflexivity.
Defined.

Lemma block_directive_refused_witness :
  (HypoParser_parse
     [line_of "%preamble {"; line_of "int x;"; line_of "%test inner {";
      line_of "%}"] "t.hypo").1
  = Raise (ParseException "Invalid directive at t.hypo:3").
Proof.
  apply (block_directive_refused DIRECTIVES call
           [line_of "%preamble {"; line_of "int x;"] [line_of "%}"] "t.hypo"
           "test inner {" (_values DIRECTIVES)
           (PreambleDirective (Coordinate.mk "t.hypo" 1))
           (LineList.mk [mk_Entry (Some (Coordinate.mk "t.hypo" 2)) "int x;"])
           2
           [mk_Token TOK_WORD "test"; mk_Token TOK_WORD "inner";
            mk_Token TOK_CHAR "{"]).
  - vm_compute. reflexivity.
  - split; [reflexivity|]. exists "{"%char. split; reflexivity.
  - reflexivity.
  - discriminate.
  - reflexivity.
  - reflexivity.
Defined.




End line_facts.

Module fixture_head_facts.

Import location linelist perfile hypofile spec string_facts split_facts
  join_facts sequence_facts declaration_facts.

Lemma brace_delim :
  mk_Token TOK_CHAR "{" ∈ ({[ tok TOK_CHAR "{" ]} : gset Token).
Proof. apply elem_of_singleton. reflexivity. Qed.

Lemma type_tokens_no_brace (ty : list Token) :
  forallb type_token ty = true ->
  Forall (fun t => t ∉ ({[ tok TOK_CHAR "{" ]} : gset Token)) ty.
Proof.
  induction ty as [|t ty IH]; intros H; [constructor|].
  cbn [forallb] in H. apply andb_true_iff in H as [Ht H].
  constructor; [|exact (IH H)].
  intros Hin. apply elem_of_singleton in Hin.
  apply type_token_cases in Ht as [[w ->]| ->]; discriminate Hin.
Qed.

Lemma head_no_brace (ty : list Token) (name : string) :
  forallb type_token ty = true ->
  Forall (fun t => t ∉ ({[ tok TOK_CHAR "{" ]} : gset Token))
    (ty ++ [mk_Token TOK_WORD name]).
Proof.
  intros H. apply Forall_app. split; [exact (type_tokens_no_brace ty H)|].
  repeat constructor. intros Hin. apply elem_of_singleton in Hin.
  discriminate Hin.
Qed.

(** The triples of a fixture head and of what follows its brace. *)
Lemma extract_fixture_head (ty extra : list Token) (name : string) :
  forallb type_token ty = true ->
  _extract_type (ty ++ [mk_Token TOK_WORD name; mk_Token TOK_CHAR "{"] ++ extra)
    {[ tok TOK_CHAR "{" ]}
  = (ty, Some (mk_Token TOK_WORD name), Some (mk_Token TOK_CHAR "{"))
      :: _extract_type extra {[ tok TOK_CHAR "{" ]}.
Proof.
  intros H.
  change (ty ++ [mk_Token TOK_WORD name; mk_Token TOK_CHAR "{"] ++ extra)
    with (ty ++ [mk_Token TOK_WORD name] ++ mk_Token TOK_CHAR "{" :: extra).
  rewrite app_assoc. unfold _extract_type.
  rewrite (split_delim_app _ _ _ extra (head_no_brace ty name H) brace_delim).
  cbn [fmap list_fmap]. rewrite slice_snoc, last_snoc. reflexivity.
Qed.

(** What follows the brace is seen by the loop. *)
Lemma extract_extra (extra : list Token) (delims : gset Token) :
  extra <> [] ->
  exists type_ name delim rest,
    _extract_type extra delims = (type_, name, delim) :: rest
    /\ (is_Some name \/ is_Some delim).
Proof.
  intros Hne. destruct extra as [|t extra]; [contradiction|].
  unfold _extract_type. rewrite split_toks_delim_cons.
  destruct (decide (t ∈ delims)).
  - cbn [fmap list_fmap]. eexists _, _, _, _. split; [reflexivity|].
    right. eauto.
  - pose proof (split_toks_delim_nonempty delims extra) as Hsplit.
    destruct (split_toks_delim extra delims) as [|[s d] rest];
      [contradiction|].
    cbn [fmap list_fmap]. eexists _, _, _, _. split; [reflexivity|].
    left. destruct s as [|u s] using rev_ind.
    + cbn. eauto.
    + rewrite app_comm_cons, last_snoc. eauto.
Qed.

(** The type saved for a fixture: none for no type and for [void]. *)
Lemma fixture_type (ty : list Token) (coord : Coordinate.t) :
  forallb type_token ty = true ->
  exists t : option string,
    (if bool_decide (ty = []) || bool_decide (ty = [tok TOK_WORD "void"])
     then Ok None
     else s <-r _make_type ty "fixture" coord ;; Ok (Some s)) = Ok t
    /\ (ty = [] \/ ty = [mk_Token TOK_WORD "void"] -> t = None)
    /\ (ty <> [] -> ty <> [mk_Token TOK_WORD "void"] ->
        exists s, _make_type ty "fixture" coord = Ok s /\ t = Some s).
Proof.
  intros H.
  destruct (decide (ty = [])) as [->|Hne].
  { exists None. split; [reflexivity|].
    split; [intros _; reflexivity|].
    intros Hc; exfalso; apply Hc; reflexivity. }
  destruct (decide (ty = [tok TOK_WORD "void"])) as [->|Hvoid].
  { exists None. split; [reflexivity|].
    split; [intros _; reflexivity|].
    intros _ Hc; exfalso; apply Hc; reflexivity. }
  destruct (make_type_type_tokens ty "fixture" coord H) as [s Hs].
  exists (Some s).
  rewrite (bool_decide_eq_false_2 _ Hne), (bool_decide_eq_false_2 _ Hvoid), Hs.
  split; [reflexivity|]. split.
  - intros [Hc|Hc]; contradiction.
  - intros _ _. eauto.
Qed.

(** X28. The head of a fixture, a type of words and asterisks, a name
    and an opening brace, creates the fixture directive of that name at
    the line of the directive; the type is left out when no type is
    given and when the type is [void], and is the type string of the
    type otherwise.  Tokens without an opening brace are refused as a
    premature end of arguments, and tokens after the brace as
    unexpected tokens, at the coordinate of the directive. *)
Theorem fixture_declaration (values : gmap (option string) dict_value)
    (coord : Coordinate.t) :
  (forall (ty : list Token) (name : string),
      forallb type_token ty = true -> name <> "" ->
      exists t : option string,
        FixtureDirective__init__ values coord
          (ty ++ [mk_Token TOK_WORD name; mk_Token TOK_CHAR "{"])
        = Ok (Some (FixtureDirective__call__
                      (FixtureDirective.mk name t coord coord None)),
              values)
        /\ (ty = [] \/ ty = [mk_Token TOK_WORD "void"] -> t = None)
        /\ (ty <> [] -> ty <> [mk_Token TOK_WORD "void"] ->
            exists s, _make_type ty "fixture" coord = Ok s /\ t = Some s))
  /\ (forall toks : list Token,
        mk_Token TOK_CHAR "{" ∉ toks ->
        FixtureDirective__init__ values coord toks
        = Raise (ParseException
                   ("Premature end of arguments in %fixture directive at "
                      +:+ Coordinate.__str__ coord)))
  /\ (forall (ty extra : list Token) (name : string),
        forallb type_token ty = true -> name <> "" -> extra <> [] ->
        FixtureDirective__init__ values coord
          (ty ++ [mk_Token TOK_WORD name; mk_Token TOK_CHAR "{"] ++ extra)
        = Raise (ParseException
                   ("Unexpected tokens after %fixture directive at "
                      +:+ Coordinate.__str__ coord))).
Proof.
  split; [|split].
  - intros ty name Hty Hname.
    destruct (fixture_type ty coord Hty) as (t & Ht & Hnone & Hsome).
    exists t. split; [|split; assumption].
    unfold FixtureDirective__init__.
    pose proof (extract_fixture_head ty [] name Hty) as Hex.
    rewrite app_nil_r in Hex. rewrite Hex.
    cbn [fixture_init_loop].
    rewrite (bool_decide_eq_false_2 (Some (mk_Token TOK_CHAR "{") = None))
      by discriminate.
    cbn [perfile.type_ value]. rewrite bool_decide_eq_true_2 by reflexivity.
    apply String.eqb_neq in Hname. rewrite Hname. cbn [negb orb].
    rewrite Ht. reflexivity.
  - intros toks Hno.
    unfold FixtureDirective__init__, _extract_type.
    rewrite split_delim_plain.
    + cbn [fmap list_fmap fixture_init_loop].
      rewrite bool_decide_eq_true_2 by reflexivity. reflexivity.
    + apply Forall_forall. intros t Ht Hin.
      apply elem_of_singleton in Hin. subst t. exact (Hno Ht).
  - intros ty extra name Hty Hname Hextra.
    destruct (fixture_type ty coord Hty) as (t & Ht & _ & _).
    destruct (extract_extra extra {[ tok TOK_CHAR "{" ]} Hextra)
      as (ty2 & n2 & d2 & rest & Hex2 & Hmore).
    unfold FixtureDirective__init__.
    rewrite (extract_fixture_head ty extra name Hty), Hex2.
    cbn [fixture_init_loop].
    rewrite (bool_decide_eq_false_2 (Some (mk_Token TOK_CHAR "{") = None))
      by discriminate.
    cbn [perfile.type_ value]. rewrite bool_decide_eq_true_2 by reflexivity.
    apply String.eqb_neq in Hname. rewrite Hname. cbn [negb orb].
    rewrite Ht. cbn [rbind].
    assert (Hcond : negb (bool_decide (ty2 = [])) || bool_decide (is_Some n2)
                    || bool_decide (is_Some d2) = true).
    { destruct Hmore as [H|H].
      - rewrite (bool_decide_eq_true_2 _ H), orb_true_r. reflexivity.
      - rewrite (bool_decide_eq_true_2 _ H), orb_true_r. reflexivity. }
    rewrite Hcond. reflexivity.
Qed.

Lemma fixture_declaration_witness :
  (exists t : option string,
      FixtureDirective__init__ (_values DIRECTIVES) (Coordinate.mk "t.hypo" 3)
        ([mk_Token TOK_WORD "void"]
           ++ [mk_Token TOK_WORD "setup"; mk_Token TOK_CHAR "{"])
      = Ok (Some (FixtureDirective__call__
                    (FixtureDirective.mk "setup" t (Coordinate.mk "t.hypo" 3)
                       (Coordinate.mk "t.hypo" 3) None)),
            _values DIRECTIVES)
      /\ (([mk_Token TOK_WORD "void"] : list Token) = []
          \/ [mk_Token TOK_WORD "void"] = [mk_Token TOK_WORD "void"] ->
          t = None)
      /\ ([mk_Token TOK_WORD "void"] <> [] ->
          [mk_Token TOK_WORD "void"] <> [mk_Token TOK_WORD "void"] ->
          exists s,
            _make_type [mk_Token TOK_WORD "void"] "fixture"
              (Coordinate.mk "t.hypo" 3) = Ok s
            /\ t = Some s))
  /\ FixtureDirective__init__ (_values DIRECTIVES) (Coordinate.mk "t.hypo" 3)
       [mk_Token TOK_WORD "int"; mk_Token TOK_WORD "setup"]
     = Raise (ParseException
                "Premature end of arguments in %fixture directive at t.hypo:3").
Proof.
  split.
  - apply (proj1 (fixture_declaration (_values DIRECTIVES)
                    (Coordinate.mk "t.hypo" 3))
             [mk_Token TOK_WORD "void"] "setup").
    + reflexivity.
    + discriminate.
  - apply (proj1 (proj2 (fixture_declaration (_values DIRECTIVES)
                           (Coordinate.mk "t.hypo" 3)))).
    intros Hin. apply elem_of_cons in Hin as [Hin|Hin]; [discriminate Hin|].
    apply elem_of_cons in Hin as [Hin|Hin]; [discriminate Hin|].
    inversion Hin.
Defined.

End fixture_head_facts.

Module template_facts.

Import location linelist template spec string_facts structure_facts.

Lemma render_section_lines (kwargs : gmap string kwvalue) (name : string)
    (section : Section_.t) (ctxt : RenderContext.t) :
  match Template.render_section kwargs name section ctxt with
  | Ok ctxt' =>
      RenderContext.output ctxt' = RenderContext.output ctxt
      /\ forall n,
           context_lines (RenderContext.sections ctxt') n
           = context_lines (RenderContext.sections ctxt) n
             ++ section_lines kwargs n [(name, section)]
  | Raise e => Section_.render section kwargs = Raise e
  end.
Proof.
  unfold Template.render_section, section_lines. cbn [flat_map fst snd].
  destruct (Section_.render section kwargs) as [[result|]|e]; cbn [rbind].
  - destruct (bool_decide (LineList.__len__ result = 0)) eqn:Hlen.
    + split; [reflexivity|]. intros n.
      apply bool_decide_eq_true_1 in Hlen.
      assert (LineList._entries result = []) as ->.
      { unfold LineList.__len__ in Hlen.
        destruct (LineList._entries result); [reflexivity|].
        cbn [length] in Hlen. lia. }
      destruct (String.eqb name n); rewrite !app_nil_r; reflexivity.
    + unfold RenderContext.sections_getitem, iadd, context_lines.
      destruct (RenderContext.sections ctxt !! name) as [ll|] eqn:Hll;
        cbn [LineList.__iadd__ rbind RenderContext.output
             RenderContext.sections].
      * split; [reflexivity|]. intros n.
        destruct (String.eqb_spec name n) as [<-|Hne].
        -- rewrite lookup_insert_eq, Hll, app_nil_r. reflexivity.
        -- rewrite lookup_insert_ne by exact Hne.
           rewrite !app_nil_r. reflexivity.
      * split; [reflexivity|]. intros n.
        destruct (String.eqb_spec name n) as [<-|Hne].
        -- rewrite lookup_insert_eq, Hll, app_nil_r. reflexivity.
        -- rewrite lookup_insert_ne by exact Hne.
           rewrite lookup_insert_ne by exact Hne.
           rewrite !app_nil_r. reflexivity.
  - split; [reflexivity|]. intros n.
    destruct (String.eqb name n); rewrite !app_nil_r; reflexivity.
  - reflexivity.
Qed.

(** The second loop of [render]: the output is left as it is, and the
    lines the sections render are added to the lines of the context. *)
Lemma render_sections_lines (kwargs : gmap string kwvalue)
    (sections : odict.t Section_.t) (ctxt : RenderContext.t) :
  match Template.render_sections kwargs sections ctxt with
  | Ok ctxt' =>
      RenderContext.output ctxt' = RenderContext.output ctxt
      /\ forall name,
           context_lines (RenderContext.sections ctxt') name
           = context_lines (RenderContext.sections ctxt) name
             ++ section_lines kwargs name sections
  | Raise e =>
      exists name section,
        (name, section) ∈ sections /\ Section_.render section kwargs = Raise e
  end.
Proof.
  revert ctxt. induction sections as [|[name section] sections IH];
    intros ctxt.
  - cbn. split; [reflexivity|]. intros name. rewrite app_nil_r. reflexivity.
  - cbn [Template.render_sections].
    pose proof (render_section_lines kwargs name section ctxt) as Hone.
    destruct (Template.render_section kwargs name section ctxt)
      as [ctxt1|e]; cbn [rbind].
    + destruct Hone as [Hout1 Hsec1]. specialize (IH ctxt1).
      destruct (Template.render_sections kwargs sections ctxt1) as [ctxt'|e].
      * destruct IH as [Hout Hsec]. split; [congruence|].
        intros n. rewrite Hsec, Hsec1, <- app_assoc. f_equal.
        unfold section_lines. cbn [flat_map]. rewrite app_nil_r.
        reflexivity.
      * destruct IH as (n & s & Hin & Hs). exists n, s.
        split; [right; exact Hin|exact Hs].
    + exists name, section. split; [left|exact Hone].
Qed.

Lemma rendered_element_lines (kwargs : gmap string kwvalue)
    (sections : odict.t Section_.t) (before after : gmap string LineList.t)
    (structure : list element) :
  (forall name,
      context_lines after name
      = context_lines before name ++ section_lines kwargs name sections) ->
  flat_map (element_lines after) structure
  = flat_map (rendered_lines kwargs sections before) structure.
Proof.
  intros Hafter. induction structure as [|elem structure IH]; [reflexivity|].
  cbn [flat_map]. rewrite IH. f_equal.
  destruct elem as [e|e]; cbn [element_lines rendered_lines]; [|reflexivity].
  apply Hafter.
Qed.

Section Render.

Variable Define_render : Define.t -> gmap string kwvalue -> res string.

(** X29. Rendering a template returns the output of the context, to
    which it has added, in the order of the structure, the code of
    every literal and, for every section inserted, the lines the
    context held for that section followed by the lines the sections
    of the template with that name render, wherever the sections stand
    in the template.  The lines the sections render are added to the
    lines of the context under their names.  The only failures are the
    failure of a define and the failure of the rendering of a section;
    the structure never fails. *)
Theorem template_render_spec (self : Template.t) (ctxt : RenderContext.t)
    (kwargs : gmap string kwvalue) :
  match Template.render Define_render self ctxt kwargs with
  | Ok (out, ctxt') =>
      out = RenderContext.output ctxt'
      /\ exists kwargs',
           Template.render_defines Define_render (Template.defines self) kwargs
           = Ok kwargs'
           /\ LineList._entries out
              = LineList._entries (RenderContext.output ctxt)
                ++ flat_map (rendered_lines kwargs' (Template.sections self)
                               (RenderContext.sections ctxt))
                     (Template.structure self)
           /\ forall name,
                context_lines (RenderContext.sections ctxt') name
                = context_lines (RenderContext.sections ctxt) name
                  ++ section_lines kwargs' name (Template.sections self)
  | Raise e =>
      Template.render_defines Define_render (Template.defines self) kwargs
      = Raise e
      \/ exists kwargs' name section,
           Template.render_defines Define_render (Template.defines self) kwargs
           = Ok kwargs'
           /\ (name, section) ∈ Template.sections self
           /\ Section_.render section kwargs' = Raise e
  end.
Proof.
  unfold Template.render.
  destruct (Template.render_defines Define_render (Template.defines self)
              kwargs) as [kwargs'|e]; cbn [rbind]; [|left; reflexivity].
  pose proof (render_sections_lines kwargs' (Template.sections self) ctxt)
    as Hsections.
  destruct (Template.render_sections kwargs' (Template.sections self) ctxt)
    as [ctxt1|e]; cbn [rbind].
  - destruct Hsections as [Hout1 Hsec1].
    destruct (render_structure_lines (Template.structure self) ctxt1)
      as (ctxt' & -> & Hlines & Hsec). cbn [rbind].
    split; [reflexivity|]. exists kwargs'. split; [reflexivity|]. split.
    + rewrite Hlines, Hout1. f_equal.
      apply rendered_element_lines. exact Hsec1.
    + intros name. unfold context_lines at 1. rewrite Hsec. apply Hsec1.
  - right. destruct Hsections as (name & section & Hin & Hs).
    exists kwargs', name, section. repeat split; assumption.
Qed.

End Render.

End template_facts.
